(** * HiNATA kernel core: a shallow embedding and its verified properties

    The development follows the layering of the sources under
    [kernel/hinata]:

    - [Worker]      hinata_worker.c      (task queue, submit, cancel, cleanup)
    - [Memory]      kernel/hinata_memory.c (hinata_malloc, hinata_calloc,
                    hinata_realloc, hinata_free, limits, pools, statistics)
    - [Packet]      core/hinata_packet.c (create, get, put, destroy, find, clone)
    - [Validation]  core/hinata_validation.c (staged validation, result cache,
                    statistics)
    - [Storage]     storage/hinata_storage.c (regions, cache, store/load/delete)

    Fixed-width C integers are modelled as [Z] with the wrap-around written
    out; global (static) state becomes an explicit record threaded through
    every function; results of the environment (kernel allocators, clocks,
    file writes) are explicit arguments. *)

From stdpp Require Import base numbers list strings gmap.
From Stdlib Require Import ZArith Lia Ascii.

Local Open Scope Z_scope.

(** ** Machine integers *)

Definition wrap_u32 (z : Z) : Z := z mod 2^32.
Definition wrap_u64 (z : Z) : Z := z mod 2^64.
Definition wrap_s32 (z : Z) : Z := (z + 2^31) mod 2^32 - 2^31.
Definition wrap_s64 (z : Z) : Z := (z + 2^63) mod 2^64 - 2^63.

Definition INT_MAX : Z := 2^31 - 1.
Definition SIZE_MAX : Z := 2^64 - 1.

(** errno values (hinata_compat.h; ENOSYS as in <errno.h>) *)
Definition ENOENT : Z := 2.
Definition EIO : Z := 5.
Definition ENOMEM : Z := 12.
Definition ENODEV : Z := 19.
Definition EINVAL : Z := 22.
Definition ENOSYS : Z := 38.

(** A C pointer: an address, [0] is NULL. *)
Definition ptr := Z.
Definition NULL : ptr := 0.

(** ** Characters, C strings and CRC-32

    Strings held in fixed [char] arrays are modelled by their contents up
    to the terminating NUL; buffers are lists of bytes (0..255). *)

Definition byte_of_ascii (a : ascii) : Z := Z.of_N (N_of_ascii a).
Definition bytes_of_string (s : string) : list Z :=
  map byte_of_ascii (String.list_ascii_of_string s).

Definition strlen (s : string) : Z := Z.of_nat (String.length s).

(** strncpy(dst, src, n) followed by a read of dst as a string, when dst
    is NUL-terminated at or before position n. *)
Definition strncpy (n : Z) (src : string) : string :=
  String.substring 0 (Z.to_nat n) src.

(** <ctype.h> in the C locale *)
Definition isprint (c : Z) : bool := bool_decide (32 <= c <= 126).
Definition isspace (c : Z) : bool := bool_decide (c = 32 \/ 9 <= c <= 13).
Definition isdigit (c : Z) : bool := bool_decide (48 <= c <= 57).
Definition isalpha (c : Z) : bool :=
  bool_decide (65 <= c <= 90 \/ 97 <= c <= 122).
Definition isalnum (c : Z) : bool := isalpha c || isdigit c.
Definition isxdigit (c : Z) : bool :=
  isdigit c || bool_decide (65 <= c <= 70 \/ 97 <= c <= 102).

(** strstr(haystack, needle) != NULL *)
Fixpoint is_prefix (p s : list Z) : bool :=
  match p, s with
  | [], _ => true
  | _ :: _, [] => false
  | a :: p', b :: s' => bool_decide (a = b) && is_prefix p' s'
  end.

Fixpoint strstr (s needle : list Z) : bool :=
  is_prefix needle s ||
  match s with
  | [] => false
  | _ :: s' => strstr s' needle
  end.

(** crc32() of <linux/crc32.h>: the little-endian CRC with polynomial
    0xEDB88320, no inversion of seed or result. *)
Definition crc32_bit (c : Z) : Z :=
  if Z.testbit c 0 then Z.lxor (Z.shiftr c 1) 3988292384 else Z.shiftr c 1.
Definition crc32_byte (crc b : Z) : Z := Nat.iter 8 crc32_bit (Z.lxor crc b).
Definition crc32 (seed : Z) (data : list Z) : Z := foldl crc32_byte seed data.

(* ===================================================================== *)
(** * Worker pool and task queue (hinata_worker.c)                        *)
(* ===================================================================== *)

Module Worker.

Definition HINATA_WORKER_TASK_TIMEOUT : Z := 30000.
Definition HINATA_WORKER_PRIORITY_LEVELS : Z := 8.
Definition NSEC_PER_MSEC : Z := 1000000.

Inductive hinata_task_type :=
| HINATA_TASK_TYPE_PACKET_PROCESS
| HINATA_TASK_TYPE_STORAGE_SYNC
| HINATA_TASK_TYPE_MEMORY_GC
| HINATA_TASK_TYPE_VALIDATION
| HINATA_TASK_TYPE_MAINTENANCE
| HINATA_TASK_TYPE_BACKUP
| HINATA_TASK_TYPE_RESTORE
| HINATA_TASK_TYPE_CLEANUP
| HINATA_TASK_TYPE_CUSTOM.

Inductive hinata_task_state :=
| HINATA_TASK_STATE_PENDING
| HINATA_TASK_STATE_RUNNING
| HINATA_TASK_STATE_COMPLETED
| HINATA_TASK_STATE_FAILED
| HINATA_TASK_STATE_CANCELLED
| HINATA_TASK_STATE_TIMEOUT.

(** struct hinata_task: the fields hinata_task_alloc initialises.  [func]
    and [data] are addresses; the completion and wait-queue objects carry
    no data of their own. *)
Record hinata_task := mk_task {
  task_id : Z;                      (* u32 *)
  task_type : hinata_task_type;
  task_state : hinata_task_state;
  task_flags : Z;                   (* u32 *)
  task_priority : Z;                (* u32 *)
  task_func : ptr;
  task_data : ptr;
  task_data_size : Z;
  task_submit_time : Z;
  task_timeout : Z;
  task_result : Z;
  task_retry_count : Z;
  task_max_retries : Z;
  task_retry_delay : Z
}.

Definition set_task_priority (t : hinata_task) (p : Z) : hinata_task :=
  mk_task (task_id t) (task_type t) (task_state t) (task_flags t) p
          (task_func t) (task_data t) (task_data_size t) (task_submit_time t)
          (task_timeout t) (task_result t) (task_retry_count t)
          (task_max_retries t) (task_retry_delay t).

(** struct hinata_task_queue: eight intrusive lists, head first. *)
Record hinata_task_queue := mk_queue {
  tasks : list (list hinata_task);
  count : Z;                        (* atomic_t *)
  pending_count : Z;                (* atomic_t *)
  tasks_queued : Z;                 (* atomic64_t *)
  tasks_cancelled : Z               (* atomic64_t *)
}.

(** The part of struct hinata_worker_pool and of the file's statics that
    submission touches; [system_running] is what
    hinata_system_is_running() reads from the core's global state. *)
Record hinata_worker_pool := mk_pool {
  task_queue : hinata_task_queue;
  tasks_distributed : Z;            (* atomic64_t *)
  hinata_task_id_counter : Z;       (* atomic_t *)
  system_running : bool
}.

(** hinata_task_queue_init *)
Definition hinata_task_queue_init : hinata_task_queue :=
  mk_queue (replicate 8 []) 0 0 0 0.

(** hinata_task_alloc.  [kzalloc_ok] is the outcome of kzalloc, [now] the
    value of ktime_get_ns().  Returns the task and the new id counter. *)
Definition hinata_task_alloc (type : hinata_task_type) (func data : ptr)
    (data_size flags : Z) (kzalloc_ok : bool) (now : Z) (counter : Z)
  : option hinata_task * Z :=
  if decide (func = NULL) then (None, counter)
  else if negb kzalloc_ok then (None, counter)
  else
    let counter' := wrap_s32 (counter + 1) in
    (Some (mk_task (wrap_u32 counter') type HINATA_TASK_STATE_PENDING flags 0
                   func data data_size now
                   (HINATA_WORKER_TASK_TIMEOUT * NSEC_PER_MSEC)
                   0 0 3 (1000 * NSEC_PER_MSEC)),
     counter').

(** The priority clamp at the head of hinata_task_queue_add. *)
Definition clamp_priority (p : Z) : Z :=
  if decide (p >= HINATA_WORKER_PRIORITY_LEVELS)
  then HINATA_WORKER_PRIORITY_LEVELS - 1 else p.

(** hinata_task_queue_add (both pointers non-NULL: the callers pass the
    address of the pool's queue and a task they have just checked).
    list_add_tail appends at the tail of the lane. *)
Definition hinata_task_queue_add (queue : hinata_task_queue) (task : hinata_task)
  : Z * hinata_task_queue :=
  let priority := clamp_priority (task_priority task) in
  let task' := set_task_priority task priority in
  (0, mk_queue (alter (fun lane => lane ++ [task']) (Z.to_nat priority) (tasks queue))
               (wrap_s32 (count queue + 1))
               (wrap_s32 (pending_count queue + 1))
               (wrap_s64 (tasks_queued queue + 1))
               (tasks_cancelled queue)).

(** The scan of hinata_task_queue_get: lanes in index order, the first
    non-empty one loses its head. *)
Fixpoint scan_lanes (lanes : list (list hinata_task))
  : option (hinata_task * list (list hinata_task)) :=
  match lanes with
  | [] => None
  | [] :: rest =>
      match scan_lanes rest with
      | Some (t, rest') => Some (t, [] :: rest')
      | None => None
      end
  | (t :: lane) :: rest => Some (t, lane :: rest)
  end.

(** hinata_task_queue_get *)
Definition hinata_task_queue_get (queue : hinata_task_queue)
  : option hinata_task * hinata_task_queue :=
  match scan_lanes (tasks queue) with
  | Some (t, lanes') =>
      (Some t, mk_queue lanes'
                        (wrap_s32 (count queue - 1))
                        (wrap_s32 (pending_count queue - 1))
                        (tasks_queued queue) (tasks_cancelled queue))
  | None => (None, queue)
  end.

Definition set_pool_queue (p : hinata_worker_pool) (q : hinata_task_queue)
  : hinata_worker_pool :=
  mk_pool q (tasks_distributed p) (hinata_task_id_counter p) (system_running p).

(** hinata_submit_task.  The int result is the task id (u32 read as int)
    or a negative errno. *)
Definition hinata_submit_task (pool : hinata_worker_pool)
    (type : hinata_task_type) (func data : ptr) (data_size flags : Z)
    (kzalloc_ok : bool) (now : Z)
  : Z * hinata_worker_pool :=
  if decide (func = NULL) then (- EINVAL, pool)
  else if negb (system_running pool) then (- ENODEV, pool)
  else
    match hinata_task_alloc type func data data_size flags kzalloc_ok now
                            (hinata_task_id_counter pool) with
    | (None, _) => (- ENOMEM, pool)
    | (Some task, counter') =>
        let '(_, q') := hinata_task_queue_add (task_queue pool) task in
        (wrap_s32 (task_id task),
         mk_pool q' (wrap_s64 (tasks_distributed pool + 1)) counter'
                 (system_running pool))
    end.

(** hinata_wait_task and hinata_cancel_task: both bodies are a single
    [return -ENOSYS]. *)
Definition hinata_wait_task (pool : hinata_worker_pool) (task_id timeout_ms : Z)
  : Z * hinata_worker_pool := (- ENOSYS, pool).

Definition hinata_cancel_task (pool : hinata_worker_pool) (task_id : Z)
  : Z * hinata_worker_pool := (- ENOSYS, pool).

(** Repeated hinata_task_queue_get, at most [n] times, collecting the
    tasks in the order they come out. *)
Fixpoint drain (n : nat) (q : hinata_task_queue) : list hinata_task :=
  match n with
  | O => []
  | S n' =>
      match hinata_task_queue_get q with
      | (Some t, q') => t :: drain n' q'
      | (None, _) => []
      end
  end.

Definition add_all (q : hinata_task_queue) (ts : list hinata_task)
  : hinata_task_queue :=
  foldl (fun q t => snd (hinata_task_queue_add q t)) q ts.

(** The lane a task is filed under, the task as it sits in the queue, and
    the order a strict-priority, FIFO-within-lane scheduler hands tasks
    out in. *)
Definition lane_of (t : hinata_task) : nat :=
  Z.to_nat (clamp_priority (task_priority t)).

Definition queued (t : hinata_task) : hinata_task :=
  set_task_priority t (clamp_priority (task_priority t)).

Definition lanes_of (ts : list hinata_task) : list (list hinata_task) :=
  map (fun i => filter (fun t => lane_of t = i) (map queued ts)) (seq 0 8).

Definition priority_order (ts : list hinata_task) : list hinata_task :=
  concat (lanes_of ts).

(** Calls made through the public interface, interleaved with workers
    taking tasks. *)
Inductive pool_op :=
| OpSubmit (type : hinata_task_type) (func data : ptr) (data_size flags : Z)
           (kzalloc_ok : bool) (now : Z)
| OpGet.

(** The task a call of hinata_submit_task creates and enqueues, if any. *)
Definition submitted_task (pool : hinata_worker_pool)
    (type : hinata_task_type) (func data : ptr) (data_size flags : Z)
    (kzalloc_ok : bool) (now : Z) : option hinata_task :=
  if decide (func = NULL) then None
  else if negb (system_running pool) then None
  else fst (hinata_task_alloc type func data data_size flags kzalloc_ok now
                              (hinata_task_id_counter pool)).

Record pool_trace := mk_trace {
  tr_pool : hinata_worker_pool;
  tr_created : list hinata_task;    (* in submission order *)
  tr_dequeued : list hinata_task    (* in the order workers got them *)
}.

Definition step_op (tr : pool_trace) (op : pool_op) : pool_trace :=
  match op with
  | OpSubmit type func data data_size flags ok now =>
      let pool := tr_pool tr in
      mk_trace (snd (hinata_submit_task pool type func data data_size flags ok now))
               (tr_created tr ++
                  option_list (submitted_task pool type func data data_size flags ok now))
               (tr_dequeued tr)
  | OpGet =>
      let '(r, q') := hinata_task_queue_get (task_queue (tr_pool tr)) in
      mk_trace (set_pool_queue (tr_pool tr) q')
               (tr_created tr)
               (tr_dequeued tr ++ option_list r)
  end.

Definition run_ops (pool : hinata_worker_pool) (ops : list pool_op) : pool_trace :=
  foldl step_op (mk_trace pool [] []) ops.

(** Only lane 0 is in use, and what was created is what was dequeued
    followed by what still waits there. *)
Definition fifo_inv (tr : pool_trace) : Prop :=
  exists lane0,
    tasks (task_queue (tr_pool tr)) = lane0 :: replicate 7 [] /\
    tr_created tr = tr_dequeued tr ++ lane0.

(** The functions of the hinata_submit_task calls that pass the argument
    check and whose kzalloc succeeds, in call order. *)
Definition accepted_funcs (ops : list pool_op) : list ptr :=
  flat_map (fun op => match op with
                      | OpSubmit _ func _ _ _ ok _ =>
                          if decide (func = NULL) then []
                          else if ok then [func] else []
                      | OpGet => []
                      end) ops.

(** hinata_task_type_to_string and hinata_task_state_to_string; the
    [default] branches answer for values outside the enumerations. *)
Definition hinata_task_type_to_string (type : hinata_task_type) : string :=
  match type with
  | HINATA_TASK_TYPE_PACKET_PROCESS => "packet_process"
  | HINATA_TASK_TYPE_STORAGE_SYNC => "storage_sync"
  | HINATA_TASK_TYPE_MEMORY_GC => "memory_gc"
  | HINATA_TASK_TYPE_VALIDATION => "validation"
  | HINATA_TASK_TYPE_MAINTENANCE => "maintenance"
  | HINATA_TASK_TYPE_BACKUP => "backup"
  | HINATA_TASK_TYPE_RESTORE => "restore"
  | HINATA_TASK_TYPE_CLEANUP => "cleanup"
  | HINATA_TASK_TYPE_CUSTOM => "custom"
  end.

Definition hinata_task_state_to_string (state : hinata_task_state) : string :=
  match state with
  | HINATA_TASK_STATE_PENDING => "pending"
  | HINATA_TASK_STATE_RUNNING => "running"
  | HINATA_TASK_STATE_COMPLETED => "completed"
  | HINATA_TASK_STATE_FAILED => "failed"
  | HINATA_TASK_STATE_CANCELLED => "cancelled"
  | HINATA_TASK_STATE_TIMEOUT => "timeout"
  end.

Definition set_task_state (t : hinata_task) (st : hinata_task_state) : hinata_task :=
  mk_task (task_id t) (task_type t) st (task_flags t) (task_priority t)
          (task_func t) (task_data t) (task_data_size t) (task_submit_time t)
          (task_timeout t) (task_result t) (task_retry_count t)
          (task_max_retries t) (task_retry_delay t).

(** hinata_task_queue_cleanup.  The outer loop walks the lanes in index
    order, the inner one unlinks every task of the lane, marks it
    cancelled, completes it and hands it to hinata_task_free; then both
    counters are set to zero.  The result lists the tasks in the order
    they were freed. *)
Definition cleanup_lane (freed : list hinata_task) (lane : list hinata_task)
  : list hinata_task :=
  foldl (fun acc t => acc ++ [set_task_state t HINATA_TASK_STATE_CANCELLED]) freed lane.

Definition hinata_task_queue_cleanup (queue : hinata_task_queue)
  : list hinata_task * hinata_task_queue :=
  (foldl cleanup_lane [] (tasks queue),
   mk_queue (map (fun _ => []) (tasks queue)) 0 0
            (tasks_queued queue) (tasks_cancelled queue)).

(** Calls on the queue itself: producers adding tasks, workers taking
    them. *)
Inductive queue_op :=
| QAdd (task : hinata_task)
| QGet.

Definition apply_queue_op (q : hinata_task_queue) (op : queue_op) : hinata_task_queue :=
  match op with
  | QAdd t => snd (hinata_task_queue_add q t)
  | QGet => snd (hinata_task_queue_get q)
  end.

Definition run_queue_ops (q : hinata_task_queue) (ops : list queue_op)
  : hinata_task_queue :=
  foldl apply_queue_op q ops.

(** The number of QAdd calls in a sequence. *)
Definition adds (ops : list queue_op) : Z :=
  foldl (fun n op => match op with QAdd _ => n + 1 | QGet => n end) 0 ops.

End Worker.

(* ===================================================================== *)
(** * Memory manager (kernel/hinata_memory.c)                             *)
(* ===================================================================== *)

Module Memory.

Definition EALREADY : Z := 114.
Definition PAGE_SIZE : Z := 4096.
Definition HINATA_MEMORY_MAX_SINGLE : Z := 16 * 1024 * 1024.
Definition HINATA_MEMORY_MAX_TOTAL : Z := 1024 * 1024 * 1024.
Definition HINATA_MEMORY_MAX_ALLOCATIONS : Z := 100000.
Definition HINATA_MEMORY_WARNING_THRESHOLD : Z := 512 * 1024 * 1024.
Definition HINATA_MEMORY_CRITICAL_THRESHOLD : Z := 768 * 1024 * 1024.
Definition HINATA_MEMORY_FLAG_TRACKED : Z := 1.

Definition memory_pool_sizes : list Z := [32; 64; 128; 256; 512; 1024; 2048; 4096].

(** struct hinata_memory_block *)
Record hinata_memory_block := mk_block {
  blk_ptr : ptr;
  blk_size : Z;
  blk_flags : Z;
  blk_alloc_time : Z;
  blk_access_time : Z;
  blk_access_count : Z
}.

(** struct hinata_memory_pool with the counters of its stats member *)
Record hinata_memory_pool := mk_mpool {
  pool_size : Z;
  pool_allocated_count : Z;
  pool_total_count : Z;
  pool_allocations : Z;
  pool_bytes_allocated : Z;
  pool_frees : Z;
  pool_bytes_freed : Z
}.

Record hinata_memory_limits := mk_limits {
  max_total_size : Z;
  max_single_alloc : Z;
  max_allocations : Z;
  warning_threshold : Z;
  critical_threshold : Z
}.

Record hinata_memory_config := mk_config {
  enable_tracking : bool;
  enable_pooling : bool;
  enable_gc : bool;
  enable_stats : bool
}.

(** struct hinata_memory_context together with the static
    [memory_initialized].  [blocks_list] is the tracking list, newest
    first; the hash buckets index the same blocks by address.  [heap] is
    the kernel memory handed out: the bytes of every live buffer. *)
Record hinata_memory_context := mk_ctx {
  memory_initialized : bool;
  pools : list hinata_memory_pool;
  blocks_list : list hinata_memory_block;
  total_allocated : Z;              (* atomic64_t *)
  total_freed : Z;                  (* atomic64_t *)
  peak_usage : Z;                   (* atomic64_t *)
  allocation_count : Z;             (* atomic64_t *)
  free_count : Z;                   (* atomic64_t *)
  leak_count : Z;                   (* atomic64_t *)
  oom_count : Z;                    (* atomic64_t *)
  limits : hinata_memory_limits;
  config : hinata_memory_config;
  heap : gmap Z (list Z)
}.

(** What the kernel answers during one hinata_malloc: the object from the
    pool's slab cache, from kmalloc, from vmalloc (NULL when it fails),
    whether the tracking block could be allocated, the bytes found in the
    new buffer, and the timestamp. *)
Record alloc_env := mk_env {
  env_cache_alloc : ptr;
  env_kmalloc : ptr;
  env_vmalloc : ptr;
  env_block_ok : bool;
  env_garbage : list Z;
  env_now : Z
}.

Definition inc_oom (s : hinata_memory_context) : hinata_memory_context :=
  mk_ctx (memory_initialized s) (pools s) (blocks_list s) (total_allocated s)
         (total_freed s) (peak_usage s) (allocation_count s) (free_count s)
         (leak_count s) (wrap_s64 (oom_count s + 1)) (limits s) (config s) (heap s).

Definition set_pools (s : hinata_memory_context) (ps : list hinata_memory_pool)
  : hinata_memory_context :=
  mk_ctx (memory_initialized s) ps (blocks_list s) (total_allocated s)
         (total_freed s) (peak_usage s) (allocation_count s) (free_count s)
         (leak_count s) (oom_count s) (limits s) (config s) (heap s).

Definition set_blocks (s : hinata_memory_context) (bs : list hinata_memory_block)
  : hinata_memory_context :=
  mk_ctx (memory_initialized s) (pools s) bs (total_allocated s)
         (total_freed s) (peak_usage s) (allocation_count s) (free_count s)
         (leak_count s) (oom_count s) (limits s) (config s) (heap s).

Definition set_heap (s : hinata_memory_context) (h : gmap Z (list Z))
  : hinata_memory_context :=
  mk_ctx (memory_initialized s) (pools s) (blocks_list s) (total_allocated s)
         (total_freed s) (peak_usage s) (allocation_count s) (free_count s)
         (leak_count s) (oom_count s) (limits s) (config s) h.

Definition set_alloc_stats (s : hinata_memory_context) (ta cnt peak : Z)
  : hinata_memory_context :=
  mk_ctx (memory_initialized s) (pools s) (blocks_list s) ta
         (total_freed s) peak cnt (free_count s)
         (leak_count s) (oom_count s) (limits s) (config s) (heap s).

Definition set_free_stats (s : hinata_memory_context) (tf cnt : Z)
  : hinata_memory_context :=
  mk_ctx (memory_initialized s) (pools s) (blocks_list s) (total_allocated s)
         tf (peak_usage s) (allocation_count s) cnt
         (leak_count s) (oom_count s) (limits s) (config s) (heap s).

(** The u64 [current_usage] both hinata_malloc and
    hinata_check_memory_limit compute. *)
Definition current_usage (s : hinata_memory_context) : Z :=
  wrap_u64 (total_allocated s - total_freed s).

(** The context hinata_memory_init leaves behind when every slab cache
    could be created. *)
Definition initial_context : hinata_memory_context :=
  mk_ctx true
         (map (fun sz => mk_mpool sz 0 0 0 0 0 0) memory_pool_sizes)
         [] 0 0 0 0 0 0 0
         (mk_limits HINATA_MEMORY_MAX_TOTAL HINATA_MEMORY_MAX_SINGLE
                    HINATA_MEMORY_MAX_ALLOCATIONS
                    HINATA_MEMORY_WARNING_THRESHOLD
                    HINATA_MEMORY_CRITICAL_THRESHOLD)
         (mk_config true true true true)
         (gmap_empty).

(** The zeroed static context before initialisation. *)
Definition zero_context : hinata_memory_context :=
  mk_ctx false [] [] 0 0 0 0 0 0 0 (mk_limits 0 0 0 0 0)
         (mk_config false false false false) (gmap_empty).

(** hinata_memory_init; [caches_ok] says whether kmem_cache_create
    succeeded for all eight pools. *)
Definition hinata_memory_init (s : hinata_memory_context) (caches_ok : bool)
  : Z * hinata_memory_context :=
  if memory_initialized s then (- EALREADY, s)
  else if caches_ok then (0, initial_context)
  else (- ENOMEM, zero_context).

(** hinata_memory_pool_alloc: the first pool whose block size is at least
    [size] serves the request from its slab cache ([obj]); its counters
    move only when the cache delivers. *)
Fixpoint hinata_memory_pool_alloc (ps : list hinata_memory_pool) (size : Z) (obj : ptr)
  : ptr * list hinata_memory_pool :=
  match ps with
  | [] => (NULL, [])
  | p :: rest =>
      if decide (pool_size p >= size) then
        if decide (obj = NULL) then (NULL, p :: rest)
        else (obj, mk_mpool (pool_size p)
                            (wrap_s32 (pool_allocated_count p + 1))
                            (wrap_s32 (pool_total_count p + 1))
                            (wrap_u64 (pool_allocations p + 1))
                            (wrap_u64 (pool_bytes_allocated p + pool_size p))
                            (pool_frees p) (pool_bytes_freed p) :: rest)
      else
        let '(r, rest') := hinata_memory_pool_alloc rest size obj in
        (r, p :: rest')
  end.

(** hinata_memory_pool_free (the counters; the object goes back to the
    slab cache or, without a fitting pool, to kfree/vfree). *)
Fixpoint hinata_memory_pool_free (ps : list hinata_memory_pool) (size : Z)
  : list hinata_memory_pool :=
  match ps with
  | [] => []
  | p :: rest =>
      if decide (pool_size p >= size) then
        mk_mpool (pool_size p)
                 (wrap_s32 (pool_allocated_count p - 1))
                 (pool_total_count p)
                 (pool_allocations p) (pool_bytes_allocated p)
                 (wrap_u64 (pool_frees p + 1))
                 (wrap_u64 (pool_bytes_freed p + pool_size p)) :: rest
      else p :: hinata_memory_pool_free rest size
  end.

(** hinata_memory_block_find: first tracking block for the address; a hit
    bumps its access count and access time. *)
Fixpoint hinata_memory_block_find (bs : list hinata_memory_block) (p : ptr) (now : Z)
  : option hinata_memory_block * list hinata_memory_block :=
  match bs with
  | [] => (None, [])
  | b :: rest =>
      if decide (blk_ptr b = p) then
        let b' := mk_block (blk_ptr b) (blk_size b) (blk_flags b) (blk_alloc_time b)
                           now (wrap_s32 (blk_access_count b + 1)) in
        (Some b', b' :: rest)
      else
        let '(r, rest') := hinata_memory_block_find rest p now in
        (r, b :: rest')
  end.

(** hinata_memory_block_destroy: unlink the block found for the address. *)
Fixpoint hinata_memory_block_destroy (bs : list hinata_memory_block) (p : ptr)
  : list hinata_memory_block :=
  match bs with
  | [] => []
  | b :: rest =>
      if decide (blk_ptr b = p) then rest
      else b :: hinata_memory_block_destroy rest p
  end.

(** hinata_malloc *)
Definition hinata_malloc (s : hinata_memory_context) (size : Z) (env : alloc_env)
  : ptr * hinata_memory_context :=
  if negb (memory_initialized s) || bool_decide (size = 0) then (NULL, s)
  else if decide (size > max_single_alloc (limits s)) then (NULL, inc_oom s)
  else if decide (wrap_u64 (current_usage s + size) > max_total_size (limits s))
  then (NULL, inc_oom s)
  else
    (* pool first, then kmalloc or vmalloc *)
    let '(p_pool, ps) :=
      if enable_pooling (config s)
      then hinata_memory_pool_alloc (pools s) size (env_cache_alloc env)
      else (NULL, pools s) in
    let p := if decide (p_pool <> NULL) then p_pool
             else if decide (size <= PAGE_SIZE) then env_kmalloc env
             else env_vmalloc env in
    let s1 := set_pools s ps in
    if decide (p = NULL) then (NULL, inc_oom s1)
    else if enable_tracking (config s) && negb (env_block_ok env) then
      (* tracking failed: the buffer is given back, no counter moves *)
      (NULL, if enable_pooling (config s)
             then set_pools s1 (hinata_memory_pool_free ps size) else s1)
    else
      let bs := if enable_tracking (config s)
                then mk_block p size HINATA_MEMORY_FLAG_TRACKED (env_now env)
                              (env_now env) 1 :: blocks_list s
                else blocks_list s in
      let ta := wrap_s64 (total_allocated s + size) in
      let usage := wrap_u64 (ta - total_freed s) in
      let peak := if decide (usage <= wrap_u64 (peak_usage s))
                  then peak_usage s else wrap_s64 usage in
      let s2 := set_blocks s1 bs in
      let s3 := set_alloc_stats s2 ta (wrap_s64 (allocation_count s + 1)) peak in
      (p, set_heap s3 (<[p := resize (Z.to_nat size) 0 (env_garbage env)]> (heap s))).

(** memset(ptr, 0, n) on a buffer *)
Definition memset_zero (n : Z) (buf : list Z) : list Z :=
  replicate (Z.to_nat n) 0 ++ drop (Z.to_nat n) buf.

(** hinata_calloc *)
Definition hinata_calloc (s : hinata_memory_context) (nmemb size : Z) (env : alloc_env)
  : ptr * hinata_memory_context :=
  if decide (nmemb <> 0 /\ size > SIZE_MAX / nmemb) then (NULL, s)
  else
    let total_size := wrap_u64 (nmemb * size) in
    let '(p, s') := hinata_malloc s total_size env in
    if decide (p <> NULL) then
      (p, set_heap s' (alter (memset_zero total_size) p (heap s')))
    else (p, s').

(** hinata_free *)
Definition hinata_free (s : hinata_memory_context) (p : ptr) (now : Z)
  : hinata_memory_context :=
  if negb (memory_initialized s) || bool_decide (p = NULL) then s
  else
    let '(found, bs) :=
      if enable_tracking (config s)
      then hinata_memory_block_find (blocks_list s) p now
      else (None, blocks_list s) in
    match found with
    | Some b =>
        let s1 := set_blocks s (hinata_memory_block_destroy bs p) in
        let s2 := if enable_pooling (config s)
                  then set_pools s1 (hinata_memory_pool_free (pools s) (blk_size b))
                  else s1 in
        let s3 := set_free_stats s2 (wrap_s64 (total_freed s + blk_size b))
                                 (wrap_s64 (free_count s + 1)) in
        set_heap s3 (delete p (heap s))
    | None => set_heap s (delete p (heap s))
    end.

(** hinata_check_memory_limit *)
Definition E2BIG : Z := 7.
Definition hinata_check_memory_limit (s : hinata_memory_context) (additional_size : Z) : Z :=
  if negb (memory_initialized s) then - ENODEV
  else if decide (additional_size > max_single_alloc (limits s)) then - E2BIG
  else if decide (wrap_u64 (current_usage s + additional_size) > max_total_size (limits s))
  then - ENOMEM
  else 0.

(** The allocator is initialised, its caps are u64 values whose sum does
    not overflow, and the usage it accounts for is within the total cap. *)
Definition ctx_valid (s : hinata_memory_context) : Prop :=
  memory_initialized s = true
  /\ 0 <= max_single_alloc (limits s)
  /\ 0 <= max_total_size (limits s)
  /\ max_single_alloc (limits s) + max_total_size (limits s) < 2^64
  /\ total_allocated s - total_freed s <= max_total_size (limits s).

(** hinata_get_allocated_memory (a size_t) *)
Definition hinata_get_allocated_memory (s : hinata_memory_context) : Z :=
  if negb (memory_initialized s) then 0
  else wrap_u64 (total_allocated s - total_freed s).

(** memcpy(dst, src, n) on buffers: the first [n] bytes of [dst] become
    those of [src]. *)
Definition memcpy (n : Z) (src dst : list Z) : list Z :=
  let copied := take (Z.to_nat n) src in
  copied ++ drop (length copied) dst.

(** hinata_realloc.  [now_find] is the timestamp taken by the lookup of
    the old block, [now_free] the one taken when the old buffer is freed;
    [env] answers the hinata_malloc of the new buffer. *)
Definition hinata_realloc (s : hinata_memory_context) (p : ptr) (size : Z)
    (env : alloc_env) (now_find now_free : Z) : ptr * hinata_memory_context :=
  if decide (p = NULL) then hinata_malloc s size env
  else if decide (size = 0) then (NULL, hinata_free s p now_free)
  else
    let '(found, bs) :=
      if enable_tracking (config s)
      then hinata_memory_block_find (blocks_list s) p now_find
      else (None, blocks_list s) in
    let old_size := match found with Some b => blk_size b | None => 0 end in
    let '(new_ptr, s1) := hinata_malloc (set_blocks s bs) size env in
    if decide (new_ptr = NULL) then (NULL, s1)
    else
      let s2 :=
        if decide (old_size > 0)
        then set_heap s1 (alter (memcpy (Z.min old_size size)
                                        (default [] (heap s1 !! p)))
                                new_ptr (heap s1))
        else s1 in
      (new_ptr, hinata_free s2 p now_free).

(** hinata_memory_reset_stats: the seven counters go back to zero; the
    tracking list, the pools and the limits stay. *)
Definition hinata_memory_reset_stats (s : hinata_memory_context) : hinata_memory_context :=
  if negb (memory_initialized s) then s
  else mk_ctx (memory_initialized s) (pools s) (blocks_list s) 0 0 0 0 0 0 0
              (limits s) (config s) (heap s).

(** Allocations and frees as seen by a client of the allocator. *)
Inductive mem_op :=
| MAlloc (size : Z) (env : alloc_env)
| MFree (p : ptr) (now : Z).

Definition apply_mem_op (s : hinata_memory_context) (op : mem_op) : hinata_memory_context :=
  match op with
  | MAlloc size env => snd (hinata_malloc s size env)
  | MFree p now => hinata_free s p now
  end.

Definition run_mem_ops (s : hinata_memory_context) (ops : list mem_op)
  : hinata_memory_context :=
  foldl apply_mem_op s ops.

(** The sizes requested are values of type size_t. *)
Definition mem_op_sized (op : mem_op) : Prop :=
  match op with
  | MAlloc size _ => 0 <= size < 2^64
  | MFree _ _ => True
  end.

(** The bytes of all buffers on the tracking list. *)
Definition tracked_bytes (s : hinata_memory_context) : Z :=
  foldr Z.add 0 (map blk_size (blocks_list s)).

End Memory.

(* ===================================================================== *)
(** * Packets (core/hinata_packet.h, core/hinata_packet.c)                *)
(* ===================================================================== *)

Module Packet.

Definition HINATA_UUID_LENGTH : Z := 37.
Definition HINATA_MAX_SOURCE_LENGTH : Z := 256.
Definition HINATA_MAX_TAGS : Z := 16.
Definition HINATA_MAX_TAG_LENGTH : Z := 64.

(** enum hinata_packet_type, hinata_packet_priority, hinata_packet_status.
    The fields are kept as integers: the validators test them for values
    outside the enumerations. *)
Definition HINATA_PACKET_TEXT : Z := 0.
Definition HINATA_PACKET_MARKDOWN : Z := 1.
Definition HINATA_PACKET_CODE : Z := 2.
Definition HINATA_PACKET_DATA : Z := 3.
Definition HINATA_PACKET_LINK : Z := 4.
Definition HINATA_PACKET_IMAGE : Z := 5.
Definition HINATA_PACKET_AUDIO : Z := 6.
Definition HINATA_PACKET_VIDEO : Z := 7.
Definition HINATA_PACKET_DOCUMENT : Z := 8.
Definition HINATA_PACKET_ARCHIVE : Z := 9.
Definition HINATA_PACKET_CUSTOM : Z := 10.
Definition HINATA_PACKET_TYPE_MAX : Z := 11.
Definition HINATA_PRIORITY_CRITICAL : Z := 3.
Definition HINATA_STATUS_ARCHIVED : Z := 5.

(** Constants of hinata_packet.c *)
Definition HINATA_PACKET_MAGIC : Z := 1212763713.   (* 0x48494E41 *)
Definition HINATA_PACKET_VERSION : Z := 1.
Definition HINATA_MAX_PACKET_SIZE : Z := 1024 * 1024.
Definition HINATA_MAX_CONTENT_SIZE : Z := 512 * 1024.
Definition HINATA_MAX_METADATA_SIZE : Z := 64 * 1024.

(** sizeof(struct hinata_packet) on an LP64 target. *)
Definition SIZEOF_PACKET : Z := 1424.

(** struct hinata_packet.  [pkt_content] and [pkt_metadata] are addresses
    of kmalloc'ed buffers; [pkt_tags] are the sixteen tag slots. *)
Record hinata_packet := mk_packet {
  pkt_magic : Z;
  pkt_version : Z;
  pkt_id : string;
  pkt_type : Z;
  pkt_priority : Z;
  pkt_status : Z;
  pkt_size : Z;
  pkt_content_size : Z;
  pkt_metadata_size : Z;
  pkt_content_hash : Z;
  pkt_created_at : Z;
  pkt_updated_at : Z;
  pkt_source : string;
  pkt_tags : list string;
  pkt_tag_count : Z;
  pkt_content : ptr;
  pkt_metadata : ptr;
  pkt_ref_count : Z;                (* atomic_t *)
  pkt_flags : Z
}.

Definition set_ref_count (p : hinata_packet) (rc : Z) : hinata_packet :=
  mk_packet (pkt_magic p) (pkt_version p) (pkt_id p) (pkt_type p) (pkt_priority p)
            (pkt_status p) (pkt_size p) (pkt_content_size p) (pkt_metadata_size p)
            (pkt_content_hash p) (pkt_created_at p) (pkt_updated_at p) (pkt_source p)
            (pkt_tags p) (pkt_tag_count p) (pkt_content p) (pkt_metadata p) rc
            (pkt_flags p).

(** struct hinata_packet_node *)
Record hinata_packet_node := mk_node {
  node_packet : ptr;
  node_ref_count : Z;
  node_created_time : Z;
  node_last_access : Z
}.

(** The statics of hinata_packet.c and the kernel memory they manage.
    [packets] is the memory of the packet slab cache, by address; a struct
    stays readable after kmem_cache_free, and the two logs record every
    address passed to kfree and to kmem_cache_free(packet_cache, _), in
    call order.  [packet_hash_table] lists the nodes newest first (hash_add
    inserts at the head of a bucket, and all nodes of one id share a
    bucket). *)
Record packet_world := mk_world {
  kheap : gmap Z (list Z);
  packets : gmap Z hinata_packet;
  packet_hash_table : list hinata_packet_node;
  kfree_log : list ptr;
  packet_cache_free_log : list ptr;
  packet_create_count : Z;          (* atomic64_t *)
  packet_validate_count : Z;        (* atomic64_t *)
  packet_destroy_count : Z;         (* atomic64_t *)
  packet_hash_collisions : Z;       (* atomic64_t *)
  hinata_packet_count : Z           (* the core's global packet counter *)
}.

Definition set_packets (w : packet_world) (ps : gmap Z hinata_packet) : packet_world :=
  mk_world (kheap w) ps (packet_hash_table w) (kfree_log w) (packet_cache_free_log w)
           (packet_create_count w) (packet_validate_count w) (packet_destroy_count w)
           (packet_hash_collisions w) (hinata_packet_count w).

Definition set_hash_table (w : packet_world) (t : list hinata_packet_node) : packet_world :=
  mk_world (kheap w) (packets w) t (kfree_log w) (packet_cache_free_log w)
           (packet_create_count w) (packet_validate_count w) (packet_destroy_count w)
           (packet_hash_collisions w) (hinata_packet_count w).

(** kmalloc + memcpy of a fresh buffer *)
Definition kmalloc_store (w : packet_world) (p : ptr) (bytes : list Z) : packet_world :=
  mk_world (<[p := bytes]> (kheap w)) (packets w) (packet_hash_table w) (kfree_log w)
           (packet_cache_free_log w)
           (packet_create_count w) (packet_validate_count w) (packet_destroy_count w)
           (packet_hash_collisions w) (hinata_packet_count w).

(** kfree: a no-op on NULL *)
Definition kfree (w : packet_world) (p : ptr) : packet_world :=
  if decide (p = NULL) then w
  else mk_world (delete p (kheap w)) (packets w) (packet_hash_table w)
                (kfree_log w ++ [p]) (packet_cache_free_log w)
                (packet_create_count w) (packet_validate_count w)
                (packet_destroy_count w) (packet_hash_collisions w)
                (hinata_packet_count w).

(** kmem_cache_free(packet_cache, p) *)
Definition packet_cache_free (w : packet_world) (p : ptr) : packet_world :=
  mk_world (kheap w) (packets w) (packet_hash_table w) (kfree_log w)
           (packet_cache_free_log w ++ [p])
           (packet_create_count w) (packet_validate_count w) (packet_destroy_count w)
           (packet_hash_collisions w) (hinata_packet_count w).

(** node->packet->id *)
Definition node_id (ps : gmap Z hinata_packet) (n : hinata_packet_node) : option string :=
  pkt_id <$> ps !! node_packet n.

(** hinata_packet_find_node *)
Fixpoint hinata_packet_find_node (ps : gmap Z hinata_packet)
    (nodes : list hinata_packet_node) (id : string) : option hinata_packet_node :=
  match nodes with
  | [] => None
  | n :: rest =>
      if decide (node_id ps n = Some id) then Some n
      else hinata_packet_find_node ps rest id
  end.

(** hash_del of the node hinata_packet_find_node returns *)
Fixpoint hash_del_first (ps : gmap Z hinata_packet)
    (nodes : list hinata_packet_node) (id : string) : list hinata_packet_node :=
  match nodes with
  | [] => []
  | n :: rest =>
      if decide (node_id ps n = Some id) then rest
      else n :: hash_del_first ps rest id
  end.

(** hinata_packet_remove_from_hash *)
Definition hinata_packet_remove_from_hash (w : packet_world) (id : string) : packet_world :=
  set_hash_table w (hash_del_first (packets w) (packet_hash_table w) id).

(** hinata_packet_add_to_hash; [node_ok] is the outcome of the node
    allocation. *)
Definition hinata_packet_add_to_hash (w : packet_world) (p : ptr) (id : string)
    (node_ok : bool) (jiffies : Z) : Z * packet_world :=
  if negb node_ok then (- ENOMEM, w)
  else
    match hinata_packet_find_node (packets w) (packet_hash_table w) id with
    | Some _ =>
        (- 17,   (* -EEXIST *)
         mk_world (kheap w) (packets w) (packet_hash_table w) (kfree_log w)
                  (packet_cache_free_log w)
                  (packet_create_count w) (packet_validate_count w)
                  (packet_destroy_count w)
                  (wrap_s64 (packet_hash_collisions w + 1))
                  (hinata_packet_count w))
    | None =>
        (0, set_hash_table w (mk_node p 1 jiffies jiffies :: packet_hash_table w))
    end.

(** What the kernel answers during one hinata_packet_create: the struct
    from the packet slab cache, the result of hinata_generate_uuid, the
    wall clock, the two kmalloc results, whether a hash node could be
    allocated, and jiffies. *)
Record create_env := mk_create_env {
  ce_packet : ptr;
  ce_uuid_ret : Z;
  ce_uuid : string;
  ce_now : Z;
  ce_content : ptr;
  ce_metadata : ptr;
  ce_node_ok : bool;
  ce_jiffies : Z
}.

(** The sixteen tag slots after the copy loop of hinata_packet_create. *)
Definition copy_tags (tags : option (list (option string))) (tag_count : Z) : list string :=
  map (fun i : nat =>
         match tags with
         | Some l =>
             if decide (Z.of_nat i < tag_count) then
               match l !! i with
               | Some (Some t) => strncpy (HINATA_MAX_TAG_LENGTH - 1) t
               | _ => EmptyString
               end
             else EmptyString
         | None => EmptyString
         end)
      (seq 0 16).

(** hinata_packet_create.  [content] and [metadata] are the caller's
    buffers (None for NULL), [source] the caller's string, [tags] the
    caller's array of strings. *)
Definition hinata_packet_create (w : packet_world) (type : Z)
    (content : option (list Z)) (content_size : Z)
    (metadata : option (list Z)) (metadata_size : Z)
    (source : option string)
    (tags : option (list (option string))) (tag_count : Z)
    (env : create_env) : ptr * packet_world :=
  match content, source with
  | Some cbytes, Some src =>
      if decide (content_size = 0 \/ content_size > HINATA_MAX_CONTENT_SIZE)
      then (NULL, w)
      else if bool_decide (is_Some metadata)
              && bool_decide (metadata_size > HINATA_MAX_METADATA_SIZE)
      then (NULL, w)
      else if decide (strlen src = 0) then (NULL, w)
      else if decide (tag_count > HINATA_MAX_TAGS) then (NULL, w)
      else
        let total_size :=
          SIZEOF_PACKET + content_size
          + (if bool_decide (is_Some metadata) then metadata_size else 0) in
        if decide (total_size > HINATA_MAX_PACKET_SIZE) then (NULL, w)
        else if decide (ce_packet env = NULL) then (NULL, w)
        else if decide (ce_uuid_ret env < 0)
        then (NULL, packet_cache_free w (ce_packet env))
        else if decide (ce_content env = NULL)
        then (NULL, packet_cache_free w (ce_packet env))
        else
          let w1 := kmalloc_store w (ce_content env)
                                  (take (Z.to_nat content_size) cbytes) in
          let want_meta :=
            bool_decide (is_Some metadata) && bool_decide (metadata_size > 0) in
          if want_meta && bool_decide (ce_metadata env = NULL)
          then (NULL, packet_cache_free (kfree w1 (ce_content env)) (ce_packet env))
          else
            let w2 :=
              match metadata with
              | Some mbytes =>
                  if want_meta
                  then kmalloc_store w1 (ce_metadata env)
                                     (take (Z.to_nat metadata_size) mbytes)
                  else w1
              | None => w1
              end in
            let pkt :=
              mk_packet HINATA_PACKET_MAGIC HINATA_PACKET_VERSION
                        (ce_uuid env) type 0 0
                        total_size content_size metadata_size
                        (crc32 0 (take (Z.to_nat content_size) cbytes))
                        (ce_now env) (ce_now env)
                        (strncpy (HINATA_MAX_SOURCE_LENGTH - 1) src)
                        (copy_tags tags tag_count) tag_count
                        (ce_content env)
                        (if want_meta then ce_metadata env else NULL)
                        1 0 in
            let w3 := set_packets w2 (<[ce_packet env := pkt]> (packets w2)) in
            let '(_, w4) :=
              hinata_packet_add_to_hash w3 (ce_packet env) (ce_uuid env)
                                        (ce_node_ok env) (ce_jiffies env) in
            (ce_packet env,
             mk_world (kheap w4) (packets w4) (packet_hash_table w4) (kfree_log w4)
                      (packet_cache_free_log w4)
                      (wrap_s64 (packet_create_count w4 + 1))
                      (packet_validate_count w4) (packet_destroy_count w4)
                      (packet_hash_collisions w4)
                      (wrap_s64 (hinata_packet_count w4 + 1)))
  | _, _ => (NULL, w)
  end.

(** hinata_packet_get *)
Definition hinata_packet_get (w : packet_world) (p : ptr) : ptr * packet_world :=
  if decide (p = NULL) then (NULL, w)
  else
    (p, set_packets w
          (alter (fun pkt => set_ref_count pkt (wrap_s32 (pkt_ref_count pkt + 1)))
                 p (packets w))).

(** hinata_packet_destroy *)
Definition hinata_packet_destroy (w : packet_world) (p : ptr) : packet_world :=
  if decide (p = NULL) then w
  else
    match packets w !! p with
    | None => w
    | Some pkt =>
        let w1 := hinata_packet_remove_from_hash w (pkt_id pkt) in
        let w2 := kfree w1 (pkt_content pkt) in
        let w3 := kfree w2 (pkt_metadata pkt) in
        let w4 := packet_cache_free w3 p in
        mk_world (kheap w4) (packets w4) (packet_hash_table w4) (kfree_log w4)
                 (packet_cache_free_log w4)
                 (packet_create_count w4) (packet_validate_count w4)
                 (wrap_s64 (packet_destroy_count w4 + 1))
                 (packet_hash_collisions w4)
                 (wrap_s64 (hinata_packet_count w4 - 1))
    end.

(** hinata_packet_put: atomic_dec_and_test, then destroy on zero. *)
Definition hinata_packet_put (w : packet_world) (p : ptr) : packet_world :=
  if decide (p = NULL) then w
  else
    match packets w !! p with
    | None => w
    | Some pkt =>
        let rc := wrap_s32 (pkt_ref_count pkt - 1) in
        let w1 := set_packets w (<[p := set_ref_count pkt rc]> (packets w)) in
        if decide (rc = 0) then hinata_packet_destroy w1 p else w1
    end.

(** Sequences of reference operations on one packet. *)
Inductive ref_op := RefGet | RefPut.

Definition apply_ref (p : ptr) (w : packet_world) (op : ref_op) : packet_world :=
  match op with
  | RefGet => snd (hinata_packet_get w p)
  | RefPut => hinata_packet_put w p
  end.

Definition run_refs (w : packet_world) (p : ptr) (ops : list ref_op) : packet_world :=
  foldl (apply_ref p) w ops.

(** The initial create plus the gets, minus the puts. *)
Definition balance (ops : list ref_op) : Z :=
  foldl (fun b op => match op with RefGet => b + 1 | RefPut => b - 1 end) 1 ops.

(** The balance has been positive after every operation so far. *)
Definition always_positive (ops : list ref_op) : Prop :=
  forall k : nat, (k <= length ops)%nat -> 0 < balance (take k ops).

(** How often an address occurs in a log. *)
Definition times (log : list ptr) (p : ptr) : nat :=
  length (filter (fun q => q = p) log).

(** The packet struct at [p] has not been released since [w0]. *)
Definition still_valid (w0 w : packet_world) (p : ptr) : Prop :=
  times (packet_cache_free_log w) p = times (packet_cache_free_log w0) p.

(** The allocator hands out addresses that are not in use: no hash node
    refers to the new struct and the two buffers are distinct. *)
Definition env_fresh (w : packet_world) (env : create_env) : Prop :=
  (forall n, n ∈ packet_hash_table w -> node_packet n <> ce_packet env)
  /\ ce_content env <> ce_metadata env.

End Packet.

(* ===================================================================== *)
(** * Validation (core/hinata_validation.h, core/hinata_validation.c)     *)
(* ===================================================================== *)

Module Validation.
Import Packet.

(** Validation flags and levels (hinata_validation.h) *)
Definition HINATA_VALIDATE_BASIC : Z := 1.
Definition HINATA_VALIDATE_CONTENT : Z := 2.
Definition HINATA_VALIDATE_METADATA : Z := 4.
Definition HINATA_VALIDATE_SECURITY : Z := 8.
Definition HINATA_VALIDATE_INTEGRITY : Z := 16.
Definition HINATA_VALIDATE_FORCE_RECHECK : Z := 32.
Definition HINATA_VALIDATE_DEEP : Z := 64.
Definition HINATA_VALIDATE_STRICT : Z := 128.

Definition HINATA_VALIDATE_MINIMAL : Z := HINATA_VALIDATE_BASIC.
Definition HINATA_VALIDATE_STANDARD : Z :=
  Z.lor HINATA_VALIDATE_BASIC (Z.lor HINATA_VALIDATE_CONTENT HINATA_VALIDATE_INTEGRITY).
Definition HINATA_VALIDATE_COMPREHENSIVE : Z :=
  Z.lor HINATA_VALIDATE_BASIC
    (Z.lor HINATA_VALIDATE_CONTENT
       (Z.lor HINATA_VALIDATE_METADATA
          (Z.lor HINATA_VALIDATE_SECURITY HINATA_VALIDATE_INTEGRITY))).
Definition HINATA_VALIDATE_PARANOID : Z :=
  Z.lor HINATA_VALIDATE_COMPREHENSIVE
    (Z.lor HINATA_VALIDATE_DEEP
       (Z.lor HINATA_VALIDATE_STRICT HINATA_VALIDATE_FORCE_RECHECK)).

Definition HINATA_VALIDATION_SUCCESS : Z := 0.

(** flags & FLAG *)
Definition has_flag (flags flag : Z) : bool := bool_decide (Z.land flags flag <> 0).

(** Constants of hinata_validation.c; the size limits are those of
    hinata_types.h, which this file includes. *)
Definition HINATA_UUID_PATTERN_LENGTH : Z := 36.
Definition HINATA_VALIDATION_CACHE_SIZE : Z := 256.
Definition HINATA_MAX_CONTENT_SIZE : Z := 1024 * 1024.
Definition HINATA_MAX_METADATA_SIZE : Z := 64 * 1024.

(** HZ of hinata_compat.h; jiffies is an unsigned long. *)
Definition HZ : Z := 100.

(** time_before(a, b): (long)(a - b) < 0 *)
Definition time_before (a b : Z) : bool := bool_decide (wrap_s64 (a - b) < 0).

(** hinata_packet_is_valid_type, _priority and _status are declared in
    hinata_packet.h and defined nowhere in the sources: the validator is
    parametric in them. *)
Class PacketHelpers := {
  hinata_packet_is_valid_type : Z -> bool;
  hinata_packet_is_valid_priority : Z -> bool;
  hinata_packet_is_valid_status : Z -> bool
}.

(** Modelled from the spec: the three helpers missing from the sources,
    as range checks over the enumerations of hinata_packet.h (the spec
    lists type, priority and status among the BASIC checks). *)
Definition enum_helpers : PacketHelpers :=
  {| hinata_packet_is_valid_type t := bool_decide (0 <= t < HINATA_PACKET_TYPE_MAX);
     hinata_packet_is_valid_priority q := bool_decide (0 <= q <= HINATA_PRIORITY_CRITICAL);
     hinata_packet_is_valid_status st := bool_decide (0 <= st <= HINATA_STATUS_ARCHIVED) |}.

(** struct validation_cache_entry *)
Record validation_cache_entry := mk_vce {
  vce_id : string;
  vce_content_hash : Z;
  vce_is_valid : bool;
  vce_timestamp : Z
}.

(** A slot after memset(.., 0, ..) *)
Definition zero_entry : validation_cache_entry := mk_vce EmptyString 0 false 0.

(** The statics of hinata_validation.c *)
Record validation_state := mk_vstate {
  validation_cache : list validation_cache_entry;
  cache_index : Z;                  (* atomic_t *)
  validation_count : Z;
  validation_success_count : Z;
  validation_failure_count : Z;
  uuid_validation_count : Z;
  content_validation_count : Z;
  metadata_validation_count : Z
}.

(** hinata_validation_init *)
Definition hinata_validation_init : validation_state :=
  mk_vstate (replicate 256 zero_entry) 0 0 0 0 0 0 0.

Definition set_cache (st : validation_state) (c : list validation_cache_entry)
  : validation_state :=
  mk_vstate c (cache_index st) (validation_count st) (validation_success_count st)
            (validation_failure_count st) (uuid_validation_count st)
            (content_validation_count st) (metadata_validation_count st).

Definition inc_validation_count (st : validation_state) : validation_state :=
  mk_vstate (validation_cache st) (cache_index st)
            (wrap_s64 (validation_count st + 1)) (validation_success_count st)
            (validation_failure_count st) (uuid_validation_count st)
            (content_validation_count st) (metadata_validation_count st).

Definition inc_success (st : validation_state) : validation_state :=
  mk_vstate (validation_cache st) (cache_index st)
            (validation_count st) (wrap_s64 (validation_success_count st + 1))
            (validation_failure_count st) (uuid_validation_count st)
            (content_validation_count st) (metadata_validation_count st).

Definition inc_failure (st : validation_state) : validation_state :=
  mk_vstate (validation_cache st) (cache_index st)
            (validation_count st) (validation_success_count st)
            (wrap_s64 (validation_failure_count st + 1)) (uuid_validation_count st)
            (content_validation_count st) (metadata_validation_count st).

Definition inc_uuid_count (st : validation_state) : validation_state :=
  mk_vstate (validation_cache st) (cache_index st)
            (validation_count st) (validation_success_count st)
            (validation_failure_count st) (wrap_s64 (uuid_validation_count st + 1))
            (content_validation_count st) (metadata_validation_count st).

Definition inc_content_count (st : validation_state) : validation_state :=
  mk_vstate (validation_cache st) (cache_index st)
            (validation_count st) (validation_success_count st)
            (validation_failure_count st) (uuid_validation_count st)
            (wrap_s64 (content_validation_count st + 1)) (metadata_validation_count st).

Definition inc_metadata_count (st : validation_state) : validation_state :=
  mk_vstate (validation_cache st) (cache_index st)
            (validation_count st) (validation_success_count st)
            (validation_failure_count st) (uuid_validation_count st)
            (content_validation_count st) (wrap_s64 (metadata_validation_count st + 1)).

(** The bytes a buffer pointer leads to. *)
Definition deref (kh : gmap Z (list Z)) (p : ptr) : list Z := default [] (kh !! p).

(** hinata_is_printable_string: at most [max_len] characters, stopping
    at a NUL. *)
Fixpoint hinata_is_printable_string (str : list Z) (max_len : nat) : bool :=
  match max_len, str with
  | O, _ => true
  | _, [] => true
  | S n, c :: rest =>
      if decide (c = 0) then true
      else if isprint c || isspace c then hinata_is_printable_string rest n
      else false
  end.

(** hinata_validate_uuid_format: 36 characters, hyphens at 8, 13, 18, 23,
    hexadecimal digits elsewhere. *)
Definition uuid_char_ok (i : nat) (c : Z) : bool :=
  if bool_decide (i = 8 \/ i = 13 \/ i = 18 \/ i = 23)%nat
  then bool_decide (c = 45) else isxdigit c.

Definition hinata_validate_uuid_format (uuid : string) : bool :=
  bool_decide (strlen uuid = HINATA_UUID_PATTERN_LENGTH)
  && forallb (fun ic => uuid_char_ok (fst ic) (snd ic))
             (imap (fun i c => (i, c)) (bytes_of_string uuid)).

(** hinata_validate_uuid *)
Definition hinata_validate_uuid (st : validation_state) (uuid : string)
  : bool * validation_state :=
  (hinata_validate_uuid_format uuid, inc_uuid_count st).

(** hinata_validate_content_integrity *)
Definition hinata_validate_content_integrity (content : ptr) (bytes : list Z)
    (size expected_hash : Z) : bool :=
  if decide (content = NULL \/ size = 0) then false
  else bool_decide (crc32 0 (take (Z.to_nat size) bytes) = expected_hash).

(** hinata_validate_metadata_format *)
Definition hinata_validate_metadata_format (metadata : ptr) (bytes : list Z) (size : Z)
  : bool :=
  if decide (metadata = NULL \/ size = 0) then false
  else forallb (fun c => isprint c || isspace c) (take (Z.to_nat size) bytes).

(** hinata_validate_tags_format *)
Definition tag_char_ok (c : Z) : bool :=
  isalnum c || bool_decide (c = 95) || bool_decide (c = 45).

Definition tag_ok (tag : string) : bool :=
  negb (bool_decide (strlen tag = 0 \/ strlen tag >= HINATA_MAX_TAG_LENGTH))
  && forallb tag_char_ok (bytes_of_string tag).

Definition hinata_validate_tags_format (tags : list string) (count : Z) : bool :=
  if decide (count > HINATA_MAX_TAGS) then false
  else forallb (fun i : nat => tag_ok (default EmptyString (tags !! i)))
               (seq 0 (Z.to_nat count)).

(** hinata_validate_source_format *)
Definition hinata_validate_source_format (source : string) : bool :=
  if decide (strlen source = 0 \/ strlen source >= HINATA_MAX_SOURCE_LENGTH) then false
  else hinata_is_printable_string (bytes_of_string source) (String.length source).

(** hinata_validate_timestamps; [current_ns] is the wall clock. *)
Definition hinata_validate_timestamps (created_at updated_at current_ns : Z) : bool :=
  if decide (created_at = 0 \/ updated_at = 0) then false
  else if decide (updated_at < created_at) then false
  else if decide (created_at > current_ns \/ updated_at > current_ns) then false
  else true.

Section WithHelpers.
Context {helpers : PacketHelpers}.

(** hinata_validate_packet_structure *)
Definition hinata_validate_packet_structure (p : hinata_packet) (current_ns : Z) : Z :=
  if decide (pkt_magic p <> HINATA_PACKET_MAGIC) then - EINVAL
  else if decide (pkt_version p <> HINATA_PACKET_VERSION) then - EINVAL
  else if negb (hinata_validate_uuid_format (pkt_id p)) then - EINVAL
  else if negb (hinata_packet_is_valid_type (pkt_type p)) then - EINVAL
  else if negb (hinata_packet_is_valid_priority (pkt_priority p)) then - EINVAL
  else if negb (hinata_packet_is_valid_status (pkt_status p)) then - EINVAL
  else if decide (pkt_content_size p = 0 \/ pkt_content_size p > HINATA_MAX_CONTENT_SIZE)
  then - EINVAL
  else if decide (pkt_metadata_size p > HINATA_MAX_METADATA_SIZE) then - EINVAL
  else if decide (pkt_content p = NULL) then - EINVAL
  else if decide (pkt_metadata_size p > 0 /\ pkt_metadata p = NULL) then - EINVAL
  else if negb (hinata_validate_source_format (pkt_source p)) then - EINVAL
  else if negb (hinata_validate_timestamps (pkt_created_at p) (pkt_updated_at p) current_ns)
  then - EINVAL
  else if negb (hinata_validate_tags_format (pkt_tags p) (pkt_tag_count p)) then - EINVAL
  else if decide (pkt_ref_count p <= 0) then - EINVAL
  else 0.

(** The type-specific part of hinata_validate_packet_content *)
Definition content_type_check (p : hinata_packet) (bytes : list Z) : Z :=
  let t := pkt_type p in
  if decide (t = HINATA_PACKET_TEXT \/ t = HINATA_PACKET_MARKDOWN \/ t = HINATA_PACKET_CODE)
  then
    if hinata_is_printable_string bytes (Z.to_nat (pkt_content_size p)) then 0 else - EINVAL
  else if decide (t = HINATA_PACKET_LINK) then
    if decide (pkt_content_size p > 2048) then - EINVAL else 0
  else if decide (t = HINATA_PACKET_DATA \/ t = HINATA_PACKET_IMAGE \/ t = HINATA_PACKET_AUDIO
                  \/ t = HINATA_PACKET_VIDEO \/ t = HINATA_PACKET_DOCUMENT
                  \/ t = HINATA_PACKET_ARCHIVE) then
    if decide (pkt_content_size p > HINATA_MAX_CONTENT_SIZE) then - EINVAL else 0
  else 0.

(** hinata_validate_packet_content *)
Definition hinata_validate_packet_content (st : validation_state)
    (kh : gmap Z (list Z)) (p : hinata_packet) : Z * validation_state :=
  if decide (pkt_content p = NULL) then (- EINVAL, st)
  else
    let st' := inc_content_count st in
    let bytes := deref kh (pkt_content p) in
    if negb (hinata_validate_content_integrity (pkt_content p) bytes
               (pkt_content_size p) (pkt_content_hash p))
    then (- EINVAL, st')
    else (content_type_check p bytes, st').

(** hinata_validate_packet_metadata *)
Definition hinata_validate_packet_metadata (st : validation_state)
    (kh : gmap Z (list Z)) (p : hinata_packet) : Z * validation_state :=
  if decide (pkt_metadata_size p = 0) then (0, st)
  else if decide (pkt_metadata p = NULL) then (- EINVAL, st)
  else
    let st' := inc_metadata_count st in
    if hinata_validate_metadata_format (pkt_metadata p) (deref kh (pkt_metadata p))
                                       (pkt_metadata_size p)
    then (0, st') else (- EINVAL, st').

(** hinata_validate_packet_security.  The scan for NUL bytes runs over
    the first content_size - 1 bytes (a size_t difference). *)
Definition hinata_validate_packet_security (kh : gmap Z (list Z)) (p : hinata_packet) : Z :=
  let t := pkt_type p in
  let bytes := deref kh (pkt_content p) in
  if bool_decide (t = HINATA_PACKET_TEXT \/ t = HINATA_PACKET_CODE)
     && existsb (fun c => bool_decide (c = 0))
                (take (Z.to_nat (wrap_u64 (pkt_content_size p - 1))) bytes)
  then - EINVAL
  else if strstr (bytes_of_string (pkt_source p)) (bytes_of_string "..")
          || strstr (bytes_of_string (pkt_source p)) (bytes_of_string "/")
  then - EINVAL
  else if existsb (fun i : nat =>
                     bool_decide (strlen (default EmptyString (pkt_tags p !! i))
                                  >= HINATA_MAX_TAG_LENGTH))
                  (seq 0 (Z.to_nat (pkt_tag_count p)))
  then - EINVAL
  else 0.

(** hinata_validate_packet_integrity *)
Definition hinata_validate_packet_integrity (kh : gmap Z (list Z)) (p : hinata_packet) : Z :=
  if decide (pkt_content p = NULL) then - EINVAL
  else if decide (crc32 0 (take (Z.to_nat (pkt_content_size p)) (deref kh (pkt_content p)))
                  <> pkt_content_hash p) then - EINVAL
  else
    let expected_size :=
      wrap_u64 (SIZEOF_PACKET + pkt_content_size p
                + (if decide (pkt_metadata_size p > 0) then pkt_metadata_size p else 0)) in
    if decide (pkt_size p <> expected_size) then - EINVAL else 0.

(** Does a cache slot hold this key? *)
Definition slot_matches (e : validation_cache_entry) (id : string) (content_hash : Z) : bool :=
  bool_decide (vce_id e = id) && bool_decide (vce_content_hash e = content_hash).

(** The 5-minute window of a slot, seen at [jiffies]. *)
Definition slot_fresh (e : validation_cache_entry) (jiffies : Z) : bool :=
  time_before jiffies (wrap_u64 (vce_timestamp e + 5 * 60 * HZ)).

(** hinata_validation_cache_lookup: 1 valid, 0 invalid, -1 not found.
    The first slot holding the key decides: within its window it answers,
    past it the slot is zeroed and the scan stops. *)
Fixpoint hinata_validation_cache_lookup (cache : list validation_cache_entry)
    (id : string) (content_hash : Z) (jiffies : Z)
  : Z * list validation_cache_entry :=
  match cache with
  | [] => (-1, [])
  | e :: rest =>
      if slot_matches e id content_hash then
        if slot_fresh e jiffies
        then ((if vce_is_valid e then 1 else 0), e :: rest)
        else (-1, zero_entry :: rest)
      else
        let '(r, rest') := hinata_validation_cache_lookup rest id content_hash jiffies in
        (r, e :: rest')
  end.

(** hinata_validation_cache_add.  The slot is the incremented counter
    modulo the table size (C remainder); a negative remainder would write
    before the table and is left out. *)
Definition hinata_validation_cache_add (st : validation_state)
    (id : string) (content_hash : Z) (is_valid : bool) (jiffies : Z)
  : validation_state :=
  let ci := wrap_s32 (cache_index st + 1) in
  let index := Z.rem ci HINATA_VALIDATION_CACHE_SIZE in
  let e := mk_vce (strncpy (HINATA_UUID_LENGTH - 1) id) content_hash is_valid jiffies in
  mk_vstate (if decide (0 <= index)
             then <[Z.to_nat index := e]> (validation_cache st)
             else validation_cache st)
            ci (validation_count st) (validation_success_count st)
            (validation_failure_count st) (uuid_validation_count st)
            (content_validation_count st) (metadata_validation_count st).

(** The staged checks of hinata_validate_packet_full after the cache:
    structure always, then content, metadata, security, integrity as the
    flags ask, stopping at the first failure. *)
Definition run_checks (st : validation_state) (kh : gmap Z (list Z))
    (current_ns : Z) (p : hinata_packet) (flags : Z) : Z * validation_state :=
  let r0 := hinata_validate_packet_structure p current_ns in
  if decide (r0 < 0) then (r0, st)
  else
    let '(r1, st1) :=
      if has_flag flags HINATA_VALIDATE_CONTENT
      then hinata_validate_packet_content st kh p else (0, st) in
    if decide (r1 < 0) then (r1, st1)
    else
      let '(r2, st2) :=
        if has_flag flags HINATA_VALIDATE_METADATA && bool_decide (pkt_metadata p <> NULL)
        then hinata_validate_packet_metadata st1 kh p else (0, st1) in
      if decide (r2 < 0) then (r2, st2)
      else
        let r3 := if has_flag flags HINATA_VALIDATE_SECURITY
                  then hinata_validate_packet_security kh p else 0 in
        if decide (r3 < 0) then (r3, st2)
        else
          let r4 := if has_flag flags HINATA_VALIDATE_INTEGRITY
                    then hinata_validate_packet_integrity kh p else 0 in
          (r4, st2).

(** hinata_validate_packet_full.  [packet] is None for a NULL pointer. *)
Definition hinata_validate_packet_full (st : validation_state) (kh : gmap Z (list Z))
    (current_ns jiffies : Z) (packet : option hinata_packet) (flags : Z)
  : Z * validation_state :=
  match packet with
  | None => (- EINVAL, inc_failure st)
  | Some p =>
      let st0 := inc_validation_count st in
      let '(hit, cache') :=
        if has_flag flags HINATA_VALIDATE_FORCE_RECHECK then (-1, validation_cache st0)
        else hinata_validation_cache_lookup (validation_cache st0)
                                            (pkt_id p) (pkt_content_hash p) jiffies in
      let st1 := set_cache st0 cache' in
      if negb (has_flag flags HINATA_VALIDATE_FORCE_RECHECK) && bool_decide (hit > 0)
      then (0, inc_success st1)
      else if negb (has_flag flags HINATA_VALIDATE_FORCE_RECHECK) && bool_decide (hit = 0)
      then (- EINVAL, inc_failure st1)
      else
        let '(r, st2) := run_checks st1 kh current_ns p flags in
        if decide (r < 0)
        then (r, inc_failure
                   (hinata_validation_cache_add st2 (pkt_id p) (pkt_content_hash p)
                                                false jiffies))
        else (0, inc_success
                   (hinata_validation_cache_add st2 (pkt_id p) (pkt_content_hash p)
                                                true jiffies))
  end.

(** Was a call without FORCE_RECHECK answered by the cache?  That is the
    case exactly when the lookup it starts with returns 0 or 1. *)
Definition answered_from_cache (st : validation_state) (jiffies : Z) (p : hinata_packet)
  : bool :=
  bool_decide (0 <= fst (hinata_validation_cache_lookup (validation_cache st)
                           (pkt_id p) (pkt_content_hash p) jiffies)).

End WithHelpers.

(** A packet struct of all-zero bytes. *)
Definition zero_packet : hinata_packet :=
  mk_packet 0 0 EmptyString 0 0 0 0 0 0 0 0 0 EmptyString (replicate 16 EmptyString)
            0 NULL NULL 0 0.

(** hinata_validate_content_hash *)
Definition hinata_validate_content_hash (content : ptr) (bytes : list Z)
    (size expected_hash : Z) : bool :=
  if decide (content = NULL \/ size = 0) then false
  else hinata_validate_content_integrity content bytes size expected_hash.

(** struct hinata_validation_stats, the fields
    hinata_get_validation_statistics fills (u64, success_rate u32). *)
Record hinata_validation_stats := mk_vstats {
  total_validations : Z;
  successful_validations : Z;
  failed_validations : Z;
  uuid_validations : Z;
  content_validations : Z;
  metadata_validations : Z;
  success_rate : Z
}.

(** hinata_get_validation_statistics on a non-NULL [stats] *)
Definition hinata_get_validation_statistics (st : validation_state)
  : Z * hinata_validation_stats :=
  let total := wrap_u64 (validation_count st) in
  let successful := wrap_u64 (validation_success_count st) in
  (0, mk_vstats total successful
                (wrap_u64 (validation_failure_count st))
                (wrap_u64 (uuid_validation_count st))
                (wrap_u64 (content_validation_count st))
                (wrap_u64 (metadata_validation_count st))
                (if decide (total > 0)
                 then wrap_u32 (wrap_u64 (successful * 100) / total)
                 else 0)).

(** One call of hinata_validate_packet_full with what it reads from its
    surroundings. *)
Record validate_call := mk_vcall {
  vc_kheap : gmap Z (list Z);
  vc_now_ns : Z;
  vc_jiffies : Z;
  vc_packet : option hinata_packet;
  vc_flags : Z
}.

Section Calls.
Context {helpers : PacketHelpers}.

Definition apply_validate_call (st : validation_state) (c : validate_call)
  : validation_state :=
  snd (hinata_validate_packet_full st (vc_kheap c) (vc_now_ns c) (vc_jiffies c)
                                   (vc_packet c) (vc_flags c)).

Definition run_validations (st : validation_state) (calls : list validate_call)
  : validation_state :=
  foldl apply_validate_call st calls.

End Calls.

End Validation.

(* ===================================================================== *)
(** * Packet validation and cloning (core/hinata_packet.c, second part)   *)
(* ===================================================================== *)

Module PacketClone.
Import Packet Validation.

(** hinata_packet_validate_internal, with the limits of hinata_packet.c.
    hinata_validate_uuid is the exported function of hinata_validation.c
    and counts the call. *)
Definition hinata_packet_validate_internal (vst : validation_state)
    (kh : gmap Z (list Z)) (p : hinata_packet) : Z * validation_state :=
  if decide (pkt_magic p <> HINATA_PACKET_MAGIC) then (- EINVAL, vst)
  else if decide (pkt_version p <> HINATA_PACKET_VERSION) then (- EINVAL, vst)
  else if decide (pkt_type p >= HINATA_PACKET_TYPE_MAX) then (- EINVAL, vst)
  else
    let '(uuid_ok, vst') := hinata_validate_uuid vst (pkt_id p) in
    if negb uuid_ok then (- EINVAL, vst')
    else if decide (pkt_content p = NULL \/ pkt_content_size p = 0) then (- EINVAL, vst')
    else if decide (pkt_content_size p > Packet.HINATA_MAX_CONTENT_SIZE) then (- EINVAL, vst')
    else if decide (pkt_metadata_size p > 0 /\ pkt_metadata p = NULL) then (- EINVAL, vst')
    else if decide (pkt_metadata_size p > Packet.HINATA_MAX_METADATA_SIZE)
    then (- EINVAL, vst')
    else if decide (strlen (pkt_source p) = 0) then (- EINVAL, vst')
    else if decide (pkt_tag_count p > HINATA_MAX_TAGS) then (- EINVAL, vst')
    else if decide (crc32 0 (take (Z.to_nat (pkt_content_size p))
                                  (deref kh (pkt_content p)))
                    <> pkt_content_hash p) then (- EINVAL, vst')
    else if decide (pkt_created_at p = 0 \/ pkt_updated_at p = 0) then (- EINVAL, vst')
    else if decide (pkt_updated_at p < pkt_created_at p) then (- EINVAL, vst')
    else (0, vst').

(** hinata_packet_validate *)
Definition hinata_packet_validate (w : packet_world) (vst : validation_state)
    (packet : option hinata_packet) : Z * packet_world * validation_state :=
  match packet with
  | None => (- EINVAL, w, vst)
  | Some p =>
      let '(r, vst') := hinata_packet_validate_internal vst (kheap w) p in
      (r,
       mk_world (kheap w) (packets w) (packet_hash_table w) (kfree_log w)
                (packet_cache_free_log w) (packet_create_count w)
                (wrap_s64 (packet_validate_count w + 1)) (packet_destroy_count w)
                (packet_hash_collisions w) (hinata_packet_count w),
       vst')
  end.

(** hinata_packet_clone: validate the original, then create a packet
    from its content, metadata, source and tags. *)
Definition hinata_packet_clone (w : packet_world) (vst : validation_state)
    (original : option hinata_packet) (env : create_env)
  : ptr * packet_world * validation_state :=
  match original with
  | None => (NULL, w, vst)
  | Some o =>
      let '(r, w1, vst1) := hinata_packet_validate w vst (Some o) in
      if decide (r < 0) then (NULL, w1, vst1)
      else
        let buffer (q : ptr) : option (list Z) :=
          if decide (q = NULL) then None else Some (deref (kheap w1) q) in
        let tags := map Some (take (Z.to_nat (pkt_tag_count o)) (pkt_tags o)) in
        let '(c, w2) :=
          hinata_packet_create w1 (pkt_type o)
                               (buffer (pkt_content o)) (pkt_content_size o)
                               (buffer (pkt_metadata o)) (pkt_metadata_size o)
                               (Some (pkt_source o)) (Some tags) (pkt_tag_count o) env in
        (c, w2, vst1)
  end.

(** node->last_access = jiffies on the node hinata_packet_find_node
    returns. *)
Fixpoint touch_node (ps : gmap Z hinata_packet) (nodes : list hinata_packet_node)
    (id : string) (jiffies : Z) : list hinata_packet_node :=
  match nodes with
  | [] => []
  | n :: rest =>
      if decide (node_id ps n = Some id)
      then mk_node (node_packet n) (node_ref_count n) (node_created_time n) jiffies :: rest
      else n :: touch_node ps rest id jiffies
  end.

(** hinata_packet_find.  [id] is None for a NULL pointer. *)
Definition hinata_packet_find (w : packet_world) (vst : validation_state)
    (id : option string) (jiffies : Z) : ptr * packet_world * validation_state :=
  match id with
  | None => (NULL, w, vst)
  | Some id =>
      let '(uuid_ok, vst') := hinata_validate_uuid vst id in
      if negb uuid_ok then (NULL, w, vst')
      else
        match hinata_packet_find_node (packets w) (packet_hash_table w) id with
        | Some node =>
            let '(p, w1) := hinata_packet_get w (node_packet node) in
            (p,
             set_hash_table w1 (touch_node (packets w) (packet_hash_table w) id jiffies),
             vst')
        | None => (NULL, w, vst')
        end
  end.

(** struct hinata_packet_stats, the fields hinata_packet_get_statistics
    fills (all u64). *)
Record hinata_packet_stats := mk_pstats {
  created_count : Z;
  validated_count : Z;
  destroyed_count : Z;
  hash_collisions : Z;
  active_count : Z
}.

(** hinata_packet_get_statistics on a non-NULL [stats] *)
Definition hinata_packet_get_statistics (w : packet_world) : Z * hinata_packet_stats :=
  let created := wrap_u64 (packet_create_count w) in
  let destroyed := wrap_u64 (packet_destroy_count w) in
  (0, mk_pstats created (wrap_u64 (packet_validate_count w)) destroyed
                (wrap_u64 (packet_hash_collisions w))
                (wrap_u64 (created - destroyed))).

End PacketClone.

(* ===================================================================== *)
(** * Storage regions and cache (storage/hinata_storage.c)                *)
(* ===================================================================== *)

Module Storage.
Import Packet Validation PacketClone.

Definition HINATA_STORAGE_MAGIC : Z := 1212763713.
Definition HINATA_STORAGE_BLOCK_SIZE : Z := 4096.
Definition HINATA_STORAGE_MAX_REGIONS : Z := 64.
Definition HINATA_STORAGE_CACHE_SIZE : Z := 1024.
Definition HINATA_STORAGE_FLAG_DIRTY : Z := 1.
Definition HINATA_STORAGE_FLAG_CACHED : Z := 2.
Definition HINATA_STORAGE_TYPE_PACKET : Z := 1.
Definition HINATA_CACHE_DEFAULT_TTL : Z := 60 * 1000000000.
Definition EALREADY : Z := 114.
Definition ENOSPC : Z := 28.

(** sizeof(struct hinata_storage_header) (packed) and
    sizeof(struct hinata_storage_cache_entry) (LP64). *)
Definition SIZEOF_HEADER : Z := 124.
Definition SIZEOF_CACHE_ENTRY : Z := 120.

(** The in-memory representation of the structs that are copied as raw
    bytes: the memcpy of the whole struct on the way in, a cast of
    the cached bytes to struct hinata_packet on the way out, and the
    region header.  The byte layout belongs to the ABI; the development is
    parametric in it. *)
Class Layout := {
  packet_bytes : hinata_packet -> list Z;
  packet_of_bytes : list Z -> hinata_packet;
  header_bytes : Z -> Z -> list Z     (* total_blocks, created_time *)
}.

(** struct hinata_storage_block *)
Record hinata_storage_block := mk_sblock {
  sb_id : Z;
  sb_type : Z;
  sb_size : Z;
  sb_flags : Z;
  sb_checksum : Z;
  sb_offset : Z;
  sb_ref_count : Z;
  sb_access_time : Z;
  sb_modify_time : Z
}.

(** The counters of struct hinata_storage_stats the code moves. *)
Record hinata_storage_stats := mk_sstats {
  packets_stored : Z;
  packets_deleted : Z;
  bytes_written : Z;
  cache_hits : Z;
  cache_misses : Z
}.

Definition zero_stats : hinata_storage_stats := mk_sstats 0 0 0 0 0.

(** struct hinata_storage_cache_entry.  [centry_addr] is the address of
    the entry itself, [centry_data] the address of its copy of the data;
    both come from hinata_malloc. *)
Record hinata_storage_cache_entry := mk_centry {
  centry_addr : ptr;
  centry_key : string;
  centry_data : ptr;
  centry_size : Z;
  centry_flags : Z;
  centry_access_count : Z;
  centry_last_access : Z;
  centry_expiry_time : Z;
  centry_ref_count : Z
}.

(** struct hinata_storage_region.  [region_file] is None for a NULL file
    pointer and otherwise the bytes of the open file. *)
Record hinata_storage_region := mk_region {
  region_id : Z;
  region_name : string;
  region_path : string;
  region_type : Z;
  region_flags : Z;
  region_size : Z;
  used_size : Z;
  block_count : Z;
  region_file : option (list Z);
  free_list : list hinata_storage_block;
  block_tree : list hinata_storage_block;
  region_stats : hinata_storage_stats
}.

(** struct hinata_storage_context and the static [storage_initialized].
    [cache] lists the entries of all hash chains, newest first: every
    operation looks for the first entry of one key, and the entries of one
    key share a chain, to whose head hlist_add_head adds.  [cache_lru]
    lists the entry addresses, most recently used first. *)
Record hinata_storage_context := mk_sctx {
  storage_initialized : bool;
  regions : list hinata_storage_region;
  region_count : Z;
  cache : list hinata_storage_cache_entry;
  cache_size : Z;                   (* atomic_t *)
  cache_lru : list ptr;
  stats : hinata_storage_stats
}.

(** Everything the storage layer reaches: the packet subsystem, the
    validator, the memory manager and its own context. *)
Record system := mk_system {
  sys_packets : packet_world;
  sys_validation : validation_state;
  sys_memory : Memory.hinata_memory_context;
  sys_storage : hinata_storage_context
}.

Definition zero_region (i : Z) : hinata_storage_region :=
  mk_region i EmptyString EmptyString 0 0 0 0 0 None [] [] zero_stats.

(** The context hinata_storage_init leaves behind. *)
Definition initial_storage : hinata_storage_context :=
  mk_sctx true (map (fun i : nat => zero_region (Z.of_nat i)) (seq 0 64)) 0 [] 0 []
          zero_stats.

(** hinata_storage_init *)
Definition hinata_storage_init (c : hinata_storage_context) : Z * hinata_storage_context :=
  if storage_initialized c then (- EALREADY, c) else (0, initial_storage).

Definition set_regions (c : hinata_storage_context) (rs : list hinata_storage_region)
  : hinata_storage_context :=
  mk_sctx (storage_initialized c) rs (region_count c) (cache c) (cache_size c)
          (cache_lru c) (stats c).

Definition set_stats (c : hinata_storage_context) (s : hinata_storage_stats)
  : hinata_storage_context :=
  mk_sctx (storage_initialized c) (regions c) (region_count c) (cache c) (cache_size c)
          (cache_lru c) s.

Definition set_cache_lists (c : hinata_storage_context)
    (es : list hinata_storage_cache_entry) (n : Z) (lru : list ptr)
  : hinata_storage_context :=
  mk_sctx (storage_initialized c) (regions c) (region_count c) es n lru (stats c).

(** kernel_write(file, data, n, &pos) delivering [written] bytes: the
    file holds the first [written] bytes of the data at [pos]. *)
Definition write_at (file : list Z) (pos : Z) (data : list Z) : list Z :=
  resize (Z.to_nat pos) 0 file ++ data
  ++ drop (Z.to_nat pos + length data) file.

Definition kernel_write (file : list Z) (data : list Z) (pos written : Z) : list Z :=
  if decide (written <= 0) then file
  else write_at file pos (take (Z.to_nat written) data).

(** The files behind the regions.  hinata_storage_region_init opens
    region->path with O_RDWR | O_CREAT, without O_TRUNC and without O_EXCL:
    the file keeps the bytes it has, and a path that an open region already
    holds names the file of that region.  [existing] is what the file
    system holds at a path that no open region holds (empty when O_CREAT
    creates the file); it is an answer of the environment, as the paths are
    taken as the names of the files. *)
Definition set_region_file (r : hinata_storage_region) (f : option (list Z))
  : hinata_storage_region :=
  mk_region (region_id r) (region_name r) (region_path r) (region_type r)
            (region_flags r) (region_size r) (used_size r) (block_count r)
            f (free_list r) (block_tree r) (region_stats r).

Fixpoint file_at (rs : list hinata_storage_region) (path : string) (existing : list Z)
  : list Z :=
  match rs with
  | [] => existing
  | r :: rest =>
      match region_file r with
      | Some f => if decide (region_path r = path) then f else file_at rest path existing
      | None => file_at rest path existing
      end
  end.

(** A kernel_write to the file of [path] is seen through every open
    region on that path. *)
Definition write_through (rs : list hinata_storage_region) (path : string)
    (data : list Z) (pos written : Z) : list hinata_storage_region :=
  map (fun r => match region_file r with
                | Some f =>
                    if decide (region_path r = path)
                    then set_region_file r (Some (kernel_write f data pos written))
                    else r
                | None => r
                end) rs.

Section WithLayout.
Context {helpers : PacketHelpers} {layout : Layout}.

(** The first region slot without a file. *)
Fixpoint find_free_slot (rs : list hinata_storage_region) (i : Z) : Z :=
  match rs with
  | [] => i
  | r :: rest => if decide (region_file r = None) then i else find_free_slot rest (i + 1)
  end.

(** hinata_storage_create_region with hinata_storage_region_init.
    [existing] holds the bytes of the file at the path when filp_open
    opens it (see [file_at]), [open_err] is 0 when filp_open succeeds and
    the errno otherwise, [written] the result of writing the header, [now]
    the timestamp.  The name and path are non-NULL strings.  The header
    is written at offset 0 of the file, whatever it holds, also when the
    write comes out short and the region is given up. *)
Definition hinata_storage_create_region (c : hinata_storage_context)
    (name path : string) (type size : Z) (existing : list Z) (open_err written now : Z)
  : Z * hinata_storage_context :=
  if negb (storage_initialized c) then (- ENODEV, c)
  else if decide (size = 0) then (- EINVAL, c)
  else
    let rid := find_free_slot (regions c) 0 in
    if decide (rid >= HINATA_STORAGE_MAX_REGIONS) then (- ENOSPC, c)
    else
      let named (r : hinata_storage_region) (f : option (list Z)) (used : Z) :=
        mk_region (region_id r) (strncpy 63 name) (strncpy 255 path) type 0 size
                  used (block_count r) f (free_list r) (block_tree r) (region_stats r) in
      if decide (open_err <> 0) then
        (- open_err,
         set_regions c (alter (fun r => named r None (used_size r)) (Z.to_nat rid) (regions c)))
      else
        let header := header_bytes (size / HINATA_STORAGE_BLOCK_SIZE) now in
        let file := file_at (regions c) (strncpy 255 path) existing in
        let others := write_through (regions c) (strncpy 255 path) header 0 written in
        if decide (written <> SIZEOF_HEADER) then
          (- EIO,
           set_regions c (alter (fun r => named r None (used_size r))
                                (Z.to_nat rid) others))
        else
          (rid,
           mk_sctx (storage_initialized c)
                   (alter (fun r => named r (Some (kernel_write file header 0 written))
                                          SIZEOF_HEADER)
                          (Z.to_nat rid) others)
                   (wrap_u32 (region_count c + 1))
                   (cache c) (cache_size c) (cache_lru c) (stats c)).

(** hinata_storage_cache_get: the first entry of the key, if any, gets
    its access count and reference count bumped and moves to the front of
    the LRU list; its data pointer and size are returned. *)
Fixpoint cache_get_scan (es : list hinata_storage_cache_entry) (key : string) (now : Z)
  : option hinata_storage_cache_entry * list hinata_storage_cache_entry :=
  match es with
  | [] => (None, [])
  | e :: rest =>
      if decide (centry_key e = key) then
        let e' := mk_centry (centry_addr e) (centry_key e) (centry_data e) (centry_size e)
                            (centry_flags e) (wrap_s32 (centry_access_count e + 1))
                            now (centry_expiry_time e)
                            (wrap_s32 (centry_ref_count e + 1)) in
        (Some e', e' :: rest)
      else
        let '(r, rest') := cache_get_scan rest key now in
        (r, e :: rest')
  end.

Definition hinata_storage_cache_get (c : hinata_storage_context) (key : string) (now : Z)
  : option (ptr * Z) * hinata_storage_context :=
  match cache_get_scan (cache c) key now with
  | (Some e, es) =>
      (Some (centry_data e, centry_size e),
       set_cache_lists c es (cache_size c)
                       (centry_addr e :: filter (fun a => a <> centry_addr e) (cache_lru c)))
  | (None, _) => (None, c)
  end.

(** The key field of a new entry.  strncpy fills 36 of the 37 bytes and
    hinata_malloc does not clear the buffer: a key of 36 characters is
    followed by whatever byte 36 held, [tail] being the characters read
    from there up to the next NUL. *)
Definition stored_key (key : string) (garbage : list Z) (tail : string) : string :=
  if decide (strlen key < 36) then key
  else if decide (default 0 (garbage !! 36%nat) = 0) then strncpy 36 key
  else String.append (strncpy 36 key) tail.

(** hinata_storage_cache_put.  [data] are the bytes at the data pointer
    (non-NULL), the two environments answer the two hinata_malloc calls. *)
Definition hinata_storage_cache_put (c : hinata_storage_context)
    (m : Memory.hinata_memory_context) (key : string) (data : list Z) (size : Z)
    (entry_env copy_env : Memory.alloc_env) (tail : string) (now : Z)
  : Z * hinata_storage_context * Memory.hinata_memory_context :=
  if decide (size = 0) then (- EINVAL, c, m)
  else
    let '(entry, m1) := Memory.hinata_malloc m SIZEOF_CACHE_ENTRY entry_env in
    if decide (entry = NULL) then (- ENOMEM, c, m1)
    else
      let '(data_copy, m2) := Memory.hinata_malloc m1 size copy_env in
      if decide (data_copy = NULL)
      then (- ENOMEM, c, Memory.hinata_free m2 entry now)
      else
        let m3 := Memory.set_heap m2 (<[data_copy := take (Z.to_nat size) data]>
                                        (Memory.heap m2)) in
        let e := mk_centry entry
                           (stored_key key (Memory.env_garbage entry_env) tail)
                           data_copy size HINATA_STORAGE_FLAG_CACHED 1 now
                           (wrap_u64 (now + HINATA_CACHE_DEFAULT_TTL)) 1 in
        (0, set_cache_lists c (e :: cache c) (wrap_s32 (cache_size c + 1))
                            (entry :: cache_lru c), m3).

(** hinata_storage_cache_remove *)
Fixpoint cache_remove_scan (es : list hinata_storage_cache_entry) (key : string)
  : option hinata_storage_cache_entry * list hinata_storage_cache_entry :=
  match es with
  | [] => (None, [])
  | e :: rest =>
      if decide (centry_key e = key) then (Some e, rest)
      else
        let '(r, rest') := cache_remove_scan rest key in
        (r, e :: rest')
  end.

Definition hinata_storage_cache_remove (c : hinata_storage_context)
    (m : Memory.hinata_memory_context) (key : string) (now : Z)
  : Z * hinata_storage_context * Memory.hinata_memory_context :=
  match cache_remove_scan (cache c) key with
  | (Some e, es) =>
      (0,
       set_cache_lists c es (wrap_s32 (cache_size c - 1))
                       (filter (fun a => a <> centry_addr e) (cache_lru c)),
       Memory.hinata_free (Memory.hinata_free m (centry_data e) now) (centry_addr e) now)
  | (None, _) => (- ENOENT, c, m)
  end.

(** hinata_storage_cache_put_ref *)
Fixpoint cache_put_ref_scan (es : list hinata_storage_cache_entry) (key : string)
  : list hinata_storage_cache_entry :=
  match es with
  | [] => []
  | e :: rest =>
      if decide (centry_key e = key) then
        mk_centry (centry_addr e) (centry_key e) (centry_data e) (centry_size e)
                  (centry_flags e) (centry_access_count e) (centry_last_access e)
                  (centry_expiry_time e) (wrap_s32 (centry_ref_count e - 1)) :: rest
      else e :: cache_put_ref_scan rest key
  end.

Definition hinata_storage_cache_put_ref (c : hinata_storage_context) (key : string)
  : hinata_storage_context :=
  set_cache_lists c (cache_put_ref_scan (cache c) key) (cache_size c) (cache_lru c).

(** Modelled from the spec: HINATA_VALIDATION_FLAG_FULL, the flag
    hinata_storage_store_packet passes, is defined nowhere in the sources;
    the spec says store_packet validates the packet at STANDARD level. *)
Definition HINATA_VALIDATION_FLAG_FULL : Z := HINATA_VALIDATE_STANDARD.

(** Modelled from the spec: hinata_validate_packet, the function
    hinata_storage_store_packet calls, is defined nowhere in the sources;
    it is the validator's entry point hinata_validate_packet_full. *)
Definition hinata_validate_packet (vst : validation_state) (kh : gmap Z (list Z))
    (current_ns jiffies : Z) (packet : option hinata_packet) (flags : Z)
  : Z * validation_state :=
  hinata_validate_packet_full vst kh current_ns jiffies packet flags.

(** What the environment answers during one hinata_storage_store_packet *)
Record store_env := mk_store_env {
  se_now_ns : Z;                    (* wall clock, read by the validator *)
  se_jiffies : Z;
  se_data_alloc : Memory.alloc_env; (* hinata_malloc of the serialised buffer *)
  se_written : Z;                   (* result of kernel_write *)
  se_timestamp : Z;                 (* hinata_get_timestamp *)
  se_entry_alloc : Memory.alloc_env;
  se_copy_alloc : Memory.alloc_env;
  se_key_tail : string
}.

(** The serialised buffer: the struct, then the content, then the
    metadata, over whatever hinata_malloc delivered. *)
Definition serialize (kh : gmap Z (list Z)) (p : hinata_packet) (buf : list Z) : list Z :=
  let data_size := wrap_u64 (SIZEOF_PACKET + pkt_content_size p + pkt_metadata_size p) in
  let has_content := bool_decide (pkt_content p <> NULL /\ pkt_content_size p > 0) in
  let has_meta := bool_decide (pkt_metadata p <> NULL /\ pkt_metadata_size p > 0) in
  let part1 := take (Z.to_nat SIZEOF_PACKET) (packet_bytes p) in
  let part2 := if has_content
               then take (Z.to_nat (pkt_content_size p)) (deref kh (pkt_content p))
               else [] in
  let part3 := if has_meta
               then take (Z.to_nat (pkt_metadata_size p)) (deref kh (pkt_metadata p))
               else [] in
  let written := part1 ++ part2 ++ part3 in
  take (Z.to_nat data_size) (written ++ drop (length written) buf).

(** hinata_storage_store_packet *)
Definition hinata_storage_store_packet (s : system) (packet : option hinata_packet)
    (rid : Z) (env : store_env) : Z * system :=
  let c := sys_storage s in
  match packet with
  | None => (- EINVAL, s)
  | Some p =>
      if negb (storage_initialized c) then (- EINVAL, s)
      else if decide (rid >= HINATA_STORAGE_MAX_REGIONS) then (- EINVAL, s)
      else
        match regions c !! Z.to_nat rid with
        | None => (- EINVAL, s)
        | Some region =>
            match region_file region with
            | None => (- ENOENT, s)
            | Some file =>
                let '(ret, vst) :=
                  hinata_validate_packet (sys_validation s) (kheap (sys_packets s))
                                         (se_now_ns env) (se_jiffies env) (Some p)
                                         HINATA_VALIDATION_FLAG_FULL in
                let s1 := mk_system (sys_packets s) vst (sys_memory s) c in
                if decide (ret <> HINATA_VALIDATION_SUCCESS) then (- EINVAL, s1)
                else
                  let data_size :=
                    wrap_u64 (SIZEOF_PACKET + pkt_content_size p + pkt_metadata_size p) in
                  let '(data, m1) :=
                    Memory.hinata_malloc (sys_memory s) data_size (se_data_alloc env) in
                  if decide (data = NULL)
                  then (- ENOMEM, mk_system (sys_packets s) vst m1 c)
                  else
                    let bytes := serialize (kheap (sys_packets s)) p
                                           (default [] (Memory.heap m1 !! data)) in
                    let file' := kernel_write file bytes (used_size region)
                                              (se_written env) in
                    (* the other open regions on the same path see the write *)
                    let shared := write_through (regions c) (region_path region) bytes
                                                (used_size region) (se_written env) in
                    if decide (se_written env <> data_size) then
                      (- EIO,
                       mk_system (sys_packets s) vst
                                 (Memory.hinata_free m1 data (se_timestamp env))
                                 (set_regions c
                                    (<[Z.to_nat rid :=
                                         mk_region (region_id region) (region_name region)
                                                   (region_path region) (region_type region)
                                                   (region_flags region) (region_size region)
                                                   (used_size region) (block_count region)
                                                   (Some file') (free_list region)
                                                   (block_tree region) (region_stats region)]>
                                       shared)))
                    else
                      (* the struct hinata_storage_block is filled in a local
                         variable and goes out of scope with the call *)
                      let rstats := region_stats region in
                      let region' :=
                        mk_region (region_id region) (region_name region)
                                  (region_path region) (region_type region)
                                  (region_flags region) (region_size region)
                                  (wrap_u64 (used_size region + data_size))
                                  (wrap_u64 (block_count region + 1))
                                  (Some file') (free_list region) (block_tree region)
                                  (mk_sstats (wrap_s64 (packets_stored rstats + 1))
                                             (packets_deleted rstats)
                                             (wrap_s64 (bytes_written rstats + data_size))
                                             (cache_hits rstats) (cache_misses rstats)) in
                      let c1 := set_regions c (<[Z.to_nat rid := region']> shared) in
                      let '(_, c2, m2) :=
                        hinata_storage_cache_put c1 m1 (pkt_id p) bytes data_size
                                                 (se_entry_alloc env) (se_copy_alloc env)
                                                 (se_key_tail env) (se_timestamp env) in
                      let m3 := Memory.hinata_free m2 data (se_timestamp env) in
                      let g := stats c2 in
                      let c3 := set_stats c2
                                  (mk_sstats (wrap_s64 (packets_stored g + 1))
                                             (packets_deleted g)
                                             (wrap_s64 (bytes_written g + data_size))
                                             (cache_hits g) (cache_misses g)) in
                      (0, mk_system (sys_packets s) vst m3 c3)
            end
        end
  end.

Definition inc_cache_hits (c : hinata_storage_context) : hinata_storage_context :=
  set_stats c (mk_sstats (packets_stored (stats c)) (packets_deleted (stats c))
                         (bytes_written (stats c))
                         (wrap_s64 (cache_hits (stats c) + 1)) (cache_misses (stats c))).

Definition inc_cache_misses (c : hinata_storage_context) : hinata_storage_context :=
  set_stats c (mk_sstats (packets_stored (stats c)) (packets_deleted (stats c))
                         (bytes_written (stats c))
                         (cache_hits (stats c)) (wrap_s64 (cache_misses (stats c) + 1))).

(** hinata_storage_load_packet.  The result is the return code and the
    pointer stored through the out parameter (None when it is not
    written).  On a cache hit the cached bytes are read as a struct
    hinata_packet and cloned; on a miss the body between lock and unlock
    is [ret = -ENOENT]. *)
Definition hinata_storage_load_packet (s : system) (packet_id : option string)
    (rid : Z) (now : Z) (clone_env : create_env) : Z * option ptr * system :=
  let c := sys_storage s in
  match packet_id with
  | None => (- EINVAL, None, s)
  | Some id =>
      if negb (storage_initialized c) then (- EINVAL, None, s)
      else if decide (rid >= HINATA_STORAGE_MAX_REGIONS) then (- EINVAL, None, s)
      else
        match hinata_storage_cache_get c id now with
        | (Some (data, _), c1) =>
            let loaded := packet_of_bytes (default [] (Memory.heap (sys_memory s) !! data)) in
            let '(clone, w, vst) :=
              hinata_packet_clone (sys_packets s) (sys_validation s) (Some loaded)
                                  clone_env in
            let c2 := inc_cache_hits (hinata_storage_cache_put_ref c1 id) in
            ((if decide (clone <> NULL) then 0 else - ENOMEM), Some clone,
             mk_system w vst (sys_memory s) c2)
        | (None, _) =>
            let c1 := inc_cache_misses c in
            let s1 := mk_system (sys_packets s) (sys_validation s) (sys_memory s) c1 in
            match regions c !! Z.to_nat rid with
            | None => (- EINVAL, None, s1)
            | Some region =>
                match region_file region with
                | None => (- ENOENT, None, s1)
                | Some _ => (- ENOENT, None, s1)
                end
            end
        end
  end.

(** hinata_storage_delete_packet *)
Definition hinata_storage_delete_packet (s : system) (packet_id : option string)
    (rid : Z) (now : Z) : Z * system :=
  let c := sys_storage s in
  match packet_id with
  | None => (- EINVAL, s)
  | Some id =>
      if negb (storage_initialized c) then (- EINVAL, s)
      else if decide (rid >= HINATA_STORAGE_MAX_REGIONS) then (- EINVAL, s)
      else
        match regions c !! Z.to_nat rid with
        | None => (- EINVAL, s)
        | Some region =>
            match region_file region with
            | None => (- ENOENT, s)
            | Some _ =>
                let '(_, c1, m1) :=
                  hinata_storage_cache_remove c (sys_memory s) id now in
                let g := stats c1 in
                (0, mk_system (sys_packets s) (sys_validation s) m1
                              (set_stats c1
                                 (mk_sstats (packets_stored g)
                                            (wrap_s64 (packets_deleted g + 1))
                                            (bytes_written g) (cache_hits g)
                                            (cache_misses g))))
            end
        end
  end.

(** Store and delete calls on one region. *)
Inductive region_op :=
| OpStore (packet : option hinata_packet) (env : store_env)
| OpDelete (packet_id : option string) (now : Z).

Definition apply_region_op (rid : Z) (s : system) (op : region_op) : system :=
  match op with
  | OpStore packet env => snd (hinata_storage_store_packet s packet rid env)
  | OpDelete id now => snd (hinata_storage_delete_packet s id rid now)
  end.

(** The block index and the block counter of a region. *)
Definition region_block_tree (s : system) (rid : Z) : list hinata_storage_block :=
  default [] (block_tree <$> regions (sys_storage s) !! Z.to_nat rid).

Definition region_block_count (s : system) (rid : Z) : Z :=
  default 0 (block_count <$> regions (sys_storage s) !! Z.to_nat rid).

(** Evicting a key from the cache, as a step on the whole system. *)
Definition evict (s : system) (key : string) (now : Z) : system :=
  let '(_, c, m) := hinata_storage_cache_remove (sys_storage s) (sys_memory s) key now in
  mk_system (sys_packets s) (sys_validation s) m c.

(** hinata_storage_region_cleanup: the file is synced and closed, then
    the whole struct is cleared with memset, its id included. *)
Definition hinata_storage_region_cleanup (r : hinata_storage_region)
  : hinata_storage_region :=
  zero_region 0.

(** hinata_storage_destroy_region *)
Definition hinata_storage_destroy_region (c : hinata_storage_context) (rid : Z)
  : Z * hinata_storage_context :=
  if negb (storage_initialized c) then (- ENODEV, c)
  else if decide (rid >= HINATA_STORAGE_MAX_REGIONS) then (- EINVAL, c)
  else
    match regions c !! Z.to_nat rid with
    | None => (- EINVAL, c)
    | Some region =>
        match region_file region with
        | None => (- ENOENT, c)
        | Some _ =>
            (0,
             mk_sctx (storage_initialized c)
                     (<[Z.to_nat rid := hinata_storage_region_cleanup region]> (regions c))
                     (wrap_u32 (region_count c - 1))
                     (cache c) (cache_size c) (cache_lru c) (stats c))
        end
    end.

(** hinata_storage_get_stats on a non-NULL [stats] *)
Definition hinata_storage_get_stats (c : hinata_storage_context)
  : Z * option hinata_storage_stats :=
  if negb (storage_initialized c) then (- EINVAL, None)
  else (0, Some (stats c)).

(** Calls on the cache. *)
Inductive cache_op :=
| CPut (key : string) (data : list Z) (size : Z)
       (entry_env copy_env : Memory.alloc_env) (tail : string) (now : Z)
| CGet (key : string) (now : Z)
| CRemove (key : string) (now : Z)
| CPutRef (key : string).

Definition apply_cache_op (cm : hinata_storage_context * Memory.hinata_memory_context)
    (op : cache_op) : hinata_storage_context * Memory.hinata_memory_context :=
  let '(c, m) := cm in
  match op with
  | CPut key data size e1 e2 tail now =>
      let '(_, c', m') := hinata_storage_cache_put c m key data size e1 e2 tail now in
      (c', m')
  | CGet key now => (snd (hinata_storage_cache_get c key now), m)
  | CRemove key now =>
      let '(_, c', m') := hinata_storage_cache_remove c m key now in
      (c', m')
  | CPutRef key => (hinata_storage_cache_put_ref c key, m)
  end.

End WithLayout.

(** A stand-in layout for running the model on examples whose outcome
    does not depend on the bytes of a struct. *)
Definition flat_layout : Layout :=
  {| packet_bytes _ := replicate 1424 0;
     packet_of_bytes _ := zero_packet;
     header_bytes _ _ := replicate 124 0 |}.

(** The end-to-end scenario of the specification: a text packet with
    content "hello", source "test" and tags a, b, and a freshly created
    1 MB region. *)
Module Scenario.

Definition uuid : string := "123e4567-e89b-12d3-a456-426614174000".

Definition created : ptr * packet_world :=
  hinata_packet_create (mk_world gmap_empty gmap_empty [] [] [] 0 0 0 0 0)
    HINATA_PACKET_TEXT (Some (bytes_of_string "hello")) 5 None 0
    (Some "test"%string) (Some [Some "a"%string; Some "b"%string]) 2
    (mk_create_env 4096 0 uuid 1000 8192 0 true 5).

Definition packet : hinata_packet :=
  default zero_packet (packets (snd created) !! 4096).

Definition region_created : Z * hinata_storage_context :=
  hinata_storage_create_region (layout := flat_layout)
    initial_storage "r" "/tmp/r" HINATA_STORAGE_TYPE_PACKET (1024 * 1024) [] 0 124 7.

Definition start : system :=
  mk_system (snd created) hinata_validation_init Memory.initial_context
            (snd region_created).

Definition answers (a : ptr) : Memory.alloc_env := Memory.mk_env 0 a a true [] 9.

Definition env : store_env :=
  mk_store_env 2000 50000 (answers 100000) 1429 9 (answers 200000) (answers 300000)
               EmptyString.

End Scenario.

End Storage.

(* ===================================================================== *)
(** * Theorems                                                            *)
(* ===================================================================== *)

Lemma wrap_s32_small z : - 2^31 <= z < 2^31 -> wrap_s32 z = z.
Proof.
  intros H. unfold wrap_s32.
  rewrite Z.mod_small by lia. lia.
Qed.

Lemma wrap_s64_small z : - 2^63 <= z < 2^63 -> wrap_s64 z = z.
Proof.
  intros H. unfold wrap_s64.
  rewrite Z.mod_small by lia. lia.
Qed.

Lemma wrap_u64_small z : 0 <= z < 2^64 -> wrap_u64 z = z.
Proof. intros H. unfold wrap_u64. apply Z.mod_small. lia. Qed.

(** ** Task queue *)

Section WorkerQueue.
Import Worker.

Lemma scan_lanes_concat_none lanes :
  scan_lanes lanes = None -> concat lanes = [].
Proof.
  induction lanes as [|lane rest IH]; simpl; [done|].
  destruct lane as [|t lane]; [|done].
  destruct (scan_lanes rest) as [[t rest']|]; [done|].
  intros _. by apply IH.
Qed.

Lemma scan_lanes_concat_some lanes t lanes' :
  scan_lanes lanes = Some (t, lanes') ->
  concat lanes = t :: concat lanes' /\ length lanes' = length lanes.
Proof.
  revert t lanes'.
  induction lanes as [|lane rest IH]; simpl; intros t lanes' H; [done|].
  destruct lane as [|t0 lane].
  - destruct (scan_lanes rest) as [[t1 rest']|] eqn:E; [|done].
    injection H as <- <-. destruct (IH _ _ eq_refl) as [-> Hl].
    simpl. by rewrite Hl.
  - injection H as <- <-. done.
Qed.

(** hinata_task_queue_get pops the head of the first non-empty lane. *)
Lemma scan_lanes_first_nonempty lanes (i : nat) t rest :
  (forall j : nat, (j < i)%nat -> lanes !! j = Some []) ->
  lanes !! i = Some (t :: rest) ->
  scan_lanes lanes = Some (t, <[i := rest]> lanes).
Proof.
  revert i.
  induction lanes as [|lane lanes IH]; intros i Hlow Hi; [done|].
  destruct i as [|i]; simpl in *.
  - by injection Hi as ->.
  - pose proof (Hlow 0%nat ltac:(lia)) as H0. simpl in H0. injection H0 as ->.
    rewrite (IH i); [done| |done].
    intros j Hj. apply (Hlow (S j)). lia.
Qed.

Lemma drain_concat n q :
  (length (concat (tasks q)) <= n)%nat -> drain n q = concat (tasks q).
Proof.
  revert q. induction n as [|n IH]; intros q Hn.
  - simpl. destruct (concat (tasks q)); [done|simpl in Hn; lia].
  - simpl. unfold hinata_task_queue_get.
    destruct (scan_lanes (tasks q)) as [[t lanes']|] eqn:E.
    + apply scan_lanes_concat_some in E as [E _].
      rewrite E in *. simpl in Hn. rewrite IH; simpl; [done|lia].
    + by apply scan_lanes_concat_none in E as ->.
Qed.

Lemma lane_of_lt t : (lane_of t < 8)%nat.
Proof.
  unfold lane_of, clamp_priority, HINATA_WORKER_PRIORITY_LEVELS.
  case_decide; lia.
Qed.

Lemma lane_of_queued t : lane_of (queued t) = lane_of t.
Proof.
  unfold lane_of, queued, clamp_priority, HINATA_WORKER_PRIORITY_LEVELS.
  destruct t; simpl. repeat case_decide; lia.
Qed.

Lemma lanes_of_snoc ts t :
  alter (fun lane => lane ++ [queued t]) (lane_of t) (lanes_of ts)
  = lanes_of (ts ++ [t]).
Proof.
  pose proof (lane_of_lt t) as Hlt.
  pose proof (lane_of_queued t) as Hq.
  unfold lanes_of. rewrite map_app. simpl.
  rewrite !filter_app, !filter_cons, !filter_nil.
  destruct (lane_of t) as [|[|[|[|[|[|[|[|n]]]]]]]] eqn:E; try lia;
    simpl; repeat case_decide; try lia; by rewrite ?app_nil_r.
Qed.

Lemma add_all_snoc q ts t :
  add_all q (ts ++ [t]) = snd (hinata_task_queue_add (add_all q ts) t).
Proof. unfold add_all. by rewrite foldl_app. Qed.

Lemma tasks_queue_add q t :
  tasks (snd (hinata_task_queue_add q t))
  = alter (fun lane => lane ++ [queued t]) (lane_of t) (tasks q).
Proof. reflexivity. Qed.

Lemma add_all_lanes ts :
  tasks (add_all hinata_task_queue_init ts) = lanes_of ts.
Proof.
  induction ts as [|t ts IH] using rev_ind; [done|].
  rewrite add_all_snoc, tasks_queue_add, IH. apply lanes_of_snoc.
Qed.

Lemma length_concat_alter_snoc (lanes : list (list hinata_task)) (i : nat) x :
  (i < length lanes)%nat ->
  length (concat (alter (fun lane => lane ++ [x]) i lanes))
  = S (length (concat lanes)).
Proof.
  revert i. induction lanes as [|l lanes IHl]; intros i Hi; simpl in Hi; [lia|].
  destruct i as [|i].
  - change (length ((l ++ [x]) ++ concat lanes) = S (length (l ++ concat lanes))).
    rewrite !length_app. simpl. lia.
  - change (length (l ++ concat (alter (fun lane => lane ++ [x]) i lanes))
            = S (length (l ++ concat lanes))).
    rewrite !length_app, IHl by lia. lia.
Qed.

Lemma length_concat_lanes_of ts : length (concat (lanes_of ts)) = length ts.
Proof.
  induction ts as [|t ts IH] using rev_ind; [done|].
  rewrite <- lanes_of_snoc.
  pose proof (lane_of_lt t) as Hlt.
  rewrite length_concat_alter_snoc, length_app, IH; [simpl; lia|].
  unfold lanes_of. by rewrite length_map, length_seq.
Qed.

(** The order tasks leave the queue in is lane by lane, each lane in
    submission order. *)
Lemma drain_add_all ts :
  drain (length ts) (add_all hinata_task_queue_init ts) = priority_order ts.
Proof.
  rewrite drain_concat; rewrite add_all_lanes; [done|].
  by rewrite length_concat_lanes_of.
Qed.

(** C4.  Tasks enqueued into lanes 2,0,1,0 leave the queue as: first
    lane-0 task, second lane-0 task, the lane-1 task, the lane-2 task, and
    then the queue is empty; hinata_task_queue_get always removes the head
    of the lowest-numbered non-empty lane; and for every submission
    sequence the dequeue order is lane by lane, each lane in submission
    (FIFO) order. *)
Theorem C4_priority_fifo_order :
  (forall a b c d,
      task_priority a = 2 -> task_priority b = 0 ->
      task_priority c = 1 -> task_priority d = 0 ->
      drain 5 (add_all hinata_task_queue_init [a; b; c; d]) = [b; d; c; a])
  /\ (forall q (i : nat) t rest,
        (forall j : nat, (j < i)%nat -> tasks q !! j = Some []) ->
        tasks q !! i = Some (t :: rest) ->
        hinata_task_queue_get q
        = (Some t, mk_queue (<[i := rest]> (tasks q))
                            (wrap_s32 (count q - 1))
                            (wrap_s32 (pending_count q - 1))
                            (tasks_queued q) (tasks_cancelled q)))
  /\ (forall ts,
        drain (length ts) (add_all hinata_task_queue_init ts) = priority_order ts).
Proof.
  split; [|split].
  - intros [] [] [] []; simpl; intros -> -> -> ->. reflexivity.
  - intros q i t rest Hlow Hi. unfold hinata_task_queue_get.
    by rewrite (scan_lanes_first_nonempty _ i t rest).
  - apply drain_add_all.
Qed.

Lemma C4_priority_fifo_order_witness :
  let t (i p : Z) :=
    mk_task i HINATA_TASK_TYPE_CUSTOM HINATA_TASK_STATE_PENDING 0 p 4096 0 0 0 0 0 0 3 0 in
  drain 5 (add_all hinata_task_queue_init [t 1 2; t 2 0; t 3 1; t 4 0])
  = [t 2 0; t 4 0; t 3 1; t 1 2].
Proof.
  intros t. apply (proj1 C4_priority_fifo_order); reflexivity.
Defined.

(** *** Submission through the public interface *)

Lemma scan_lanes_empty n : scan_lanes (replicate n []) = None.
Proof. induction n as [|n IH]; simpl; [done|]. by rewrite IH. Qed.

Lemma task_alloc_priority type func data sz flags ok now counter t c' :
  hinata_task_alloc type func data sz flags ok now counter = (Some t, c') ->
  task_priority t = 0 /\ task_state t = HINATA_TASK_STATE_PENDING.
Proof.
  unfold hinata_task_alloc. case_decide; [done|].
  destruct ok; simpl; [|done]. intros [= <- <-]. done.
Qed.

Lemma submit_task_effect pool type func data sz flags ok now :
  match submitted_task pool type func data sz flags ok now with
  | Some t =>
      task_priority t = 0 /\
      tasks (task_queue (snd (hinata_submit_task pool type func data sz flags ok now)))
      = alter (fun lane => lane ++ [t]) 0%nat (tasks (task_queue pool))
  | None => snd (hinata_submit_task pool type func data sz flags ok now) = pool
  end.
Proof.
  unfold submitted_task, hinata_submit_task.
  case_decide; [done|].
  destruct (system_running pool); simpl; [|done].
  destruct (hinata_task_alloc _ _ _ _ _ _ _ _) as [[t|] c'] eqn:E; simpl; [|done].
  apply task_alloc_priority in E as [Hp _]. split; [done|].
  destruct t; simpl in *; subst. reflexivity.
Qed.

Lemma step_op_fifo_inv tr op : fifo_inv tr -> fifo_inv (step_op tr op).
Proof.
  intros (lane0 & Hl & Hc). destruct op as [type func data sz flags ok now|].
  - pose proof (submit_task_effect (tr_pool tr) type func data sz flags ok now) as H.
    unfold step_op, fifo_inv. simpl.
    destruct (submitted_task _ _ _ _ _ _ _ _) as [t|]; simpl.
    + destruct H as [_ ->]. rewrite Hl. exists (lane0 ++ [t]). simpl.
      split; [done|]. by rewrite Hc, app_assoc.
    + rewrite H, app_nil_r. by exists lane0.
  - unfold step_op, hinata_task_queue_get, fifo_inv. rewrite Hl.
    destruct lane0 as [|t lane0]; cbn [scan_lanes].
    + rewrite (scan_lanes_empty 7).
      cbn [tr_pool tr_created tr_dequeued option_list set_pool_queue task_queue].
      rewrite app_nil_r. exists []. by rewrite Hl.
    + cbn [tr_pool tr_created tr_dequeued option_list set_pool_queue task_queue tasks].
      exists lane0. split; [done|]. by rewrite Hc, <- app_assoc.
Qed.

Lemma run_ops_fifo_inv pool ops :
  task_queue pool = hinata_task_queue_init -> fifo_inv (run_ops pool ops).
Proof.
  intros Hq. unfold run_ops.
  induction ops as [|op ops IH] using rev_ind.
  - exists []. simpl. by rewrite Hq.
  - rewrite foldl_app. simpl. by apply step_op_fifo_inv.
Qed.

Lemma submit_task_creates pool type func data sz flags now :
  func <> NULL -> system_running pool = true ->
  exists t,
    hinata_task_alloc type func data sz flags true now (hinata_task_id_counter pool)
    = (Some t, wrap_s32 (hinata_task_id_counter pool + 1))
    /\ submitted_task pool type func data sz flags true now = Some t
    /\ task_priority t = 0 /\ task_state t = HINATA_TASK_STATE_PENDING
    /\ task_func t = func /\ task_data t = data /\ task_type t = type
    /\ task_id t = wrap_u32 (wrap_s32 (hinata_task_id_counter pool + 1))
    /\ fst (hinata_submit_task pool type func data sz flags true now)
       = wrap_s32 (task_id t)
    /\ tasks (task_queue (snd (hinata_submit_task pool type func data sz flags true now)))
       = alter (fun lane => lane ++ [t]) 0%nat (tasks (task_queue pool))
    /\ system_running (snd (hinata_submit_task pool type func data sz flags true now))
       = true.
Proof.
  intros Hf Hrun. eexists.
  unfold submitted_task, hinata_submit_task, hinata_task_alloc.
  rewrite !decide_False by done. rewrite Hrun. cbn [negb fst snd].
  split; [reflexivity|]. split; [reflexivity|].
  cbn. repeat (split; [reflexivity|]). done.
Qed.

Lemma submit_task_refused pool type func data sz flags ok now :
  func = NULL \/ ok = false ->
  submitted_task pool type func data sz flags ok now = None
  /\ snd (hinata_submit_task pool type func data sz flags ok now) = pool.
Proof.
  intros H. unfold submitted_task, hinata_submit_task, hinata_task_alloc.
  case_decide; [done|]. destruct H as [H| ->]; [done|].
  destruct (system_running pool); done.
Qed.

Lemma step_op_accepted tr op fs :
  system_running (tr_pool tr) = true ->
  map task_func (tr_created tr) = fs ->
  Forall (fun t => task_priority t = 0) (tr_created tr) ->
  system_running (tr_pool (step_op tr op)) = true
  /\ map task_func (tr_created (step_op tr op)) = fs ++ accepted_funcs [op]
  /\ Forall (fun t => task_priority t = 0) (tr_created (step_op tr op)).
Proof.
  intros Hrun Hfs Hprio. destruct op as [type func data sz flags ok now|].
  - cbn [step_op tr_pool tr_created accepted_funcs flat_map].
    destruct (decide (func = NULL)) as [Hf|Hf].
    + destruct (submit_task_refused (tr_pool tr) type func data sz flags ok now
                  (or_introl Hf)) as [-> ->].
      cbn. by rewrite !app_nil_r.
    + destruct ok.
      * destruct (submit_task_creates (tr_pool tr) type func data sz flags now Hf Hrun)
          as (t & _ & -> & Hp & _ & Hfn & _ & _ & _ & _ & _ & Hr).
        split; [done|]. cbn [option_list]. rewrite map_app, Hfs. cbn. rewrite Hfn.
        split; [done|]. apply Forall_app. split; [done|]. by apply Forall_singleton.
      * destruct (submit_task_refused (tr_pool tr) type func data sz flags false now
                    (or_intror eq_refl)) as [-> ->].
        cbn. by rewrite !app_nil_r.
  - unfold step_op.
    destruct (hinata_task_queue_get (task_queue (tr_pool tr))) as [r q'].
    cbn. by rewrite app_nil_r.
Qed.

Lemma run_ops_accepted pool ops :
  system_running pool = true ->
  system_running (tr_pool (run_ops pool ops)) = true
  /\ map task_func (tr_created (run_ops pool ops)) = accepted_funcs ops
  /\ Forall (fun t => task_priority t = 0) (tr_created (run_ops pool ops)).
Proof.
  intros Hrun. unfold run_ops.
  induction ops as [|op ops IH] using rev_ind; [done|].
  rewrite foldl_app. cbn [foldl].
  destruct IH as (H1 & H2 & H3).
  destruct (step_op_accepted _ op _ H1 H2 H3) as (H1' & H2' & H3').
  split; [done|]. split; [|done].
  rewrite H2'. unfold accepted_funcs. by rewrite flat_map_app.
Qed.

Lemma drain_lane0 lane0 :
  forall q, tasks q = lane0 :: replicate 7 [] -> drain (length lane0) q = lane0.
Proof.
  intros q Hq. rewrite drain_concat; rewrite Hq; cbn; by rewrite ?app_nil_r.
Qed.

(** C9.  A hinata_submit_task call with a non-NULL function, on a running
    system and with a successful kzalloc, creates a task: hinata_task_alloc
    returns it with priority 0 and the caller's function, the call returns
    its id and the task is appended to the tail of lane 0; a refused call
    changes nothing.  For every interleaving of submissions and dequeues on
    a running pool that starts with an empty queue, the tasks created are,
    in call order, one per accepted submission, all of priority 0; lanes
    1..7 stay empty; the tasks created are exactly the tasks dequeued so far
    followed by lane 0, and draining lane 0 hands out the rest in the same
    order: tasks leave in submission order. *)
Theorem C9_submit_priority_zero_fifo :
  (forall pool type func data sz flags now,
      func <> NULL -> system_running pool = true ->
      exists t,
        hinata_task_alloc type func data sz flags true now (hinata_task_id_counter pool)
        = (Some t, wrap_s32 (hinata_task_id_counter pool + 1))
        /\ task_priority t = 0 /\ task_func t = func
        /\ fst (hinata_submit_task pool type func data sz flags true now)
           = wrap_s32 (task_id t)
        /\ tasks (task_queue
                    (snd (hinata_submit_task pool type func data sz flags true now)))
           = alter (fun lane => lane ++ [t]) 0%nat (tasks (task_queue pool)))
  /\ (forall pool type func data sz flags ok now,
        func = NULL \/ system_running pool = false \/ ok = false ->
        snd (hinata_submit_task pool type func data sz flags ok now) = pool)
  /\ (forall pool ops,
        task_queue pool = hinata_task_queue_init ->
        system_running pool = true ->
        let tr := run_ops pool ops in
        map task_func (tr_created tr) = accepted_funcs ops
        /\ Forall (fun t => task_priority t = 0) (tr_created tr)
        /\ exists lane0,
             tasks (task_queue (tr_pool tr)) = lane0 :: replicate 7 []
             /\ tr_created tr = tr_dequeued tr ++ lane0
             /\ drain (length lane0) (task_queue (tr_pool tr)) = lane0).
Proof.
  split; [|split].
  - intros pool type func data sz flags now Hf Hrun.
    destruct (submit_task_creates pool type func data sz flags now Hf Hrun)
      as (t & Ha & _ & Hp & _ & Hfn & _ & _ & _ & Hr & Hq & _).
    by exists t.
  - intros pool type func data sz flags ok now H.
    unfold hinata_submit_task, hinata_task_alloc.
    case_decide; [done|]. destruct H as [H|[-> | ->]]; [done|done|].
    by destruct (system_running pool).
  - intros pool ops Hq Hrun tr.
    destruct (run_ops_accepted pool ops Hrun) as (_ & Hfs & Hprio).
    split; [done|]. split; [done|].
    destruct (run_ops_fifo_inv pool ops Hq) as (lane0 & Hl & Hc).
    exists lane0. split; [done|]. split; [done|]. by apply drain_lane0.
Qed.

Lemma C9_submit_priority_zero_fifo_witness :
  let pool := mk_pool hinata_task_queue_init 0 0 true in
  let sub f ok := OpSubmit HINATA_TASK_TYPE_CUSTOM f 0 0 0 ok 7 in
  let ops := [sub 4096 true; sub 8192 true; OpGet; sub 0 true; sub 12288 true;
              sub 16384 false; OpGet] in
  let t (i f : Z) :=
    mk_task i HINATA_TASK_TYPE_CUSTOM HINATA_TASK_STATE_PENDING 0 0 f 0 0 7
            (HINATA_WORKER_TASK_TIMEOUT * NSEC_PER_MSEC) 0 0 3 (1000 * NSEC_PER_MSEC) in
  let tr := run_ops pool ops in
  tr_created tr = [t 1 4096; t 2 8192; t 3 12288]
  /\ tr_dequeued tr = [t 1 4096; t 2 8192]
  /\ tasks (task_queue (tr_pool tr)) = [t 3 12288] :: replicate 7 []
  /\ map task_func (tr_created tr) = [4096; 8192; 12288]
  /\ Forall (fun t => task_priority t = 0) (tr_created tr)
  /\ drain 1 (task_queue (tr_pool tr)) = [t 3 12288]
  /\ hinata_task_alloc HINATA_TASK_TYPE_CUSTOM 4096 0 0 0 true 7 0 = (Some (t 1 4096), 1)
  /\ hinata_submit_task pool HINATA_TASK_TYPE_CUSTOM 4096 0 0 0 true 7
     = (1, mk_pool (mk_queue ([t 1 4096] :: replicate 7 []) 1 1 1 0) 1 1 true).
Proof.
  intros pool sub ops t tr.
  destruct (proj1 C9_submit_priority_zero_fifo pool HINATA_TASK_TYPE_CUSTOM
              4096 0 0 0 7 ltac:(discriminate) eq_refl)
    as (t1 & Halloc & Hp1 & Hf1 & Hid1 & Hq1).
  assert (Ht1 : t1 = t 1 4096).
  { assert (H : hinata_task_alloc HINATA_TASK_TYPE_CUSTOM 4096 0 0 0 true 7
                  (hinata_task_id_counter pool) = (Some (t 1 4096), 1))
      by (vm_compute; reflexivity).
    rewrite Halloc in H. by injection H. }
  subst t1.
  destruct (proj2 (proj2 C9_submit_priority_zero_fifo) pool ops eq_refl eq_refl)
    as (Hfs & Hprio & lane0 & Hl & Hc & Hd).
  assert (Hlane : lane0 = [t 3 12288]).
  { assert (H : tasks (task_queue (tr_pool (run_ops pool ops)))
                = [t 3 12288] :: replicate 7 []) by (vm_compute; reflexivity).
    rewrite Hl in H. by injection H. }
  subst lane0.
  split; [vm_compute; reflexivity|]. split; [vm_compute; reflexivity|].
  split; [exact Hl|]. split; [exact Hfs|]. split; [exact Hprio|].
  split; [exact Hd|]. split; [exact Halloc|]. vm_compute. reflexivity.
Defined.

(** *** Cancellation *)

Lemma cancel_task_always_ENOSYS pool id :
  hinata_cancel_task pool id = (- ENOSYS, pool).
Proof. reflexivity. Qed.

(** C7.  A task is submitted and is still pending at the head of lane 0
    (no worker has taken it); hinata_cancel_task on its id returns -ENOSYS
    and leaves the task in the queue. *)
Theorem C7_cancel_pending_task_fails :
  let pool0 := mk_pool hinata_task_queue_init 0 0 true in
  let r := hinata_submit_task pool0 HINATA_TASK_TYPE_CUSTOM 4096 0 0 0 true 1000 in
  fst r = 1
  /\ (exists t, tasks (task_queue (snd r)) !! 0%nat = Some [t]
               /\ task_id t = 1 /\ task_state t = HINATA_TASK_STATE_PENDING)
  /\ hinata_cancel_task (snd r) 1 = (- ENOSYS, snd r)
  /\ fst (hinata_cancel_task (snd r) 1) <> 0.
Proof.
  cbv zeta. split; [reflexivity|]. split; [|split; [reflexivity|done]].
  eexists. split; [reflexivity|]. split; reflexivity.
Qed.

End WorkerQueue.

(** ** Memory manager *)

Section MemoryManager.
Import Memory.

Lemma wrap_s64_le z : - 2^63 <= z -> wrap_s64 z <= z.
Proof.
  intros H. unfold wrap_s64.
  pose proof (Z.mod_le (z + 2^63) (2^64) ltac:(lia) ltac:(lia)). lia.
Qed.

Lemma initial_context_valid : ctx_valid initial_context.
Proof. unfold ctx_valid. simpl. repeat split; try done; vm_compute; congruence. Qed.

(** The limit check of hinata_malloc sees the exact sum whenever the
    accounted usage plus the request exceeds the total cap. *)
Lemma usage_check_exact s size :
  ctx_valid s ->
  size <= max_single_alloc (limits s) ->
  total_allocated s - total_freed s + size > max_total_size (limits s) ->
  wrap_u64 (current_usage s + size) = total_allocated s - total_freed s + size.
Proof.
  intros (_ & Hs & Ht & Hsum & Husage) Hsize Hover.
  unfold current_usage, wrap_u64.
  rewrite Zplus_mod_idemp_l. apply Z.mod_small. lia.
Qed.

Lemma malloc_over_limit s size env :
  ctx_valid s ->
  size > max_single_alloc (limits s) \/
  total_allocated s - total_freed s + size > max_total_size (limits s) ->
  hinata_malloc s size env = (NULL, inc_oom s).
Proof.
  intros Hv Hover. pose proof Hv as (Hinit & Hs & Ht & Hsum & Husage).
  unfold hinata_malloc. rewrite Hinit. simpl.
  assert (size <> 0) as Hnz by lia.
  rewrite bool_decide_eq_false_2 by done.
  case_decide as Hbig; [done|].
  destruct Hover as [Hover|Hover]; [lia|].
  rewrite usage_check_exact by (done || lia).
  case_decide; [done|lia].
Qed.

(** A successful hinata_malloc keeps the accounted usage within the cap. *)
Lemma malloc_preserves_valid s size env p s' :
  ctx_valid s -> 0 <= size -> - 2^63 <= total_allocated s ->
  hinata_malloc s size env = (p, s') -> ctx_valid s'.
Proof.
  intros Hv Hsz Hta. pose proof Hv as (Hinit & Hs & Ht & Hsum & Husage).
  unfold hinata_malloc. rewrite Hinit. simpl.
  case_bool_decide; [by intros [= <- <-]|].
  case_decide as Hbig; [by intros [= <- <-]|].
  case_decide as Htot; [by intros [= <- <-]|].
  destruct (if enable_pooling (config s) then _ else _) as [p_pool ps].
  case_decide; [by intros [= <- <-]|].
  destruct (enable_tracking (config s) && negb (env_block_ok env)).
  { intros [= <- <-]. by destruct (enable_pooling (config s)). }
  intros [= <- <-]. unfold ctx_valid. simpl.
  repeat split; try done.
  pose proof (wrap_s64_le (total_allocated s + size) ltac:(lia)) as Hle.
  unfold current_usage, wrap_u64 in Htot. rewrite Zplus_mod_idemp_l in Htot.
  destruct (decide (0 <= total_allocated s - total_freed s + size)) as [Hpos|Hneg]; [|lia].
  rewrite Z.mod_small in Htot by lia. lia.
Qed.

(** C5.  On an initialised allocator whose accounted usage is within its
    caps, a request larger than the single-allocation cap, or one that
    takes total_allocated - total_freed plus the request above the
    total-memory cap, makes hinata_malloc return NULL with the OOM counter
    incremented and total_allocated (and every other field) unchanged. *)
Theorem C5_malloc_limits s size env :
  ctx_valid s ->
  size > max_single_alloc (limits s) \/
  total_allocated s - total_freed s + size > max_total_size (limits s) ->
  fst (hinata_malloc s size env) = NULL
  /\ oom_count (snd (hinata_malloc s size env)) = wrap_s64 (oom_count s + 1)
  /\ total_allocated (snd (hinata_malloc s size env)) = total_allocated s
  /\ snd (hinata_malloc s size env) = inc_oom s.
Proof.
  intros Hv Hover. by rewrite malloc_over_limit.
Qed.

Lemma C5_malloc_limits_witness :
  let env := mk_env 4096 8192 12288 true [] 0 in
  fst (hinata_malloc initial_context (HINATA_MEMORY_MAX_SINGLE + 1) env) = NULL
  /\ oom_count (snd (hinata_malloc initial_context (HINATA_MEMORY_MAX_SINGLE + 1) env))
     = wrap_s64 (oom_count initial_context + 1)
  /\ total_allocated (snd (hinata_malloc initial_context (HINATA_MEMORY_MAX_SINGLE + 1) env))
     = total_allocated initial_context
  /\ snd (hinata_malloc initial_context (HINATA_MEMORY_MAX_SINGLE + 1) env)
     = inc_oom initial_context.
Proof.
  intros env. apply (C5_malloc_limits initial_context).
  - apply initial_context_valid.
  - left. vm_compute. reflexivity.
Defined.

(** *** hinata_calloc *)

Lemma calloc_no_overflow nmemb size :
  0 <= nmemb -> 0 <= size ->
  ~ (nmemb <> 0 /\ size > SIZE_MAX / nmemb) ->
  0 <= nmemb * size <= SIZE_MAX.
Proof.
  intros Hn Hs Hchk. split; [lia|].
  destruct (decide (nmemb = 0)) as [->|Hnz]; [unfold SIZE_MAX; lia|].
  assert (size <= SIZE_MAX / nmemb) as Hle by lia.
  pose proof (Z.mul_div_le SIZE_MAX nmemb ltac:(lia)).
  nia.
Qed.

Lemma malloc_success_buffer s size env p s' :
  hinata_malloc s size env = (p, s') -> p <> NULL ->
  heap s' !! p = Some (resize (Z.to_nat size) 0 (env_garbage env)).
Proof.
  unfold hinata_malloc.
  destruct (negb (memory_initialized s) || bool_decide (size = 0));
    [by intros [= <- <-]|].
  case_decide; [by intros [= <- <-]|].
  case_decide; [by intros [= <- <-]|].
  destruct (if enable_pooling (config s) then _ else _) as [p_pool ps].
  case_decide; [by intros [= <- <-]|].
  destruct (enable_tracking (config s) && negb (env_block_ok env));
    [by intros [= <- <-]|].
  intros [= <- <-] _. simpl. apply lookup_insert_eq.
Qed.

Lemma memset_zero_whole (n : Z) buf :
  length buf = Z.to_nat n -> memset_zero n buf = replicate (Z.to_nat n) 0.
Proof.
  intros Hl. unfold memset_zero. rewrite drop_ge by lia. apply app_nil_r.
Qed.

(** C10.  hinata_calloc returns NULL and allocates nothing when nmemb is
    non-zero and size exceeds SIZE_MAX / nmemb; whenever that check lets a
    request through, nmemb * size fits in size_t; and every successful
    call returns a buffer of nmemb * size bytes that are all zero. *)
Theorem C10_calloc_overflow_and_zero :
  (forall s nmemb size env,
      nmemb <> 0 -> size > SIZE_MAX / nmemb ->
      hinata_calloc s nmemb size env = (NULL, s))
  /\ (forall nmemb size,
        0 <= nmemb -> 0 <= size ->
        ~ (nmemb <> 0 /\ size > SIZE_MAX / nmemb) ->
        wrap_u64 (nmemb * size) = nmemb * size)
  /\ (forall s nmemb size env p s',
        0 <= nmemb -> 0 <= size ->
        hinata_calloc s nmemb size env = (p, s') -> p <> NULL ->
        heap s' !! p = Some (replicate (Z.to_nat (nmemb * size)) 0)).
Proof.
  split; [|split].
  - intros s nmemb size env Hn Hs. unfold hinata_calloc.
    case_decide as Hchk; [done|]. exfalso. by apply Hchk.
  - intros nmemb size Hn Hs Hchk.
    pose proof (calloc_no_overflow nmemb size Hn Hs Hchk).
    apply wrap_u64_small. unfold SIZE_MAX in *. lia.
  - intros s nmemb size env p s' Hn Hs. unfold hinata_calloc.
    case_decide as Hchk; [by intros [= <- <-]|].
    pose proof (calloc_no_overflow nmemb size Hn Hs Hchk) as Hfit.
    rewrite wrap_u64_small by (unfold SIZE_MAX in *; lia).
    destruct (hinata_malloc s (nmemb * size) env) as [q s1] eqn:Em.
    case_decide as Hq; [|intros [= <- <-]; done].
    intros [= <- <-] _. simpl.
    rewrite lookup_alter_eq, (malloc_success_buffer _ _ _ _ _ Em Hq). simpl.
    f_equal. apply memset_zero_whole. by rewrite length_resize.
Qed.

Lemma C10_calloc_overflow_and_zero_witness :
  let env := mk_env 4096 8192 12288 true [7; 7; 7] 0 in
  hinata_calloc initial_context (2^33) (2^31) env = (NULL, initial_context)
  /\ wrap_u64 (3 * 5) = 3 * 5
  /\ heap (snd (hinata_calloc initial_context 3 5 env)) !! 4096
     = Some (replicate (Z.to_nat (3 * 5)) 0).
Proof.
  intros env.
  destruct C10_calloc_overflow_and_zero as (H1 & H2 & H3).
  split; [|split].
  - apply H1; [done|]. vm_compute. reflexivity.
  - apply H2; [lia|lia|]. intros [_ H]. vm_compute in H. discriminate.
  - apply (H3 initial_context 3 5 env 4096); [lia|lia| |done].
    vm_compute. reflexivity.
Defined.

End MemoryManager.

(** ** Packet reference counting *)

Section PacketRefcount.
Import Packet.

Lemma balance_snoc ops op :
  balance (ops ++ [op])
  = match op with RefGet => balance ops + 1 | RefPut => balance ops - 1 end.
Proof. unfold balance. by rewrite foldl_app. Qed.

Lemma balance_bound ops :
  1 - Z.of_nat (length ops) <= balance ops <= 1 + Z.of_nat (length ops).
Proof.
  induction ops as [|op ops IH] using rev_ind; [done|].
  rewrite balance_snoc, length_app. simpl. destruct op; lia.
Qed.

Lemma always_positive_snoc ops op :
  always_positive (ops ++ [op]) <->
  always_positive ops /\ 0 < balance (ops ++ [op]).
Proof.
  unfold always_positive. split.
  - intros H. split.
    + intros k Hk. specialize (H k). rewrite length_app in H. simpl in H.
      rewrite take_app_le in H by lia. apply H. lia.
    + specialize (H (length (ops ++ [op])) ltac:(lia)).
      by rewrite firstn_all in H.
  - intros [H Hlast] k Hk. rewrite length_app in Hk. simpl in Hk.
    destruct (decide (k <= length ops)%nat) as [Hle|Hgt].
    + rewrite take_app_le by lia. by apply H.
    + assert (k = length (ops ++ [op])) as -> by (rewrite length_app; simpl; lia).
      by rewrite firstn_all.
Qed.

(** Either the balance stayed positive throughout, or there is a first
    put that brought it to zero. *)
Lemma first_zero ops :
  always_positive ops \/
  exists pre post, ops = pre ++ RefPut :: post
                   /\ always_positive pre /\ balance (pre ++ [RefPut]) = 0.
Proof.
  induction ops as [|op ops IH] using rev_ind.
  - left. intros k Hk. simpl in Hk. by replace k with 0%nat by lia.
  - destruct IH as [Hpos|(pre & post & -> & Hpre & Hz)].
    + destruct (decide (0 < balance (ops ++ [op]))) as [Hlast|Hlast].
      * left. by apply always_positive_snoc.
      * right. exists ops, [].
        pose proof (Hpos (length ops) ltac:(lia)) as Hb.
        rewrite firstn_all in Hb.
        rewrite balance_snoc in Hlast. destruct op; [lia|].
        split; [done|]. split; [done|]. rewrite balance_snoc. lia.
    + right. exists pre, (post ++ [op]).
      split; [by rewrite <- app_assoc|done].
Qed.

Lemma times_app log1 log2 p : times (log1 ++ log2) p = (times log1 p + times log2 p)%nat.
Proof. unfold times. by rewrite filter_app, length_app. Qed.

Lemma times_single_eq p : times [p] p = 1%nat.
Proof. unfold times. rewrite filter_cons. by case_decide. Qed.

Lemma times_single_ne q p : q <> p -> times [q] p = 0%nat.
Proof. intros H. unfold times. rewrite filter_cons. by case_decide. Qed.

Lemma kfree_times w q p :
  times (kfree_log (kfree w q)) p
  = (times (kfree_log w) p + if decide (q <> NULL /\ q = p) then 1 else 0)%nat.
Proof.
  unfold kfree. destruct (decide (q = NULL)) as [Hq|Hq]; simpl.
  - case_decide as Hd; [by destruct Hd|lia].
  - rewrite times_app. case_decide as Hp.
    + destruct Hp as [_ ->]. by rewrite times_single_eq.
    + rewrite times_single_ne; [done|naive_solver].
Qed.

Lemma kfree_cache_log w q : packet_cache_free_log (kfree w q) = packet_cache_free_log w.
Proof. unfold kfree. by case_decide. Qed.

Lemma kfree_table w q : packet_hash_table (kfree w q) = packet_hash_table w.
Proof. unfold kfree. by case_decide. Qed.

Lemma kfree_packets w q : packets (kfree w q) = packets w.
Proof. unfold kfree. by case_decide. Qed.

(** The release log of the packet cache only grows. *)
Lemma destroy_cache_log_mono w q p :
  (times (packet_cache_free_log w) p
   <= times (packet_cache_free_log (hinata_packet_destroy w q)) p)%nat.
Proof.
  unfold hinata_packet_destroy. case_decide; [done|].
  destruct (packets w !! q) as [pkt|]; [|done]. simpl.
  rewrite !kfree_cache_log. simpl. rewrite times_app. lia.
Qed.

Lemma apply_ref_cache_log_mono p w op q :
  (times (packet_cache_free_log w) q
   <= times (packet_cache_free_log (apply_ref p w op)) q)%nat.
Proof.
  destruct op; simpl.
  - unfold hinata_packet_get. by case_decide.
  - unfold hinata_packet_put. case_decide; [done|].
    destruct (packets w !! p) as [pkt|]; [|done].
    case_decide; [|done].
    etrans; [|apply destroy_cache_log_mono]. done.
Qed.

Lemma run_refs_cache_log_mono p ops w q :
  (times (packet_cache_free_log w) q
   <= times (packet_cache_free_log (run_refs w p ops)) q)%nat.
Proof.
  unfold run_refs. revert w.
  induction ops as [|op ops IH]; intros w; simpl; [done|].
  etrans; [apply (apply_ref_cache_log_mono p w op q)|apply IH].
Qed.

Lemma hash_del_first_subset ps nodes id n :
  n ∈ hash_del_first ps nodes id -> n ∈ nodes.
Proof.
  induction nodes as [|m nodes IH]; simpl; [done|].
  case_decide.
  - intros Hn. apply elem_of_cons. by right.
  - intros [->|Hn]%elem_of_cons; apply elem_of_cons; [by left|].
    right. by apply IH.
Qed.

(** What a successful hinata_packet_create leaves behind. *)
Lemma create_success w type content csz metadata msz source tags tcount env p w1 :
  hinata_packet_create w type content csz metadata msz source tags tcount env = (p, w1) ->
  p <> NULL ->
  exists pkt,
    p = ce_packet env
    /\ packets w1 = <[p := pkt]> (packets w)
    /\ pkt_ref_count pkt = 1
    /\ pkt_id pkt = ce_uuid env
    /\ pkt_content pkt = ce_content env /\ ce_content env <> NULL
    /\ (pkt_metadata pkt = ce_metadata env \/ pkt_metadata pkt = NULL)
    /\ kfree_log w1 = kfree_log w
    /\ packet_cache_free_log w1 = packet_cache_free_log w
    /\ (packet_hash_table w1 = packet_hash_table w
        \/ exists n, node_packet n = p /\ packet_hash_table w1 = n :: packet_hash_table w).
Proof.
  unfold hinata_packet_create.
  destruct content as [cbytes|]; [|by intros [= <- <-]].
  destruct source as [src|]; [|by intros [= <- <-]].
  case_decide; [by intros [= <- <-]|].
  destruct (bool_decide (is_Some metadata) && _); [by intros [= <- <-]|].
  case_decide; [by intros [= <- <-]|].
  case_decide; [by intros [= <- <-]|].
  case_decide; [by intros [= <- <-]|].
  case_decide; [by intros [= <- <-]|].
  case_decide; [by intros [= <- <-]|].
  case_decide as Hc; [by intros [= <- <-]|].
  set (want := bool_decide (is_Some metadata) && bool_decide (msz > 0)).
  clearbody want.
  destruct (want && bool_decide (ce_metadata env = NULL)); [by intros [= <- <-]|].
  set (w2 := match metadata with Some _ => _ | None => _ end).
  assert (Hw2 : packets w2 = packets w /\ packet_hash_table w2 = packet_hash_table w
                /\ kfree_log w2 = kfree_log w
                /\ packet_cache_free_log w2 = packet_cache_free_log w).
  { subst w2. destruct metadata; [destruct want|]; by repeat split. }
  destruct Hw2 as (Hp2 & Ht2 & Hk2 & Hf2).
  unfold hinata_packet_add_to_hash.
  destruct (ce_node_ok env); simpl.
  - destruct (hinata_packet_find_node _ _ _); intros [= <- <-] _; simpl;
      eexists; rewrite ?Hp2, ?Ht2, ?Hk2, ?Hf2;
      (split; [reflexivity|]); (split; [reflexivity|]); simpl;
      repeat split; try done; try (destruct want; by auto).
    right. eexists. split; [|reflexivity]. reflexivity.
  - intros [= <- <-] _; simpl.
    eexists; rewrite ?Hp2, ?Ht2, ?Hk2, ?Hf2.
    (split; [reflexivity|]); (split; [reflexivity|]); simpl.
    repeat split; try done; try (destruct want; by auto).
Qed.

(** While the balance stays positive (and below INT_MAX) the reference
    count of the struct is the balance and nothing else has moved. *)
Lemma run_refs_positive w1 p pkt ops :
  p <> NULL ->
  packets w1 !! p = Some pkt -> pkt_ref_count pkt = 1 ->
  Z.of_nat (length ops) < INT_MAX ->
  always_positive ops ->
  packets (run_refs w1 p ops) = <[p := set_ref_count pkt (balance ops)]> (packets w1)
  /\ packet_hash_table (run_refs w1 p ops) = packet_hash_table w1
  /\ kfree_log (run_refs w1 p ops) = kfree_log w1
  /\ packet_cache_free_log (run_refs w1 p ops) = packet_cache_free_log w1.
Proof.
  intros Hp Hpkt Hrc.
  induction ops as [|op ops IH] using rev_ind; intros Hlen Hpos.
  - simpl. split; [|done]. unfold balance. simpl. rewrite <- Hrc.
    destruct pkt; simpl. by rewrite insert_id.
  - apply always_positive_snoc in Hpos as [Hpos Hlast].
    rewrite length_app in Hlen. simpl in Hlen.
    destruct (IH ltac:(lia) Hpos) as (Hps & Ht & Hk & Hf).
    pose proof (balance_bound ops) as Hb.
    unfold INT_MAX in Hlen.
    unfold run_refs in *. rewrite foldl_app. simpl.
    set (w' := foldl (apply_ref p) w1 ops) in *.
    rewrite balance_snoc in *. destruct op; simpl.
    + unfold hinata_packet_get. rewrite decide_False by done. simpl.
      rewrite Hps, alter_insert_eq. simpl.
      rewrite wrap_s32_small by lia. done.
    + unfold hinata_packet_put. rewrite decide_False by done.
      rewrite Hps, lookup_insert_eq. simpl.
      rewrite wrap_s32_small by lia.
      rewrite decide_False by lia. simpl.
      by rewrite insert_insert_eq.
Qed.

(** The put that takes the count from one to zero runs
    hinata_packet_destroy once. *)
Lemma put_last_reference w p pkt :
  p <> NULL ->
  packets w !! p = Some pkt -> pkt_ref_count pkt = 1 ->
  pkt_content pkt <> NULL -> pkt_content pkt <> pkt_metadata pkt ->
  let w2 := hinata_packet_put w p in
  times (kfree_log w2) (pkt_content pkt) = S (times (kfree_log w) (pkt_content pkt))
  /\ (pkt_metadata pkt <> NULL ->
      times (kfree_log w2) (pkt_metadata pkt) = S (times (kfree_log w) (pkt_metadata pkt)))
  /\ times (packet_cache_free_log w2) p = S (times (packet_cache_free_log w) p)
  /\ packet_hash_table w2
     = hash_del_first (<[p := set_ref_count pkt 0]> (packets w))
                      (packet_hash_table w) (pkt_id pkt)
  /\ kheap w2 !! pkt_content pkt = None.
Proof.
  intros Hp Hpkt Hrc Hc Hcm. unfold hinata_packet_put.
  rewrite decide_False by done. rewrite Hpkt, Hrc. simpl.
  change (wrap_s32 (1 - 1)) with 0.
  unfold hinata_packet_destroy. rewrite decide_False by done.
  cbn [packets set_packets]. rewrite lookup_insert_eq.
  cbn [kfree_log packet_cache_free_log packet_hash_table kheap packet_cache_free
       hinata_packet_remove_from_hash set_hash_table set_packets packets
       pkt_content pkt_metadata pkt_id set_ref_count].
  rewrite !kfree_times, !kfree_cache_log, !kfree_table. simpl.
  rewrite times_app, times_single_eq.
  split; [|split; [|split; [|split]]].
  - rewrite decide_True by done.
    rewrite decide_False; [lia|]. intros [_ ?]. by apply Hcm.
  - intros Hm. rewrite decide_False by (intros [_ ?]; done).
    rewrite decide_True by done. lia.
  - lia.
  - done.
  - unfold kfree at 1. case_decide; simpl.
    + unfold kfree. rewrite decide_False by done. simpl. apply lookup_delete_eq.
    + rewrite lookup_delete_ne by (intros ?; by apply Hcm).
      unfold kfree. rewrite decide_False by done. simpl. apply lookup_delete_eq.
Qed.

(** C3.  A packet that hinata_packet_create returned (reference count 1)
    goes through any sequence of fewer than INT_MAX get/put calls.  Its
    struct is still unreleased after the sequence exactly when the
    balance 1 + gets - puts was positive after every call; and the put
    that takes the balance to zero frees the content buffer once, the
    metadata buffer (when there is one) once, the struct once, and leaves
    no hash node that refers to the packet. *)
Theorem C3_refcount_lifecycle w type content csz metadata msz source tags tcount env p w1 :
  hinata_packet_create w type content csz metadata msz source tags tcount env = (p, w1) ->
  p <> NULL ->
  env_fresh w env ->
  exists pkt,
    packets w1 !! p = Some pkt /\ pkt_ref_count pkt = 1 /\
    forall ops,
      Z.of_nat (length ops) < INT_MAX ->
      (still_valid w1 (run_refs w1 p ops) p <-> always_positive ops)
      /\ (forall pre,
            ops = pre ++ [RefPut] -> always_positive pre -> balance ops = 0 ->
            let w2 := run_refs w1 p ops in
            times (kfree_log w2) (pkt_content pkt)
            = S (times (kfree_log w1) (pkt_content pkt))
            /\ (pkt_metadata pkt <> NULL ->
                times (kfree_log w2) (pkt_metadata pkt)
                = S (times (kfree_log w1) (pkt_metadata pkt)))
            /\ times (packet_cache_free_log w2) p
               = S (times (packet_cache_free_log w1) p)
            /\ (forall n, n ∈ packet_hash_table w2 -> node_packet n <> p)).
Proof.
  intros Hcreate Hp [Hfresh Hdistinct].
  destruct (create_success _ _ _ _ _ _ _ _ _ _ _ _ Hcreate Hp)
    as (pkt & Hpe & Hps & Hrc & Hid & Hcont & Hcnn & Hmeta & Hk & Hf & Htab).
  assert (Hlook : packets w1 !! p = Some pkt) by (rewrite Hps; apply lookup_insert_eq).
  assert (Hcm : pkt_content pkt <> pkt_metadata pkt).
  { rewrite Hcont. destruct Hmeta as [->| ->]; done. }
  assert (Hcn : pkt_content pkt <> NULL) by (by rewrite Hcont).
  (* the state reached along a positive prefix, and its last put *)
  assert (Hlast : forall pre,
             Z.of_nat (length (pre ++ [RefPut])) < INT_MAX ->
             always_positive pre -> balance (pre ++ [RefPut]) = 0 ->
             let w2 := run_refs w1 p (pre ++ [RefPut]) in
             times (kfree_log w2) (pkt_content pkt)
             = S (times (kfree_log w1) (pkt_content pkt))
             /\ (pkt_metadata pkt <> NULL ->
                 times (kfree_log w2) (pkt_metadata pkt)
                 = S (times (kfree_log w1) (pkt_metadata pkt)))
             /\ times (packet_cache_free_log w2) p
                = S (times (packet_cache_free_log w1) p)
             /\ (forall n, n ∈ packet_hash_table w2 -> node_packet n <> p)).
  { intros pre Hlen Hpos Hz. rewrite length_app in Hlen. simpl in Hlen.
    destruct (run_refs_positive w1 p pkt pre Hp Hlook Hrc ltac:(lia) Hpos)
      as (Hps' & Ht' & Hk' & Hf').
    rewrite balance_snoc in Hz.
    unfold run_refs in *. rewrite foldl_app. simpl.
    set (w' := foldl (apply_ref p) w1 pre) in *.
    assert (Hl' : packets w' !! p = Some (set_ref_count pkt 1)).
    { rewrite Hps', lookup_insert_eq. do 2 f_equal. lia. }
    destruct (put_last_reference w' p (set_ref_count pkt 1) Hp Hl' eq_refl Hcn Hcm)
      as (H1 & H2 & H3 & H4 & _). simpl in *.
    rewrite Hk' in H1, H2. rewrite Hf' in H3.
    split; [done|]. split; [done|]. split; [done|].
    intros n Hn. rewrite H4, Ht' in Hn.
    destruct Htab as [Ht|(m & Hm & Ht)]; rewrite Ht in Hn.
    - apply hash_del_first_subset in Hn. rewrite Hpe. by apply Hfresh.
    - simpl in Hn. rewrite decide_True in Hn.
      + rewrite Hpe. by apply Hfresh.
      + unfold node_id. rewrite Hm, lookup_insert_eq. done. }
  exists pkt. split; [done|]. split; [done|].
  intros ops Hlen. split.
  - split.
    + intros Hvalid. destruct (first_zero ops) as [Hpos|(pre & post & -> & Hpre & Hz)];
        [done|]. exfalso.
      rewrite length_app in Hlen. simpl in Hlen.
      destruct (Hlast pre) as (_ & _ & Hfreed & _); [rewrite length_app; simpl; lia|done|done|].
      unfold still_valid in Hvalid.
      replace (pre ++ RefPut :: post) with ((pre ++ [RefPut]) ++ post) in Hvalid
        by (by rewrite <- app_assoc).
      unfold run_refs in Hvalid, Hfreed. rewrite foldl_app in Hvalid.
      pose proof (run_refs_cache_log_mono p post
                    (foldl (apply_ref p) w1 (pre ++ [RefPut])) p) as Hmono.
      unfold run_refs in Hmono. lia.
    + intros Hpos. unfold still_valid.
      by destruct (run_refs_positive w1 p pkt ops Hp Hlook Hrc Hlen Hpos)
        as (_ & _ & _ & ->).
  - intros pre -> Hpre Hz. by apply Hlast.
Qed.

(** A text packet "hello" with source "test" and tags a, b at address
    4096, an extra reference taken and both references dropped. *)
Lemma C3_refcount_lifecycle_witness :
  let w := mk_world gmap_empty gmap_empty [] [] [] 0 0 0 0 0 in
  let env := mk_create_env 4096 0 "123e4567-e89b-12d3-a456-426614174000" 1000
                           8192 0 true 5 in
  let r := hinata_packet_create w HINATA_PACKET_TEXT
             (Some (bytes_of_string "hello")) 5 None 0 (Some "test"%string)
             (Some [Some "a"%string; Some "b"%string]) 2 env in
  exists pkt,
    packets (snd r) !! 4096 = Some pkt /\ pkt_ref_count pkt = 1 /\
    forall ops,
      Z.of_nat (length ops) < INT_MAX ->
      (still_valid (snd r) (run_refs (snd r) 4096 ops) 4096 <-> always_positive ops)
      /\ (forall pre,
            ops = pre ++ [RefPut] -> always_positive pre -> balance ops = 0 ->
            let w2 := run_refs (snd r) 4096 ops in
            times (kfree_log w2) (pkt_content pkt)
            = S (times (kfree_log (snd r)) (pkt_content pkt))
            /\ (pkt_metadata pkt <> NULL ->
                times (kfree_log w2) (pkt_metadata pkt)
                = S (times (kfree_log (snd r)) (pkt_metadata pkt)))
            /\ times (packet_cache_free_log w2) 4096
               = S (times (packet_cache_free_log (snd r)) 4096)
            /\ (forall n, n ∈ packet_hash_table w2 -> node_packet n <> 4096)).
Proof.
  intros w env r.
  apply (C3_refcount_lifecycle w HINATA_PACKET_TEXT
           (Some (bytes_of_string "hello")) 5 None 0 (Some "test"%string)
           (Some [Some "a"%string; Some "b"%string]) 2 env 4096 (snd r)).
  - vm_compute. reflexivity.
  - discriminate.
  - split; [|discriminate]. intros n Hn. simpl in Hn. by apply elem_of_nil in Hn.
Defined.

End PacketRefcount.

(** ** Validation cache *)

Section ValidationCache.
Import Packet Validation.
Context {helpers : PacketHelpers}.

Lemma substring_whole (s : string) (n : nat) :
  (String.length s <= n)%nat -> String.substring 0 n s = s.
Proof.
  revert n. induction s as [|c s IH]; intros n Hn; simpl in *.
  - by destruct n.
  - destruct n as [|n]; [lia|]. rewrite IH; [done|lia].
Qed.

Lemma lookup_no_match cache id h j :
  (forall e, e ∈ cache -> slot_matches e id h = false) ->
  hinata_validation_cache_lookup cache id h j = (-1, cache).
Proof.
  induction cache as [|e cache IH]; intros Hno; simpl; [done|].
  rewrite (Hno e) by apply elem_of_cons, or_introl, eq_refl.
  rewrite IH; [done|]. intros e' He'. apply Hno, elem_of_cons. by right.
Qed.

Lemma lookup_inserted cache (k : nat) e id h j :
  (forall e', e' ∈ cache -> slot_matches e' id h = false) ->
  (k < length cache)%nat ->
  slot_matches e id h = true -> slot_fresh e j = true ->
  hinata_validation_cache_lookup (<[k := e]> cache) id h j
  = ((if vce_is_valid e then 1 else 0), <[k := e]> cache).
Proof.
  revert k. induction cache as [|e0 cache IH]; intros k Hno Hk Hm Hf; simpl in Hk; [lia|].
  destruct k as [|k]; simpl.
  - by rewrite Hm, Hf.
  - rewrite (Hno e0) by apply elem_of_cons, or_introl, eq_refl.
    rewrite IH; [done| |lia|done|done].
    intros e' He'. apply Hno, elem_of_cons. by right.
Qed.

Lemma structure_result p now :
  hinata_validate_packet_structure p now = 0 \/
  hinata_validate_packet_structure p now = - EINVAL.
Proof.
  unfold hinata_validate_packet_structure.
  repeat (case_decide; [by right|]).
  repeat first [case_decide | destruct (negb _)]; auto.
Qed.

Lemma run_checks_result st kh now p flags :
  (fst (run_checks st kh now p flags) = 0 \/
   fst (run_checks st kh now p flags) = - EINVAL)
  /\ validation_cache (snd (run_checks st kh now p flags)) = validation_cache st
  /\ cache_index (snd (run_checks st kh now p flags)) = cache_index st.
Proof.
  unfold run_checks.
  destruct (structure_result p now) as [-> | ->]; simpl; [|by auto].
  set (c := if has_flag flags HINATA_VALIDATE_CONTENT then _ else _).
  assert (Hc : (fst c = 0 \/ fst c = - EINVAL)
               /\ validation_cache (snd c) = validation_cache st
               /\ cache_index (snd c) = cache_index st).
  { subst c. destruct (has_flag flags HINATA_VALIDATE_CONTENT); [|by auto].
    unfold hinata_validate_packet_content, content_type_check.
    repeat first [case_decide | destruct (negb _)
                 | destruct (hinata_is_printable_string _ _)]; simpl; auto. }
  destruct c as [r1 st1]. simpl in Hc. destruct Hc as (Hr1 & Hc1 & Hi1).
  case_decide; [by destruct Hr1; subst; auto|].
  set (m := if has_flag flags HINATA_VALIDATE_METADATA && _ then _ else _).
  assert (Hm : (fst m = 0 \/ fst m = - EINVAL)
               /\ validation_cache (snd m) = validation_cache st
               /\ cache_index (snd m) = cache_index st).
  { subst m. destruct (has_flag flags HINATA_VALIDATE_METADATA && _); [|by auto].
    unfold hinata_validate_packet_metadata.
    repeat first [case_decide | destruct (hinata_validate_metadata_format _ _ _)];
      simpl; auto. }
  destruct m as [r2 st2]. simpl in Hm. destruct Hm as (Hr2 & Hc2 & Hi2).
  case_decide; [by destruct Hr2; subst; auto|].
  assert (Hs : hinata_validate_packet_security kh p = 0 \/
               hinata_validate_packet_security kh p = - EINVAL).
  { unfold hinata_validate_packet_security.
    repeat match goal with |- context [if ?b then _ else _] => destruct b end; auto. }
  assert (Hi : hinata_validate_packet_integrity kh p = 0 \/
               hinata_validate_packet_integrity kh p = - EINVAL).
  { unfold hinata_validate_packet_integrity. repeat case_decide; auto. }
  destruct (has_flag flags HINATA_VALIDATE_SECURITY);
    destruct (has_flag flags HINATA_VALIDATE_INTEGRITY);
    repeat case_decide; simpl; auto; destruct Hs; destruct Hi; auto.
Qed.

Lemma cache_add_slot st id h v j :
  0 <= cache_index st < INT_MAX ->
  length (validation_cache st) = 256%nat ->
  (String.length id <= 36)%nat ->
  exists k : nat,
    (k < 256)%nat
    /\ validation_cache (hinata_validation_cache_add st id h v j)
       = <[k := mk_vce id h v j]> (validation_cache st).
Proof.
  intros Hci Hlen Hid. unfold hinata_validation_cache_add, INT_MAX in *.
  rewrite wrap_s32_small by lia.
  unfold HINATA_VALIDATION_CACHE_SIZE, HINATA_UUID_LENGTH, strncpy.
  change (Z.to_nat (37 - 1)) with 36%nat. rewrite substring_whole by done.
  pose proof (Z.rem_bound_pos (cache_index st + 1) 256 ltac:(lia) ltac:(lia)).
  rewrite decide_True by lia. simpl.
  exists (Z.to_nat (Z.rem (cache_index st + 1) 256)). split; [lia|done].
Qed.

(** Two calls without FORCE_RECHECK on the same packet, the first one
    finding no slot with the packet's key, the second one within the
    5-minute window of the first: the second call is answered by the
    cache with the verdict of the first, and the slot written by the first
    call holds that verdict, pass or fail. *)
Lemma validate_twice_served_from_cache st kh now1 now2 j1 j2 p flags :
  has_flag flags HINATA_VALIDATE_FORCE_RECHECK = false ->
  length (validation_cache st) = 256%nat ->
  0 <= cache_index st < INT_MAX ->
  (forall e, e ∈ validation_cache st ->
             slot_matches e (pkt_id p) (pkt_content_hash p) = false) ->
  (String.length (pkt_id p) <= 36)%nat ->
  time_before j2 (wrap_u64 (j1 + 5 * 60 * HZ)) = true ->
  let r1 := hinata_validate_packet_full st kh now1 j1 (Some p) flags in
  let r2 := hinata_validate_packet_full (snd r1) kh now2 j2 (Some p) flags in
  fst r2 = fst r1
  /\ (fst r1 = 0 \/ fst r1 = - EINVAL)
  /\ answered_from_cache (snd r1) j2 p = true
  /\ validation_cache (snd r2) = validation_cache (snd r1)
  /\ (exists k : nat,
        validation_cache (snd r1) !! k
        = Some (mk_vce (pkt_id p) (pkt_content_hash p) (bool_decide (fst r1 = 0)) j1)).
Proof.
  intros Hforce Hlen Hci Hno Hid Hwin.
  (* first call: a miss, the staged checks, an insertion *)
  assert (H1 : exists r st2 (k : nat),
             (r = 0 \/ r = - EINVAL) /\ (k < 256)%nat
             /\ hinata_validate_packet_full st kh now1 j1 (Some p) flags
                = (r, (if decide (r < 0) then inc_failure else inc_success) st2)
             /\ validation_cache st2
                = <[k := mk_vce (pkt_id p) (pkt_content_hash p) (bool_decide (r = 0)) j1]>
                    (validation_cache st)).
  { unfold hinata_validate_packet_full. rewrite Hforce. simpl.
    rewrite lookup_no_match by done. simpl.
    set (st1 := set_cache (inc_validation_count st) (validation_cache st)).
    destruct (run_checks_result st1 kh now1 p flags) as (Hr & Hc & Hi).
    destruct (run_checks st1 kh now1 p flags) as [r st2]. simpl in *.
    destruct (cache_add_slot st2 (pkt_id p) (pkt_content_hash p) (bool_decide (r = 0)) j1)
      as (k & Hk & Hadd); [by rewrite Hi|by rewrite Hc|done|].
    rewrite Hc in Hadd.
    destruct Hr as [-> | ->].
    - exists 0, (hinata_validation_cache_add st2 (pkt_id p) (pkt_content_hash p) true j1), k.
      rewrite decide_False by lia. auto.
    - exists (- EINVAL),
             (hinata_validation_cache_add st2 (pkt_id p) (pkt_content_hash p) false j1), k.
      rewrite decide_True by (unfold EINVAL; lia). auto. }
  destruct H1 as (r & st2 & k & Hr & Hk & Hfull1 & Hcache).
  cbv zeta. rewrite Hfull1. simpl.
  set (e := mk_vce (pkt_id p) (pkt_content_hash p) (bool_decide (r = 0)) j1) in *.
  set (st3 := (if decide (r < 0) then inc_failure else inc_success) st2).
  assert (Hc3 : validation_cache st3 = <[k := e]> (validation_cache st)).
  { subst st3. by destruct (decide (r < 0)). }
  assert (Hlk : hinata_validation_cache_lookup (validation_cache st3)
                  (pkt_id p) (pkt_content_hash p) j2
                = ((if bool_decide (r = 0) then 1 else 0), validation_cache st3)).
  { rewrite Hc3. apply (lookup_inserted _ k e); [done|lia| |done].
    unfold slot_matches, e. simpl. by rewrite !bool_decide_eq_true_2. }
  split; [|split; [done|split; [|split]]].
  - unfold hinata_validate_packet_full. rewrite Hforce. simpl. rewrite Hlk.
    destruct Hr as [-> | ->]; reflexivity.
  - unfold answered_from_cache. rewrite Hlk. simpl.
    by destruct (bool_decide (r = 0)).
  - unfold hinata_validate_packet_full. rewrite Hforce. simpl. rewrite Hlk.
    destruct Hr as [-> | ->]; reflexivity.
  - exists k. rewrite Hc3. apply list_lookup_insert_eq. lia.
Qed.

(** C6.  On a freshly initialised validation cache an all-zero packet
    (empty id, content hash 0) is validated twice without FORCE_RECHECK,
    one jiffy apart.  Both calls return -EINVAL, and both run the staged
    checks: at the second call the lookup finds the unused slot 0 first,
    whose zeroed key equals the packet's key and whose timestamp 0 is long
    expired, and reports "not found" although the first call stored its
    verdict in slot 1. *)
Theorem C6_zero_key_packet_not_served_from_cache (now : Z) :
  let j := 170000000000 in
  let r1 := hinata_validate_packet_full hinata_validation_init gmap_empty now j
              (Some zero_packet) HINATA_VALIDATE_STANDARD in
  let r2 := hinata_validate_packet_full (snd r1) gmap_empty now (j + 1)
              (Some zero_packet) HINATA_VALIDATE_STANDARD in
  fst r1 = - EINVAL /\ fst r2 = - EINVAL
  /\ validation_cache (snd r1) !! 1%nat = Some (mk_vce EmptyString 0 false j)
  /\ answered_from_cache (snd r1) (j + 1) zero_packet = false
  /\ cache_index (snd r1) = 1 /\ cache_index (snd r2) = 2
  /\ validation_cache (snd r2) !! 2%nat = Some (mk_vce EmptyString 0 false (j + 1)).
Proof.
  vm_compute. repeat split; reflexivity.
Qed.

End ValidationCache.

(** ** Storage regions *)

Section StorageRegions.
Import Packet Validation PacketClone Storage.
Context {helpers : PacketHelpers} {layout : Layout}.

Lemma cache_put_regions c m key data size e1 e2 tail now :
  regions (snd (fst (hinata_storage_cache_put c m key data size e1 e2 tail now)))
  = regions c
  /\ storage_initialized
       (snd (fst (hinata_storage_cache_put c m key data size e1 e2 tail now)))
     = storage_initialized c.
Proof.
  unfold hinata_storage_cache_put.
  case_decide; [done|].
  destruct (Memory.hinata_malloc m SIZEOF_CACHE_ENTRY e1) as [entry m1].
  case_decide; [done|].
  destruct (Memory.hinata_malloc m1 size e2) as [copy m2].
  case_decide; done.
Qed.

Lemma cache_remove_regions c m key now :
  regions (snd (fst (hinata_storage_cache_remove c m key now))) = regions c.
Proof.
  unfold hinata_storage_cache_remove.
  by destruct (cache_remove_scan (cache c) key) as [[e|] es].
Qed.

Lemma length_write_through rs path data pos written :
  length (write_through rs path data pos written) = length rs.
Proof. unfold write_through. by rewrite length_map. Qed.

(** A write to a shared file changes nothing of a region but its view of
    the file, and closes or opens no file. *)
Lemma write_through_fields {A} (f : hinata_storage_region -> A) rs path data pos written :
  (forall r x, f (set_region_file r x) = f r) ->
  map f (write_through rs path data pos written) = map f rs.
Proof.
  intros Hf. unfold write_through. rewrite map_map. apply map_ext. intros r.
  destruct (region_file r); [|done]. case_decide; [|done]. apply Hf.
Qed.


(** What hinata_storage_store_packet does to the regions: nothing, or it
    writes to the file of the target region, which every open region on
    the same path sees, and replaces the target region by one with the
    same block index whose block counter is unchanged (write error) or one
    higher (success). *)
Lemma store_region_effect s packet rid env :
  let r := hinata_storage_store_packet s packet rid env in
  (fst r <> 0 /\ regions (sys_storage (snd r)) = regions (sys_storage s))
  \/ exists region region' data,
       regions (sys_storage s) !! Z.to_nat rid = Some region
       /\ regions (sys_storage (snd r))
          = <[Z.to_nat rid := region']>
              (write_through (regions (sys_storage s)) (region_path region) data
                             (used_size region) (se_written env))
       /\ block_tree region' = block_tree region
       /\ is_Some (region_file region')
       /\ ((fst r <> 0 /\ block_count region' = block_count region)
           \/ (fst r = 0 /\ block_count region' = wrap_u64 (block_count region + 1))).
Proof.
  cbv zeta. unfold hinata_storage_store_packet.
  destruct packet as [p|]; [|by left].
  destruct (storage_initialized (sys_storage s)); cbn [negb]; [|by left].
  case_decide; [by left|].
  destruct (regions (sys_storage s) !! Z.to_nat rid) as [region|] eqn:Hreg; [|by left].
  destruct (region_file region) as [file|] eqn:Hfile; [|by left].
  destruct (hinata_validate_packet _ _ _ _ _ _) as [ret vst].
  case_decide; [by left|].
  destruct (Memory.hinata_malloc _ _ _) as [data m1].
  case_decide; [by left|].
  case_decide.
  - right. eexists region, _, _. simpl. split; [done|]. split; [reflexivity|].
    simpl. split; [done|]. split; [by eexists|]. by left.
  - right.
    match goal with
    | |- context [hinata_storage_cache_put ?c ?m ?k ?d ?sz ?e1 ?e2 ?t ?n] =>
        pose proof (cache_put_regions c m k d sz e1 e2 t n) as [Hput _];
        destruct (hinata_storage_cache_put c m k d sz e1 e2 t n) as [[rc c2] m2]
    end.
    simpl in *. eexists region, _, _. split; [done|]. rewrite Hput.
    split; [reflexivity|]. simpl. split; [done|]. split; [by eexists|]. by right.
Qed.

Lemma store_block_tree s packet rid env :
  region_block_tree (snd (hinata_storage_store_packet s packet rid env)) rid
  = region_block_tree s rid.
Proof.
  unfold region_block_tree.
  destruct (store_region_effect s packet rid env)
    as [[_ ->]|(region & region' & data & Hreg & -> & Ht & _)]; [done|].
  rewrite Hreg.
  rewrite list_lookup_insert_eq
    by (rewrite length_write_through; by eapply lookup_lt_Some).
  simpl. by rewrite Ht.
Qed.

Lemma delete_regions s id rid now :
  regions (sys_storage (snd (hinata_storage_delete_packet s id rid now)))
  = regions (sys_storage s).
Proof.
  unfold hinata_storage_delete_packet.
  destruct id as [id|]; [|done].
  destruct (storage_initialized (sys_storage s)); simpl; [|done].
  case_decide; [done|].
  destruct (regions (sys_storage s) !! Z.to_nat rid) as [region|]; [|done].
  destruct (region_file region); [|done].
  pose proof (cache_remove_regions (sys_storage s) (sys_memory s) id now) as Hrm.
  destruct (hinata_storage_cache_remove _ _ _ _) as [[rc c1] m1]. done.
Qed.

(** No store or delete ever touches the block index of a region. *)
Lemma region_ops_block_tree rid ops s :
  region_block_tree (foldl (apply_region_op rid) s ops) rid = region_block_tree s rid.
Proof.
  revert s. induction ops as [|op ops IH]; intros s; simpl; [done|].
  rewrite IH. destruct op as [packet env|id now]; simpl.
  - apply store_block_tree.
  - unfold region_block_tree. by rewrite delete_regions.
Qed.

Lemma store_success s packet rid env s1 :
  hinata_storage_store_packet s packet rid env = (0, s1) ->
  storage_initialized (sys_storage s1) = true
  /\ rid < HINATA_STORAGE_MAX_REGIONS
  /\ exists region, regions (sys_storage s1) !! Z.to_nat rid = Some region
                    /\ is_Some (region_file region).
Proof.
  intros Hst.
  pose proof (store_region_effect s packet rid env) as Heff.
  cbv zeta in Heff. rewrite Hst in Heff. simpl in Heff.
  destruct Heff as [[? _]|(region & region' & wdata & Hreg & Hrs & _ & Hfile & _)];
    [done|].
  assert (Hinit : storage_initialized (sys_storage s1) = true
                  /\ rid < HINATA_STORAGE_MAX_REGIONS).
  { revert Hst. unfold hinata_storage_store_packet.
    destruct packet as [p|]; [|by intros [= ?]].
    destruct (storage_initialized (sys_storage s)) eqn:Hi; cbn [negb]; [|by intros [= ?]].
    case_decide; [by intros [= ?]|].
    rewrite Hreg.
    destruct (region_file region) as [file|]; [|by intros [= ?]].
    destruct (hinata_validate_packet _ _ _ _ _ _) as [ret vst].
    case_decide; [by intros [= ?]|].
    destruct (Memory.hinata_malloc _ _ _) as [data m1].
    case_decide; [by intros [= ?]|].
    case_decide; [by intros [= ?]|].
    match goal with
    | |- context [hinata_storage_cache_put ?c ?m ?k ?d ?sz ?e1 ?e2 ?t ?n] =>
        pose proof (cache_put_regions c m k d sz e1 e2 t n) as [_ Hput];
        destruct (hinata_storage_cache_put c m k d sz e1 e2 t n) as [[rc c2] m2]
    end.
    simpl in Hput. intros [= <-]. simpl. rewrite Hput. simpl. split; [done|lia]. }
  destruct Hinit as [Hinit Hrid]. split; [done|]. split; [done|].
  exists region'. split; [|done].
  rewrite Hrs. apply list_lookup_insert_eq.
  rewrite length_write_through. by eapply lookup_lt_Some.
Qed.

Lemma evict_storage s key now :
  regions (sys_storage (evict s key now)) = regions (sys_storage s)
  /\ storage_initialized (sys_storage (evict s key now))
     = storage_initialized (sys_storage s).
Proof.
  unfold evict, hinata_storage_cache_remove.
  by destruct (cache_remove_scan (cache (sys_storage s)) key) as [[e|] es].
Qed.

(** On a cache miss hinata_storage_load_packet reads nothing: for an
    open region it returns -ENOENT and no packet. *)
Lemma load_miss_not_found s id rid now cenv region :
  storage_initialized (sys_storage s) = true ->
  rid < HINATA_STORAGE_MAX_REGIONS ->
  regions (sys_storage s) !! Z.to_nat rid = Some region ->
  fst (hinata_storage_cache_get (sys_storage s) id now) = None ->
  fst (hinata_storage_load_packet s (Some id) rid now cenv) = (- ENOENT, None).
Proof.
  intros Hinit Hrid Hreg Hmiss. unfold hinata_storage_load_packet.
  rewrite Hinit. cbn [negb]. rewrite decide_False by lia.
  destruct (hinata_storage_cache_get (sys_storage s) id now) as [[[d sz]|] c1];
    [done|].
  rewrite Hreg. by destruct (region_file region).
Qed.

(** C1.  A packet is stored successfully into a region; its cache entry
    is evicted, so that the next load has to go to the region; the load
    of the packet's id from that region returns -ENOENT and no packet,
    although the region's file is open and holds the record. *)
Theorem C1_load_after_evict_not_found s p rid env s1 now now' cenv :
  hinata_storage_store_packet s (Some p) rid env = (0, s1) ->
  let s2 := evict s1 (pkt_id p) now in
  fst (hinata_storage_cache_get (sys_storage s2) (pkt_id p) now') = None ->
  fst (hinata_storage_load_packet s2 (Some (pkt_id p)) rid now' cenv) = (- ENOENT, None)
  /\ exists region, regions (sys_storage s2) !! Z.to_nat rid = Some region
                    /\ is_Some (region_file region).
Proof.
  intros Hst s2 Hmiss.
  destruct (store_success _ _ _ _ _ Hst) as (Hinit & Hrid & region & Hreg & Hfile).
  destruct (evict_storage s1 (pkt_id p) now) as [Hr Hi].
  fold s2 in Hr, Hi.
  split; [|exists region; by rewrite Hr].
  apply (load_miss_not_found s2 _ _ _ _ region); [by rewrite Hi|done|by rewrite Hr|done].
Qed.

(** C8.  A successful hinata_storage_store_packet into a region whose
    block counter equals the size of its block index adds one to the
    counter and nothing to the index: afterwards the two differ. *)
Theorem C8_block_count_leaves_index_behind s packet rid env :
  fst (hinata_storage_store_packet s packet rid env) = 0 ->
  region_block_count s rid = Z.of_nat (length (region_block_tree s rid)) ->
  let s' := snd (hinata_storage_store_packet s packet rid env) in
  region_block_tree s' rid = region_block_tree s rid
  /\ region_block_count s' rid = wrap_u64 (region_block_count s rid + 1)
  /\ region_block_count s' rid <> Z.of_nat (length (region_block_tree s' rid)).
Proof.
  intros Hok Hinv s'.
  assert (Hcount : region_block_count s' rid = wrap_u64 (region_block_count s rid + 1)).
  { subst s'. unfold region_block_count.
    destruct (store_region_effect s packet rid env)
      as [[? _]|(region & region' & wdata & Hreg & -> & _ & _ & [[? _]|[_ Hc]])];
      [done|done|].
    rewrite Hreg.
    rewrite list_lookup_insert_eq
      by (rewrite length_write_through; by eapply lookup_lt_Some).
    simpl. by rewrite Hc. }
  split; [apply store_block_tree|]. split; [done|].
  rewrite Hcount. subst s'. rewrite store_block_tree, <- Hinv, Hinv.
  set (n := Z.of_nat (length (region_block_tree s rid))).
  assert (0 <= n) by (subst n; lia).
  unfold wrap_u64. intros Heq.
  clearbody n. change (2^64) with 18446744073709551616 in Heq.
  destruct (decide (n + 1 < 18446744073709551616)) as [Hlt|Hge].
  - rewrite Z.mod_small in Heq by lia. lia.
  - pose proof (Z.mod_pos_bound (n + 1) 18446744073709551616 ltac:(lia)) as Hb.
    rewrite Heq in Hb. assert (n = 18446744073709551615) as -> by lia.
    vm_compute in Heq. discriminate.
Qed.

(** The composite level STANDARD asks for the content and integrity
    stages on top of the structure stage, and for nothing else. *)
Lemma standard_flags :
  HINATA_VALIDATE_STANDARD
  = Z.lor HINATA_VALIDATE_BASIC (Z.lor HINATA_VALIDATE_CONTENT HINATA_VALIDATE_INTEGRITY)
  /\ has_flag HINATA_VALIDATE_STANDARD HINATA_VALIDATE_BASIC = true
  /\ has_flag HINATA_VALIDATE_STANDARD HINATA_VALIDATE_CONTENT = true
  /\ has_flag HINATA_VALIDATE_STANDARD HINATA_VALIDATE_INTEGRITY = true
  /\ has_flag HINATA_VALIDATE_STANDARD HINATA_VALIDATE_METADATA = false
  /\ has_flag HINATA_VALIDATE_STANDARD HINATA_VALIDATE_SECURITY = false
  /\ has_flag HINATA_VALIDATE_STANDARD HINATA_VALIDATE_FORCE_RECHECK = false.
Proof. repeat split; vm_compute; reflexivity. Qed.

Lemma run_checks_standard st kh now p :
  fst (run_checks st kh now p HINATA_VALIDATE_STANDARD) = 0 <->
  hinata_validate_packet_structure p now = 0
  /\ fst (hinata_validate_packet_content st kh p) = 0
  /\ hinata_validate_packet_integrity kh p = 0.
Proof.
  destruct standard_flags as (_ & _ & Hc & Hi & Hm & Hs & _).
  unfold run_checks. rewrite Hc, Hi, Hm, Hs. simpl.
  destruct (structure_result p now) as [-> | ->]; simpl; [|by split; [|intros [? _]]].
  destruct (hinata_validate_packet_content st kh p) as [r1 st1] eqn:Ec. simpl.
  assert (Hr1 : r1 = 0 \/ r1 = - EINVAL).
  { revert Ec. unfold hinata_validate_packet_content, content_type_check.
    repeat first [case_decide | destruct (negb _)
                 | destruct (hinata_is_printable_string _ _)];
      intros [= <- _]; auto. }
  destruct Hr1 as [-> | ->]; simpl; [|by split; [|intros (_ & ? & _)]].
  split; [by intros ->|by intros (_ & _ & ->)].
Qed.

(** C2.  hinata_storage_store_packet validates with the STANDARD level,
    which is BASIC | CONTENT | INTEGRITY and whose staged checks pass
    exactly when the structure, content and integrity checks pass; and on
    an open region of the initialised storage a packet that fails this
    validation makes the call return -EINVAL with the regions, the cache,
    the statistics and the memory manager as they were: only the
    validator's own state has moved. *)
Theorem C2_store_validates_before_writing :
  (HINATA_VALIDATION_FLAG_FULL = HINATA_VALIDATE_STANDARD
   /\ HINATA_VALIDATE_STANDARD
      = Z.lor HINATA_VALIDATE_BASIC
              (Z.lor HINATA_VALIDATE_CONTENT HINATA_VALIDATE_INTEGRITY))
  /\ (forall st kh now p,
        fst (run_checks st kh now p HINATA_VALIDATE_STANDARD) = 0 <->
        hinata_validate_packet_structure p now = 0
        /\ fst (hinata_validate_packet_content st kh p) = 0
        /\ hinata_validate_packet_integrity kh p = 0)
  /\ (forall s p rid env region file,
        storage_initialized (sys_storage s) = true ->
        rid < HINATA_STORAGE_MAX_REGIONS ->
        regions (sys_storage s) !! Z.to_nat rid = Some region ->
        region_file region = Some file ->
        let v := hinata_validate_packet_full (sys_validation s) (kheap (sys_packets s))
                   (se_now_ns env) (se_jiffies env) (Some p) HINATA_VALIDATE_STANDARD in
        fst v <> HINATA_VALIDATION_SUCCESS ->
        hinata_storage_store_packet s (Some p) rid env
        = (- EINVAL,
           mk_system (sys_packets s) (snd v) (sys_memory s) (sys_storage s))).
Proof.
  split; [split; [reflexivity|apply standard_flags]|].
  split; [apply run_checks_standard|].
  intros s p rid env region file Hinit Hrid Hreg Hfile v Hfail.
  unfold hinata_storage_store_packet.
  rewrite Hinit. cbn [negb]. rewrite decide_False by lia.
  rewrite Hreg, Hfile.
  unfold hinata_validate_packet, HINATA_VALIDATION_FLAG_FULL. fold v.
  destruct v as [ret vst]. simpl in *. by rewrite decide_True.
Qed.

End StorageRegions.

(** *** The scenario of the specification as an instance *)

Section StorageScenario.
Import Packet Validation PacketClone Storage.

Lemma C2_store_validates_before_writing_witness :
  hinata_storage_store_packet (helpers := enum_helpers) (layout := flat_layout)
    Scenario.start (Some zero_packet) 0 Scenario.env
  = (- EINVAL,
     mk_system (sys_packets Scenario.start)
       (snd (hinata_validate_packet_full (helpers := enum_helpers)
               (sys_validation Scenario.start) (kheap (sys_packets Scenario.start))
               (se_now_ns Scenario.env) (se_jiffies Scenario.env) (Some zero_packet)
               HINATA_VALIDATE_STANDARD))
       (sys_memory Scenario.start) (sys_storage Scenario.start)).
Proof.
  eapply (proj2 (proj2 (@C2_store_validates_before_writing enum_helpers flat_layout))).
  - reflexivity.
  - reflexivity.
  - vm_compute. reflexivity.
  - reflexivity.
  - vm_compute. discriminate.
Defined.

Lemma C1_load_after_evict_not_found_witness :
  let st := hinata_storage_store_packet (helpers := enum_helpers) (layout := flat_layout)
              Scenario.start (Some Scenario.packet) 0 Scenario.env in
  let s2 := evict (snd st) Scenario.uuid 10 in
  fst st = 0
  /\ fst (hinata_storage_load_packet (layout := flat_layout) s2 (Some Scenario.uuid) 0 11
            (mk_create_env 12288 0 Scenario.uuid 1000 16384 0 true 6))
     = (- ENOENT, None)
  /\ exists region, regions (sys_storage s2) !! 0%nat = Some region
                    /\ is_Some (region_file region).
Proof.
  intros st s2. split; [vm_compute; reflexivity|].
  apply (@C1_load_after_evict_not_found enum_helpers flat_layout
           Scenario.start Scenario.packet 0 Scenario.env (snd st) 10 11).
  - vm_compute. reflexivity.
  - vm_compute. reflexivity.
Defined.

Lemma C8_block_count_leaves_index_behind_witness :
  let s' := snd (hinata_storage_store_packet (helpers := enum_helpers)
                   (layout := flat_layout)
                   Scenario.start (Some Scenario.packet) 0 Scenario.env) in
  region_block_tree s' 0 = region_block_tree Scenario.start 0
  /\ region_block_count s' 0 = wrap_u64 (region_block_count Scenario.start 0 + 1)
  /\ region_block_count s' 0 <> Z.of_nat (length (region_block_tree s' 0)).
Proof.
  apply (@C8_block_count_leaves_index_behind enum_helpers flat_layout
           Scenario.start (Some Scenario.packet) 0 Scenario.env).
  - vm_compute. reflexivity.
  - vm_compute. reflexivity.
Defined.

End StorageScenario.

(* ===================================================================== *)
(** * Further properties of the code                                      *)
(* ===================================================================== *)

(** ** Task queue: counters, empty queue, cleanup, task ids *)

Section WorkerQueueExtras.
Import Worker.

Lemma queue_add_length_concat q t :
  length (tasks q) = 8%nat ->
  length (concat (tasks (snd (hinata_task_queue_add q t))))
  = S (length (concat (tasks q))).
Proof.
  intros Hl. rewrite tasks_queue_add.
  apply length_concat_alter_snoc. rewrite Hl. apply lane_of_lt.
Qed.

Lemma adds_snoc ops op :
  adds (ops ++ [op]) = match op with QAdd _ => adds ops + 1 | QGet => adds ops end.
Proof. unfold adds. by rewrite foldl_app. Qed.

Lemma adds_bound ops : 0 <= adds ops <= Z.of_nat (length ops).
Proof.
  induction ops as [|op ops IH] using rev_ind; [done|].
  rewrite adds_snoc, length_app. simpl. destruct op; lia.
Qed.

(** One step keeps the counters equal to the number of queued tasks. *)
Lemma apply_queue_op_counters q op :
  length (tasks q) = 8%nat ->
  count q = Z.of_nat (length (concat (tasks q))) ->
  pending_count q = count q ->
  count q < INT_MAX ->
  let q' := apply_queue_op q op in
  length (tasks q') = 8%nat
  /\ count q' = Z.of_nat (length (concat (tasks q')))
  /\ pending_count q' = count q'
  /\ (length (concat (tasks q')) <= S (length (concat (tasks q))))%nat.
Proof.
  intros Hl Hc Hp Hb. unfold INT_MAX in Hb. destruct op as [t|]; cbn [apply_queue_op].
  - pose proof (queue_add_length_concat q t Hl) as Hadd.
    split; [|split; [|split]].
    + rewrite tasks_queue_add, length_alter. done.
    + rewrite Hadd. simpl. rewrite wrap_s32_small by lia. lia.
    + simpl. by rewrite Hp.
    + lia.
  - unfold hinata_task_queue_get.
    destruct (scan_lanes (tasks q)) as [[t lanes']|] eqn:E; simpl.
    + apply scan_lanes_concat_some in E as [E El]. rewrite E in Hc. simpl in Hc.
      split; [by rewrite El|]. split; [|split].
      * rewrite wrap_s32_small by lia. lia.
      * by rewrite Hp.
      * rewrite E. simpl. lia.
    + split; [done|]. split; [done|]. split; [done|lia].
Qed.

Lemma run_queue_ops_counters ops :
  Z.of_nat (length ops) < INT_MAX ->
  let q := run_queue_ops hinata_task_queue_init ops in
  length (tasks q) = 8%nat
  /\ count q = Z.of_nat (length (concat (tasks q)))
  /\ pending_count q = count q
  /\ (length (concat (tasks q)) <= length ops)%nat.
Proof.
  induction ops as [|op ops IH] using rev_ind; intros Hlen.
  - simpl. done.
  - rewrite length_app in Hlen. cbn [length] in Hlen.
    destruct (IH ltac:(lia)) as (Hl & Hc & Hp & Hle).
    unfold run_queue_ops in *. rewrite foldl_app. simpl.
    set (q := foldl apply_queue_op hinata_task_queue_init ops) in *.
    destruct (apply_queue_op_counters q op Hl Hc Hp ltac:(lia)) as (Hl' & Hc' & Hp' & Hle').
    split; [done|]. split; [done|]. split; [done|].
    rewrite length_app. simpl. lia.
Qed.

Lemma run_queue_ops_queued ops :
  Z.of_nat (length ops) < INT_MAX ->
  tasks_queued (run_queue_ops hinata_task_queue_init ops) = adds ops.
Proof.
  induction ops as [|op ops IH] using rev_ind; intros Hlen; [done|].
  rewrite length_app in Hlen. cbn [length] in Hlen.
  unfold run_queue_ops in *. rewrite foldl_app, adds_snoc. simpl.
  pose proof (adds_bound ops) as Hb. unfold INT_MAX in *.
  destruct op as [t|]; simpl.
  - rewrite IH by lia. apply wrap_s64_small. lia.
  - unfold hinata_task_queue_get.
    destruct (scan_lanes _) as [[t lanes']|]; simpl; apply IH; lia.
Qed.

(** X1.  After any sequence of fewer than INT_MAX hinata_task_queue_add
    and hinata_task_queue_get calls on a freshly initialised queue, the
    counters [count] and [pending_count] both equal the number of tasks
    that sit in the eight lanes (so they are never negative: a get on an
    empty queue does not decrement them), and [tasks_queued] equals the
    number of add calls. *)
Theorem queue_counters_match_contents ops :
  Z.of_nat (length ops) < INT_MAX ->
  let q := run_queue_ops hinata_task_queue_init ops in
  count q = Z.of_nat (length (concat (tasks q)))
  /\ pending_count q = Z.of_nat (length (concat (tasks q)))
  /\ length (tasks q) = 8%nat
  /\ tasks_queued q = adds ops.
Proof.
  intros Hlen q.
  destruct (run_queue_ops_counters ops Hlen) as (Hl & Hc & Hp & _).
  fold q in Hl, Hc, Hp.
  split; [done|]. split; [by rewrite Hp|]. split; [done|].
  by apply run_queue_ops_queued.
Qed.

Lemma queue_counters_match_contents_witness :
  let t (i p : Z) :=
    mk_task i HINATA_TASK_TYPE_CUSTOM HINATA_TASK_STATE_PENDING 0 p 4096 0 0 0 0 0 0 3 0 in
  let ops := [QGet; QAdd (t 1 9); QAdd (t 2 0); QGet; QGet; QGet; QAdd (t 3 3)] in
  let q := run_queue_ops hinata_task_queue_init ops in
  count q = Z.of_nat (length (concat (tasks q)))
  /\ pending_count q = Z.of_nat (length (concat (tasks q)))
  /\ length (tasks q) = 8%nat
  /\ tasks_queued q = adds ops.
Proof.
  intros t ops. apply (queue_counters_match_contents ops). vm_compute. reflexivity.
Defined.

(** X2.  hinata_task_queue_get returns NULL exactly when all lanes are
    empty, and then it leaves the queue as it was; otherwise the task it
    returns is the first of the remaining tasks in lane order and the
    queue loses exactly that task. *)
Theorem queue_get_empty_iff q :
  (fst (hinata_task_queue_get q) = None <-> concat (tasks q) = [])
  /\ (concat (tasks q) = [] -> hinata_task_queue_get q = (None, q))
  /\ (forall t q', hinata_task_queue_get q = (Some t, q') ->
        concat (tasks q) = t :: concat (tasks q')).
Proof.
  unfold hinata_task_queue_get.
  destruct (scan_lanes (tasks q)) as [[t lanes']|] eqn:E; simpl.
  - apply scan_lanes_concat_some in E as [E _].
    split; [|split].
    + split; [done|]. by rewrite E.
    + by rewrite E.
    + intros t0 q' [= <- <-]. done.
  - apply scan_lanes_concat_none in E.
    split; [done|]. split; [done|]. by intros t q' [= ].
Qed.

Lemma queue_get_empty_iff_witness :
  hinata_task_queue_get hinata_task_queue_init = (None, hinata_task_queue_init).
Proof.
  apply (proj1 (proj2 (queue_get_empty_iff hinata_task_queue_init))). reflexivity.
Defined.

Lemma cleanup_lane_map freed lane :
  cleanup_lane freed lane
  = freed ++ map (fun t => set_task_state t HINATA_TASK_STATE_CANCELLED) lane.
Proof.
  unfold cleanup_lane. revert freed.
  induction lane as [|t lane IH]; intros freed; simpl; [by rewrite app_nil_r|].
  rewrite IH. by rewrite <- app_assoc.
Qed.

Lemma cleanup_lanes_map freed lanes :
  foldl cleanup_lane freed lanes
  = freed ++ map (fun t => set_task_state t HINATA_TASK_STATE_CANCELLED) (concat lanes).
Proof.
  revert freed. induction lanes as [|lane lanes IH]; intros freed; simpl;
    [by rewrite app_nil_r|].
  rewrite IH, cleanup_lane_map, map_app. by rewrite <- app_assoc.
Qed.

Lemma scan_lanes_all_empty (lanes : list (list hinata_task)) :
  scan_lanes (map (fun _ => []) lanes) = None.
Proof. induction lanes as [|l lanes IH]; simpl; [done|]. by rewrite IH. Qed.

(** X3.  hinata_task_queue_cleanup cancels and frees exactly the tasks
    that were still queued, in the order workers would have received them
    (lane by lane, each lane first in first out); afterwards both counters
    are zero and hinata_task_queue_get finds nothing.  The statistics
    counter tasks_cancelled is not moved. *)
Theorem queue_cleanup_cancels_pending q :
  let r := hinata_task_queue_cleanup q in
  fst r = map (fun t => set_task_state t HINATA_TASK_STATE_CANCELLED)
              (drain (length (concat (tasks q))) q)
  /\ count (snd r) = 0 /\ pending_count (snd r) = 0
  /\ tasks_cancelled (snd r) = tasks_cancelled q
  /\ hinata_task_queue_get (snd r) = (None, snd r).
Proof.
  cbv zeta. unfold hinata_task_queue_cleanup. simpl.
  split; [|split; [done|split; [done|split; [done|]]]].
  - rewrite drain_concat by done. by rewrite cleanup_lanes_map.
  - unfold hinata_task_queue_get. simpl. by rewrite scan_lanes_all_empty.
Qed.

(** *** Task ids *)

Lemma run_ops_snoc pool ops op :
  run_ops pool (ops ++ [op]) = step_op (run_ops pool ops) op.
Proof. unfold run_ops. by rewrite foldl_app. Qed.

Lemma step_op_ids tr op (c0 : Z) :
  0 <= c0 ->
  hinata_task_id_counter (tr_pool tr) = c0 + Z.of_nat (length (tr_created tr)) ->
  c0 + Z.of_nat (length (tr_created tr)) < INT_MAX ->
  map task_id (tr_created tr)
  = map (fun i : nat => c0 + Z.of_nat i) (seq 1 (length (tr_created tr))) ->
  let tr' := step_op tr op in
  hinata_task_id_counter (tr_pool tr') = c0 + Z.of_nat (length (tr_created tr'))
  /\ map task_id (tr_created tr')
     = map (fun i : nat => c0 + Z.of_nat i) (seq 1 (length (tr_created tr')))
  /\ (length (tr_created tr') <= S (length (tr_created tr)))%nat.
Proof.
  intros Hc0 Hctr Hb Hids. unfold INT_MAX in Hb.
  destruct op as [type func data sz flags ok now|]; cbn [step_op].
  - unfold hinata_submit_task, submitted_task, hinata_task_alloc.
    destruct (decide (func = NULL)); simpl.
    { rewrite app_nil_r. split; [done|]. split; [done|lia]. }
    destruct (system_running (tr_pool tr)); simpl.
    2:{ rewrite app_nil_r. split; [done|]. split; [done|lia]. }
    destruct ok; simpl.
    2:{ rewrite app_nil_r. split; [done|]. split; [done|lia]. }
    rewrite length_app. simpl.
    rewrite Hctr. rewrite wrap_s32_small by lia.
    split; [lia|]. split; [|lia].
    rewrite map_app, Hids. simpl.
    replace (length (tr_created tr) + 1)%nat with (S (length (tr_created tr))) by lia.
    rewrite seq_S, map_app. simpl. f_equal. f_equal.
    unfold wrap_u32. rewrite Z.mod_small by lia. lia.
  - destruct (hinata_task_queue_get (task_queue (tr_pool tr))) as [r q'].
    simpl. split; [done|]. split; [done|lia].
Qed.

Lemma run_ops_ids pool ops :
  0 <= hinata_task_id_counter pool ->
  hinata_task_id_counter pool + Z.of_nat (length ops) < INT_MAX ->
  let tr := run_ops pool ops in
  hinata_task_id_counter (tr_pool tr)
  = hinata_task_id_counter pool + Z.of_nat (length (tr_created tr))
  /\ map task_id (tr_created tr)
     = map (fun i : nat => hinata_task_id_counter pool + Z.of_nat i)
           (seq 1 (length (tr_created tr)))
  /\ (length (tr_created tr) <= length ops)%nat.
Proof.
  intros Hc0. induction ops as [|op ops IH] using rev_ind; intros Hb.
  - simpl. split; [lia|done].
  - rewrite length_app in Hb. cbn [length] in Hb.
    destruct (IH ltac:(lia)) as (Hctr & Hids & Hle).
    rewrite run_ops_snoc.
    destruct (step_op_ids (run_ops pool ops) op (hinata_task_id_counter pool)
                Hc0 Hctr ltac:(lia) Hids) as (H1 & H2 & H3).
    split; [done|]. split; [done|]. rewrite length_app. simpl. lia.
Qed.

(** X4.  Starting from a pool whose id counter is c >= 0, any
    interleaving of hinata_submit_task calls and dequeues that stays below
    INT_MAX gives the tasks it creates the ids c+1, c+2, ... in submission
    order: no two tasks share an id, and the counter ends at c plus the
    number of tasks created. *)
Theorem submit_task_ids_sequential pool ops :
  0 <= hinata_task_id_counter pool ->
  hinata_task_id_counter pool + Z.of_nat (length ops) < INT_MAX ->
  let tr := run_ops pool ops in
  map task_id (tr_created tr)
  = map (fun i : nat => hinata_task_id_counter pool + Z.of_nat i)
        (seq 1 (length (tr_created tr)))
  /\ NoDup (map task_id (tr_created tr))
  /\ hinata_task_id_counter (tr_pool tr)
     = hinata_task_id_counter pool + Z.of_nat (length (tr_created tr)).
Proof.
  intros Hc0 Hb tr.
  destruct (run_ops_ids pool ops Hc0 Hb) as (Hctr & Hids & _). fold tr in Hctr, Hids.
  split; [done|]. split; [|done].
  rewrite Hids. apply NoDup_fmap_2; [|apply NoDup_seq].
  intros i j Hij. lia.
Qed.

Lemma submit_task_ids_sequential_witness :
  let pool := mk_pool hinata_task_queue_init 0 41 true in
  let sub f ok := OpSubmit HINATA_TASK_TYPE_CUSTOM f 0 0 0 ok 7 in
  let ops := [sub 4096 true; sub 0 true; OpGet; sub 8192 false; sub 12288 true] in
  let tr := run_ops pool ops in
  map task_id (tr_created tr)
  = map (fun i : nat => hinata_task_id_counter pool + Z.of_nat i)
        (seq 1 (length (tr_created tr)))
  /\ NoDup (map task_id (tr_created tr))
  /\ hinata_task_id_counter (tr_pool tr)
     = hinata_task_id_counter pool + Z.of_nat (length (tr_created tr)).
Proof.
  intros pool sub ops. apply (submit_task_ids_sequential pool ops).
  - vm_compute. discriminate.
  - vm_compute. reflexivity.
Defined.

(** X5.  hinata_submit_task refuses a NULL function with -EINVAL, a
    stopped system with -ENODEV and a failed task allocation with -ENOMEM,
    in that order of precedence and each time without touching the pool;
    otherwise, with the id counter at c (0 <= c < INT_MAX), it returns the
    new task's id c + 1, which is positive, and counts one more task
    queued and distributed. *)
Theorem submit_task_results pool type func data sz flags ok now :
  (func = NULL ->
     hinata_submit_task pool type func data sz flags ok now = (- EINVAL, pool))
  /\ (func <> NULL -> system_running pool = false ->
        hinata_submit_task pool type func data sz flags ok now = (- ENODEV, pool))
  /\ (func <> NULL -> system_running pool = true -> ok = false ->
        hinata_submit_task pool type func data sz flags ok now = (- ENOMEM, pool))
  /\ (func <> NULL -> system_running pool = true -> ok = true ->
      0 <= hinata_task_id_counter pool < INT_MAX ->
      let r := hinata_submit_task pool type func data sz flags ok now in
      fst r = hinata_task_id_counter pool + 1
      /\ 0 < fst r
      /\ hinata_task_id_counter (snd r) = hinata_task_id_counter pool + 1
      /\ tasks_queued (task_queue (snd r))
         = wrap_s64 (tasks_queued (task_queue pool) + 1)
      /\ tasks_distributed (snd r) = wrap_s64 (tasks_distributed pool + 1)).
Proof.
  unfold hinata_submit_task, hinata_task_alloc.
  split; [|split; [|split]].
  - intros ->. by rewrite decide_True.
  - intros Hf Hr. rewrite decide_False by done. by rewrite Hr.
  - intros Hf Hr ->. rewrite !decide_False by done. rewrite Hr. reflexivity.
  - intros Hf Hr -> Hc. unfold INT_MAX in Hc.
    rewrite !decide_False by done. rewrite Hr. simpl.
    rewrite (wrap_s32_small (hinata_task_id_counter pool + 1)) by lia.
    unfold wrap_u32. rewrite Z.mod_small by lia.
    rewrite wrap_s32_small by lia. repeat split; lia.
Qed.

Lemma submit_task_results_witness :
  let pool := mk_pool hinata_task_queue_init 0 0 true in
  hinata_submit_task pool HINATA_TASK_TYPE_BACKUP NULL 0 0 0 true 7 = (- EINVAL, pool)
  /\ fst (hinata_submit_task pool HINATA_TASK_TYPE_BACKUP 4096 0 0 0 true 7) = 1.
Proof.
  intros pool. split.
  - apply (proj1 (submit_task_results pool HINATA_TASK_TYPE_BACKUP NULL 0 0 0 true 7)).
    reflexivity.
  - assert (Hc : 0 <= hinata_task_id_counter pool < INT_MAX) by (unfold INT_MAX; simpl; lia).
    destruct (proj2 (proj2 (proj2
                (submit_task_results pool HINATA_TASK_TYPE_BACKUP 4096 0 0 0 true 7)))
                ltac:(discriminate) eq_refl eq_refl Hc) as [H _].
    exact H.
Defined.

End WorkerQueueExtras.

(** ** Memory manager: allocation, release, reallocation, accounting *)

Section MemoryAccounting.
Import Memory.

Lemma wrap_u64_sub_s64 a b :
  wrap_u64 (wrap_s64 a - wrap_s64 b) = wrap_u64 (a - b).
Proof.
  unfold wrap_u64, wrap_s64.
  replace ((a + 2^63) mod 2^64 - 2^63 - ((b + 2^63) mod 2^64 - 2^63))
    with ((a + 2^63) mod 2^64 - (b + 2^63) mod 2^64) by lia.
  rewrite <- Zminus_mod. f_equal. lia.
Qed.

Lemma wrap_u64_idem_add a b : wrap_u64 (wrap_u64 a + b) = wrap_u64 (a + b).
Proof. unfold wrap_u64. by rewrite Zplus_mod_idemp_l. Qed.

(** What a successful hinata_malloc leaves behind. *)
Lemma malloc_success s size env p s1 :
  hinata_malloc s size env = (p, s1) -> p <> NULL ->
  memory_initialized s = true /\ size <> 0
  /\ size <= max_single_alloc (limits s)
  /\ wrap_u64 (current_usage s + size) <= max_total_size (limits s)
  /\ exists ps peak,
       s1 = mk_ctx true ps
              (if enable_tracking (config s)
               then mk_block p size HINATA_MEMORY_FLAG_TRACKED (env_now env)
                             (env_now env) 1 :: blocks_list s
               else blocks_list s)
              (wrap_s64 (total_allocated s + size)) (total_freed s) peak
              (wrap_s64 (allocation_count s + 1)) (free_count s)
              (leak_count s) (oom_count s) (limits s) (config s)
              (<[p := resize (Z.to_nat size) 0 (env_garbage env)]> (heap s))
       /\ ps = (if enable_pooling (config s)
                then snd (hinata_memory_pool_alloc (pools s) size (env_cache_alloc env))
                else pools s).
Proof.
  unfold hinata_malloc.
  destruct (memory_initialized s) eqn:Hinit; simpl; [|by intros [= <- <-]].
  case_bool_decide as Hz; [by intros [= <- <-]|].
  case_decide as Hbig; [by intros [= <- <-]|].
  case_decide as Htot; [by intros [= <- <-]|].
  destruct (if enable_pooling (config s) then _ else _) as [p_pool ps] eqn:Epool.
  case_decide as Hnull; [by intros [= <- <-]|].
  destruct (enable_tracking (config s) && negb (env_block_ok env)) eqn:Etr;
    [by intros [= <- <-]|].
  intros [= <- <-] _.
  split; [done|]. split; [done|]. split; [lia|]. split; [lia|].
  eexists ps, _. split.
  - unfold set_heap, set_alloc_stats, set_blocks, set_pools. simpl.
    rewrite Hinit. reflexivity.
  - destruct (enable_pooling (config s)); [by rewrite Epool|by injection Epool].
Qed.

(** A failed hinata_malloc moves nothing but the OOM counter and, on the
    path where tracking fails after a pool allocation, the pool counters. *)
Lemma malloc_failure s size env s1 :
  hinata_malloc s size env = (NULL, s1) ->
  blocks_list s1 = blocks_list s /\ heap s1 = heap s
  /\ total_allocated s1 = total_allocated s /\ total_freed s1 = total_freed s
  /\ allocation_count s1 = allocation_count s /\ free_count s1 = free_count s
  /\ limits s1 = limits s /\ config s1 = config s
  /\ memory_initialized s1 = memory_initialized s.
Proof.
  unfold hinata_malloc.
  destruct (negb (memory_initialized s) || bool_decide (size = 0));
    [by intros [= <-]|].
  case_decide; [by intros [= <-]|].
  case_decide; [by intros [= <-]|].
  destruct (if enable_pooling (config s) then _ else _) as [p_pool ps].
  case_decide; [by intros [= <-]|].
  destruct (enable_tracking (config s) && negb (env_block_ok env)).
  - intros [= <-]. by destruct (enable_pooling (config s)).
  - intros [= Hp _]. done.
Qed.

Lemma block_find_none bs p now :
  (forall b, b ∈ bs -> blk_ptr b <> p) ->
  hinata_memory_block_find bs p now = (None, bs).
Proof.
  induction bs as [|b bs IH]; intros Hno; simpl; [done|].
  rewrite decide_False by (apply Hno, elem_of_cons; by left).
  rewrite IH; [done|]. intros b' Hb'. apply Hno, elem_of_cons. by right.
Qed.

Lemma block_find_head b bs now :
  hinata_memory_block_find (b :: bs) (blk_ptr b) now
  = (Some (mk_block (blk_ptr b) (blk_size b) (blk_flags b) (blk_alloc_time b)
                    now (wrap_s32 (blk_access_count b + 1))),
     mk_block (blk_ptr b) (blk_size b) (blk_flags b) (blk_alloc_time b)
              now (wrap_s32 (blk_access_count b + 1)) :: bs).
Proof. simpl. by rewrite decide_True. Qed.

(** The lookup changes access statistics only: addresses and sizes of
    the tracked blocks stay, and a block it returns is tracked for the
    address asked for. *)
Lemma block_find_shape bs p now :
  map blk_ptr (snd (hinata_memory_block_find bs p now)) = map blk_ptr bs
  /\ map blk_size (snd (hinata_memory_block_find bs p now)) = map blk_size bs
  /\ (forall b, fst (hinata_memory_block_find bs p now) = Some b ->
        blk_ptr b = p /\ b ∈ snd (hinata_memory_block_find bs p now))
  /\ (fst (hinata_memory_block_find bs p now) = None ->
        forall b, b ∈ bs -> blk_ptr b <> p).
Proof.
  induction bs as [|b bs IH]; simpl.
  - split; [done|]. split; [done|]. split; [done|].
    intros _ b Hb. by apply elem_of_nil in Hb.
  - case_decide as Hp; simpl.
    + split; [done|]. split; [done|]. split; [|done].
      intros b' [= <-]. split; [done|]. apply elem_of_cons. by left.
    + destruct (hinata_memory_block_find bs p now) as [r rest] eqn:E. simpl in *.
      destruct IH as (H1 & H2 & H3 & H4).
      split; [by rewrite H1|]. split; [by rewrite H2|]. split.
      * intros b' Hb'. destruct (H3 b' Hb') as [? ?]. split; [done|].
        apply elem_of_cons. by right.
      * intros Hr b' [->|Hb']%elem_of_cons; [done|]. by apply H4.
Qed.

Lemma block_destroy_head b bs :
  hinata_memory_block_destroy (b :: bs) (blk_ptr b) = bs.
Proof. simpl. by rewrite decide_True. Qed.

(** Allocation followed by release of the same pointer. *)
Lemma malloc_then_free s size env p s1 now :
  enable_tracking (config s) = true ->
  hinata_malloc s size env = (p, s1) -> p <> NULL ->
  let s2 := hinata_free s1 p now in
  blocks_list s2 = blocks_list s
  /\ hinata_get_allocated_memory s2 = hinata_get_allocated_memory s
  /\ heap s2 !! p = None
  /\ allocation_count s2 = wrap_s64 (allocation_count s + 1)
  /\ free_count s2 = wrap_s64 (free_count s + 1)
  /\ total_freed s2 = wrap_s64 (total_freed s + size).
Proof.
  intros Htr Hm Hp.
  destruct (malloc_success _ _ _ _ _ Hm Hp)
    as (Hinit & Hsz & _ & _ & ps & peak & -> & _).
  rewrite Htr. cbv zeta. unfold hinata_free. simpl.
  rewrite bool_decide_eq_false_2 by done. rewrite Htr. simpl.
  rewrite decide_True by done. simpl. rewrite decide_True by done.
  assert (Hheap : forall h : gmap Z (list Z), delete p h !! p = None)
    by (intros h; apply lookup_delete_eq).
  destruct (enable_pooling (config s)); simpl;
    (split; [done|]); unfold hinata_get_allocated_memory; simpl; rewrite Hinit; simpl;
    (split; [rewrite wrap_u64_sub_s64; f_equal; lia|]); (split; [apply Hheap|]); done.
Qed.

(** X6.  With tracking enabled, freeing the pointer a successful
    hinata_malloc has just returned undoes the allocation in the
    allocator's books: the tracking list is as before, the accounted
    usage reported by hinata_get_allocated_memory is as before, the buffer
    is gone from the heap, and allocation_count and free_count have each
    moved by one. *)
Theorem malloc_free_round_trip s size env p s1 now :
  enable_tracking (config s) = true ->
  hinata_malloc s size env = (p, s1) -> p <> NULL ->
  let s2 := hinata_free s1 p now in
  blocks_list s2 = blocks_list s
  /\ hinata_get_allocated_memory s2 = hinata_get_allocated_memory s
  /\ heap s2 !! p = None
  /\ allocation_count s2 = wrap_s64 (allocation_count s + 1)
  /\ free_count s2 = wrap_s64 (free_count s + 1)
  /\ total_freed s2 = wrap_s64 (total_freed s + size).
Proof. apply malloc_then_free. Qed.

Lemma malloc_free_round_trip_witness :
  let env := mk_env 4096 8192 12288 true [1; 2; 3] 5 in
  let s2 := hinata_free (snd (hinata_malloc initial_context 100 env)) 4096 6 in
  blocks_list s2 = blocks_list initial_context
  /\ hinata_get_allocated_memory s2 = hinata_get_allocated_memory initial_context
  /\ heap s2 !! 4096 = None
  /\ allocation_count s2 = wrap_s64 (allocation_count initial_context + 1)
  /\ free_count s2 = wrap_s64 (free_count initial_context + 1)
  /\ total_freed s2 = wrap_s64 (total_freed initial_context + 100).
Proof.
  intros env.
  apply (malloc_free_round_trip initial_context 100 env 4096
           (snd (hinata_malloc initial_context 100 env)) 6).
  - reflexivity.
  - vm_compute. reflexivity.
  - discriminate.
Defined.


Lemma free_untracked s p now :
  (forall b, b ∈ blocks_list s -> blk_ptr b <> p) ->
  hinata_free s p now = s \/ hinata_free s p now = set_heap s (delete p (heap s)).
Proof.
  intros Hno. unfold hinata_free.
  destruct (negb (memory_initialized s) || bool_decide (p = NULL)); [by left|].
  right. destruct (enable_tracking (config s)); [|done].
  by rewrite block_find_none.
Qed.

(** X7.  hinata_free on a pointer that has no tracking block moves no
    counter: the tracking list, the pools, total_freed, free_count and the
    accounted usage stay as they are.  In particular a second
    hinata_free of a pointer that was allocated and freed once is not
    counted a second time. *)
Theorem free_untracked_not_counted :
  (forall s p now,
      (forall b, b ∈ blocks_list s -> blk_ptr b <> p) ->
      let s' := hinata_free s p now in
      blocks_list s' = blocks_list s /\ pools s' = pools s
      /\ total_freed s' = total_freed s /\ free_count s' = free_count s
      /\ hinata_get_allocated_memory s' = hinata_get_allocated_memory s)
  /\ (forall s size env p s1 now now',
        enable_tracking (config s) = true ->
        (forall b, b ∈ blocks_list s -> blk_ptr b <> p) ->
        hinata_malloc s size env = (p, s1) -> p <> NULL ->
        let s2 := hinata_free s1 p now in
        let s3 := hinata_free s2 p now' in
        blocks_list s3 = blocks_list s2 /\ pools s3 = pools s2
        /\ total_freed s3 = total_freed s2 /\ free_count s3 = free_count s2
        /\ hinata_get_allocated_memory s3 = hinata_get_allocated_memory s2).
Proof.
  assert (H : forall s p now,
             (forall b, b ∈ blocks_list s -> blk_ptr b <> p) ->
             let s' := hinata_free s p now in
             blocks_list s' = blocks_list s /\ pools s' = pools s
             /\ total_freed s' = total_freed s /\ free_count s' = free_count s
             /\ hinata_get_allocated_memory s' = hinata_get_allocated_memory s).
  { intros s p now Hno. cbv zeta.
    destruct (free_untracked s p now Hno) as [-> | ->]; done. }
  split; [exact H|].
  intros s size env p s1 now now' Htr Hno Hm Hp s2 s3.
  apply H. subst s2.
  destruct (malloc_then_free s size env p s1 now Htr Hm Hp) as (-> & _). done.
Qed.

Lemma free_untracked_not_counted_witness :
  let env := mk_env 4096 8192 12288 true [1; 2; 3] 5 in
  let s2 := hinata_free (snd (hinata_malloc initial_context 100 env)) 4096 6 in
  let s3 := hinata_free s2 4096 7 in
  blocks_list s3 = blocks_list s2 /\ pools s3 = pools s2
  /\ total_freed s3 = total_freed s2 /\ free_count s3 = free_count s2
  /\ hinata_get_allocated_memory s3 = hinata_get_allocated_memory s2.
Proof.
  intros env.
  apply (proj2 free_untracked_not_counted initial_context 100 env 4096
           (snd (hinata_malloc initial_context 100 env)) 6 7).
  - reflexivity.
  - intros b Hb. vm_compute in Hb. by apply elem_of_nil in Hb.
  - vm_compute. reflexivity.
  - discriminate.
Defined.

Lemma pool_alloc_result ps size obj :
  fst (hinata_memory_pool_alloc ps size obj) = NULL
  \/ fst (hinata_memory_pool_alloc ps size obj) = obj.
Proof.
  induction ps as [|p ps IH]; simpl; [by left|].
  case_decide.
  - case_decide; [by left|by right].
  - destruct (hinata_memory_pool_alloc ps size obj) as [r rest]. done.
Qed.

(** X8.  hinata_check_memory_limit predicts hinata_malloc on an
    initialised allocator: when it reports an error for a non-zero size,
    hinata_malloc of that size returns NULL and only counts an OOM; when it
    reports 0 and the kernel delivers (slab cache, kmalloc and vmalloc
    return memory and the tracking block can be allocated),
    hinata_malloc succeeds.  The error is -E2BIG exactly for a size above
    the single-allocation cap. *)
Theorem check_memory_limit_predicts_malloc s size env :
  memory_initialized s = true -> size <> 0 ->
  (hinata_check_memory_limit s size <> 0 ->
     hinata_malloc s size env = (NULL, inc_oom s))
  /\ (hinata_check_memory_limit s size = 0 ->
      env_cache_alloc env <> NULL -> env_kmalloc env <> NULL ->
      env_vmalloc env <> NULL -> env_block_ok env = true ->
      fst (hinata_malloc s size env) <> NULL)
  /\ (hinata_check_memory_limit s size = - E2BIG <->
      size > max_single_alloc (limits s)).
Proof.
  intros Hinit Hsz. unfold hinata_check_memory_limit, hinata_malloc.
  rewrite Hinit. simpl. rewrite bool_decide_eq_false_2 by done.
  split; [|split].
  - case_decide; [done|]. case_decide; [done|]. done.
  - case_decide; [by unfold E2BIG|]. case_decide; [by unfold ENOMEM|].
    intros _ Hc Hk Hv Hb.
    pose proof (pool_alloc_result (pools s) size (env_cache_alloc env)) as Hpool.
    destruct (enable_pooling (config s)).
    + destruct (hinata_memory_pool_alloc (pools s) size (env_cache_alloc env))
        as [p_pool ps]. simpl in Hpool.
      rewrite Hb, andb_false_r.
      destruct Hpool as [-> | ->]; repeat case_decide; simpl; congruence.
    + rewrite Hb, andb_false_r. repeat case_decide; simpl; congruence.
  - case_decide; [done|]. case_decide; unfold E2BIG, ENOMEM; split; intros; lia.
Qed.

Lemma check_memory_limit_predicts_malloc_witness :
  let env := mk_env 4096 8192 12288 true [] 5 in
  hinata_malloc initial_context (HINATA_MEMORY_MAX_SINGLE + 1) env
  = (NULL, inc_oom initial_context)
  /\ fst (hinata_malloc initial_context 100 env) <> NULL.
Proof.
  intros env. split.
  - apply (proj1 (check_memory_limit_predicts_malloc initial_context
                    (HINATA_MEMORY_MAX_SINGLE + 1) env eq_refl ltac:(discriminate))).
    vm_compute. discriminate.
  - apply (proj1 (proj2 (check_memory_limit_predicts_malloc initial_context
                    100 env eq_refl ltac:(discriminate))));
      [vm_compute; reflexivity|discriminate|discriminate|discriminate|reflexivity].
Defined.

(** A second lookup of the same address finds the block again, with the
    size the first lookup saw. *)
Lemma block_find_again bs0 p now b bs now' :
  hinata_memory_block_find bs0 p now = (Some b, bs) ->
  exists b', hinata_memory_block_find bs p now'
             = (Some b', snd (hinata_memory_block_find bs p now'))
             /\ blk_size b' = blk_size b /\ blk_ptr b' = p
             /\ map blk_size (hinata_memory_block_destroy
                                (snd (hinata_memory_block_find bs p now')) p)
                = map blk_size (hinata_memory_block_destroy bs0 p).
Proof.
  revert b bs. induction bs0 as [|b0 bs0 IH]; intros b bs; simpl; [done|].
  case_decide as Hp.
  - intros [= <- <-]. simpl. rewrite decide_True by done. simpl.
    eexists. split; [reflexivity|]. simpl. rewrite decide_True by done. done.
  - destruct (hinata_memory_block_find bs0 p now) as [r rest] eqn:E.
    intros [= -> <-]. destruct (IH b rest eq_refl) as (b' & Hf & Hs & Hq & Hd).
    simpl. rewrite decide_False by done. rewrite Hf. simpl.
    eexists. split; [reflexivity|]. simpl. rewrite decide_False by done.
    simpl. by rewrite Hd.
Qed.

Lemma memcpy_take (n : Z) (src dst : list Z) :
  (Z.to_nat n <= length src)%nat ->
  take (Z.to_nat n) (memcpy n src dst) = take (Z.to_nat n) src.
Proof.
  intros Hl. unfold memcpy.
  rewrite take_app_le by (rewrite length_take; lia).
  rewrite take_take. f_equal. lia.
Qed.

Lemma memcpy_length (n : Z) (src dst : list Z) :
  (Z.to_nat n <= length dst)%nat -> length (memcpy n src dst) = length dst.
Proof.
  intros Hl. unfold memcpy. rewrite length_app, length_drop, length_take. lia.
Qed.

(** X9.  hinata_realloc of a tracked buffer to a new non-zero size, when
    the allocation of the new buffer succeeds at a different address:
    the new buffer has the requested size and its first
    min(old size, new size) bytes are those of the old buffer; the old
    buffer is released; and the accounted usage has moved by the new size
    minus the old size. *)
Theorem realloc_keeps_contents s p size env nf nfree b bs old q s' :
  enable_tracking (config s) = true -> p <> NULL -> size <> 0 ->
  hinata_memory_block_find (blocks_list s) p nf = (Some b, bs) ->
  heap s !! p = Some old -> Z.of_nat (length old) = blk_size b ->
  hinata_realloc s p size env nf nfree = (q, s') -> q <> NULL -> q <> p ->
  exists new,
    heap s' !! q = Some new
    /\ length new = Z.to_nat size
    /\ take (Z.to_nat (Z.min (blk_size b) size)) new
       = take (Z.to_nat (Z.min (blk_size b) size)) old
    /\ heap s' !! p = None
    /\ hinata_get_allocated_memory s'
       = wrap_u64 (hinata_get_allocated_memory s + size - blk_size b).
Proof.
  intros Htr Hp Hsz Hfind Hold Hlen. unfold hinata_realloc.
  rewrite decide_False by done. rewrite decide_False by done.
  rewrite Htr, Hfind.
  destruct (hinata_malloc (set_blocks s bs) size env) as [q0 s1] eqn:Em.
  case_decide as Hq0; [by intros [= <- <-]|].
  intros [= -> <-] Hq Hqp.
  destruct (malloc_success _ _ _ _ _ Em Hq)
    as (Hinit & _ & _ & _ & ps & peak & -> & _).
  simpl in Hinit. simpl. rewrite Htr.
  destruct (block_find_again _ _ _ _ _ nfree Hfind) as (b' & Hf2 & Hs2 & Hp2 & _).
  set (fresh := resize (Z.to_nat size) 0 (env_garbage env)).
  assert (Hfresh : length fresh = Z.to_nat size) by apply length_resize.
  (* the buffer after the copy *)
  set (new := if decide (blk_size b > 0)
              then memcpy (Z.min (blk_size b) size) old fresh else fresh).
  assert (Hnewlen : length new = Z.to_nat size).
  { subst new. case_decide; [|done]. rewrite memcpy_length; [done|]. lia. }
  assert (Hnewtake : take (Z.to_nat (Z.min (blk_size b) size)) new
                     = take (Z.to_nat (Z.min (blk_size b) size)) old).
  { subst new. case_decide.
    - apply memcpy_take. lia.
    - replace (Z.to_nat (Z.min (blk_size b) size)) with 0%nat by lia. done. }
  exists new.
  (* release of the old buffer *)
  assert (Hfree : forall h : gmap Z (list Z),
             h !! q = Some new ->
             let s2 := mk_ctx true ps
                         (mk_block q size HINATA_MEMORY_FLAG_TRACKED (env_now env)
                                   (env_now env) 1 :: bs)
                         (wrap_s64 (total_allocated s + size)) (total_freed s) peak
                         (wrap_s64 (allocation_count s + 1)) (free_count s)
                         (leak_count s) (oom_count s) (limits s) (config s) h in
             heap (hinata_free s2 p nfree) !! q = Some new
             /\ heap (hinata_free s2 p nfree) !! p = None
             /\ hinata_get_allocated_memory (hinata_free s2 p nfree)
                = wrap_u64 (hinata_get_allocated_memory s + size - blk_size b)).
  { intros h Hh. cbv zeta. unfold hinata_free. simpl.
    rewrite bool_decide_eq_false_2 by done. rewrite Htr. simpl.
    rewrite decide_False by done. rewrite Hf2. simpl.
    assert (Hq' : delete p h !! q = Some new) by (by rewrite lookup_delete_ne).
    assert (Hp' : delete p h !! p = None) by apply lookup_delete_eq.
    assert (Hu : wrap_u64 (wrap_s64 (total_allocated s + size)
                           - wrap_s64 (total_freed s + blk_size b'))
                 = wrap_u64 (wrap_u64 (total_allocated s - total_freed s)
                             + size - blk_size b)).
    { rewrite wrap_u64_sub_s64, Hs2. unfold wrap_u64.
      replace (total_allocated s + size - (total_freed s + blk_size b))
        with ((total_allocated s - total_freed s) + (size - blk_size b)) by lia.
      replace ((total_allocated s - total_freed s) mod 2^64 + size - blk_size b)
        with ((total_allocated s - total_freed s) mod 2^64 + (size - blk_size b)) by lia.
      by rewrite Zplus_mod_idemp_l. }
    unfold hinata_get_allocated_memory. rewrite Hinit.
    destruct (enable_pooling (config s)); simpl; done. }
  unfold new in *. clear new.
  destruct (decide (blk_size b > 0)) as [Hpos|Hpos].
  - destruct (Hfree (alter (memcpy (Z.min (blk_size b) size)
                              (default [] (<[q := fresh]> (heap s) !! p)))
                           q (<[q := fresh]> (heap s)))) as (H1 & H2 & H3).
    { rewrite lookup_alter_eq, lookup_insert_eq. simpl.
      rewrite lookup_insert_ne by done. rewrite Hold. done. }
    unfold set_heap. simpl. done.
  - destruct (Hfree (<[q := fresh]> (heap s))) as (H1 & H2 & H3);
      [apply lookup_insert_eq|]. done.
Qed.

Lemma realloc_keeps_contents_witness :
  let env1 := mk_env 4096 0 0 true [1; 2; 3; 4] 5 in
  let s := snd (hinata_malloc initial_context 4 env1) in
  let env2 := mk_env 8192 0 0 true [9; 9; 9; 9; 9; 9; 9; 9] 6 in
  let b := mk_block 4096 4 HINATA_MEMORY_FLAG_TRACKED 5 7 2 in
  let s' := snd (hinata_realloc s 4096 8 env2 7 8) in
  exists new,
    heap s' !! 8192 = Some new
    /\ length new = Z.to_nat 8
    /\ take (Z.to_nat (Z.min (blk_size b) 8)) new
       = take (Z.to_nat (Z.min (blk_size b) 8)) [1; 2; 3; 4]
    /\ heap s' !! 4096 = None
    /\ hinata_get_allocated_memory s'
       = wrap_u64 (hinata_get_allocated_memory s + 8 - blk_size b).
Proof.
  intros env1 s env2 b s'.
  apply (realloc_keeps_contents s 4096 8 env2 7 8 b [b] [1; 2; 3; 4] 8192 s').
  - reflexivity.
  - discriminate.
  - discriminate.
  - vm_compute. reflexivity.
  - vm_compute. reflexivity.
  - reflexivity.
  - vm_compute. reflexivity.
  - discriminate.
  - discriminate.
Defined.

(** X10.  When hinata_realloc of a non-NULL pointer to a non-zero size
    returns NULL, the old buffer is untouched: the heap is as before, the
    tracking list holds the same addresses and sizes, and neither
    total_allocated nor total_freed has moved. *)
Theorem realloc_failure_keeps_old s p size env nf nfree s' :
  p <> NULL -> size <> 0 ->
  hinata_realloc s p size env nf nfree = (NULL, s') ->
  heap s' = heap s
  /\ map blk_ptr (blocks_list s') = map blk_ptr (blocks_list s)
  /\ map blk_size (blocks_list s') = map blk_size (blocks_list s)
  /\ total_allocated s' = total_allocated s
  /\ total_freed s' = total_freed s.
Proof.
  intros Hp Hsz. unfold hinata_realloc.
  rewrite decide_False by done. rewrite decide_False by done.
  set (f := if enable_tracking (config s) then _ else _).
  assert (Hf : map blk_ptr (snd f) = map blk_ptr (blocks_list s)
               /\ map blk_size (snd f) = map blk_size (blocks_list s)).
  { subst f. destruct (enable_tracking (config s)); [|done].
    destruct (block_find_shape (blocks_list s) p nf) as (H1 & H2 & _). done. }
  destruct f as [found bs]. simpl in Hf. destruct Hf as [Hf1 Hf2].
  destruct (hinata_malloc (set_blocks s bs) size env) as [q s1] eqn:Em.
  case_decide as Hq; [|by intros [= ? _]].
  subst q. intros [= <-].
  destruct (malloc_failure _ _ _ _ Em) as (Hb & Hh & Hta & Htf & _).
  simpl in *. rewrite Hb, Hh, Hta, Htf. done.
Qed.

Lemma realloc_failure_keeps_old_witness :
  let env1 := mk_env 4096 0 0 true [1; 2; 3; 4] 5 in
  let s := snd (hinata_malloc initial_context 4 env1) in
  let env2 := mk_env 0 0 0 true [] 6 in
  let s' := snd (hinata_realloc s 4096 8 env2 7 8) in
  heap s' = heap s
  /\ map blk_ptr (blocks_list s') = map blk_ptr (blocks_list s)
  /\ map blk_size (blocks_list s') = map blk_size (blocks_list s)
  /\ total_allocated s' = total_allocated s
  /\ total_freed s' = total_freed s.
Proof.
  intros env1 s env2 s'.
  apply (realloc_failure_keeps_old s 4096 8 env2 7 8 s').
  - discriminate.
  - discriminate.
  - vm_compute. reflexivity.
Defined.

(** X11.  With tracking disabled the allocator does not know the size
    of a buffer: hinata_free of a pointer hinata_malloc returned credits
    nothing back (total_freed and free_count stay, the accounted usage
    stays raised by the size), and hinata_realloc copies no byte of the
    old buffer into the new one. *)
Theorem no_tracking_no_credit :
  (forall s size env p s1 now,
      enable_tracking (config s) = false ->
      hinata_malloc s size env = (p, s1) -> p <> NULL ->
      let s2 := hinata_free s1 p now in
      total_freed s2 = total_freed s /\ free_count s2 = free_count s
      /\ hinata_get_allocated_memory s2
         = wrap_u64 (hinata_get_allocated_memory s + size))
  /\ (forall s p size env nf nfree q s',
        enable_tracking (config s) = false -> p <> NULL -> size <> 0 ->
        hinata_realloc s p size env nf nfree = (q, s') -> q <> NULL -> q <> p ->
        heap s' !! q = Some (resize (Z.to_nat size) 0 (env_garbage env))).
Proof.
  split.
  - intros s size env p s1 now Htr Hm Hp.
    destruct (malloc_success _ _ _ _ _ Hm Hp)
      as (Hinit & _ & _ & _ & ps & peak & -> & _).
    rewrite Htr. cbv zeta. unfold hinata_free. simpl.
    rewrite bool_decide_eq_false_2 by done. rewrite Htr. simpl.
    split; [done|]. split; [done|].
    unfold hinata_get_allocated_memory. simpl. rewrite Hinit. simpl.
    unfold wrap_u64, wrap_s64.
    rewrite Zplus_mod_idemp_l.
    replace ((total_allocated s + size + 2^63) mod 2^64 - 2^63 - total_freed s)
      with ((total_allocated s + size + 2^63) mod 2^64 + (- 2^63 - total_freed s)) by lia.
    rewrite Zplus_mod_idemp_l. f_equal. lia.
  - intros s p size env nf nfree q s' Htr Hp Hsz. unfold hinata_realloc.
    rewrite decide_False by done. rewrite decide_False by done. rewrite Htr.
    destruct (hinata_malloc (set_blocks s (blocks_list s)) size env) as [q0 s1] eqn:Em.
    case_decide as Hq0; [by intros [= <- <-]|].
    intros [= -> <-] Hq Hqp.
    destruct (malloc_success _ _ _ _ _ Em Hq)
      as (Hinit & _ & _ & _ & ps & peak & -> & _).
    simpl in *. rewrite Htr.
    unfold hinata_free. simpl. rewrite bool_decide_eq_false_2 by done.
    rewrite Htr. simpl. rewrite lookup_delete_ne by done. apply lookup_insert_eq.
Qed.

Lemma no_tracking_no_credit_witness :
  let s := mk_ctx true (pools initial_context) [] 0 0 0 0 0 0 0
                  (limits initial_context) (mk_config false true true true)
                  gmap_empty in
  let env := mk_env 4096 0 0 true [1; 2; 3] 5 in
  let s1 := snd (hinata_malloc s 3 env) in
  let s2 := hinata_free s1 4096 6 in
  let env' := mk_env 8192 0 0 true [7; 7; 7; 7] 7 in
  (total_freed s2 = total_freed s /\ free_count s2 = free_count s
   /\ hinata_get_allocated_memory s2 = wrap_u64 (hinata_get_allocated_memory s + 3))
  /\ heap (snd (hinata_realloc s1 4096 4 env' 8 9)) !! 8192
     = Some (resize (Z.to_nat 4) 0 (env_garbage env')).
Proof.
  intros s env s1 s2 env'. split.
  - apply (proj1 no_tracking_no_credit s 3 env 4096 s1 6).
    + reflexivity.
    + vm_compute. reflexivity.
    + discriminate.
  - apply (proj2 no_tracking_no_credit s1 4096 4 env' 8 9 8192
             (snd (hinata_realloc s1 4096 4 env' 8 9))).
    + reflexivity.
    + discriminate.
    + discriminate.
    + vm_compute. reflexivity.
    + discriminate.
    + discriminate.
Defined.

(** X12.  hinata_memory_reset_stats zeroes total_allocated and
    total_freed but keeps the tracking list.  Freeing a block that was
    allocated before the reset then makes total_freed exceed
    total_allocated: the accounted usage wraps around to 2^64 minus the
    block size, and every hinata_malloc of fewer bytes than that block is
    refused. *)
Theorem reset_stats_then_free_wraps s p now b size env :
  memory_initialized s = true -> enable_tracking (config s) = true ->
  p <> NULL ->
  fst (hinata_memory_block_find (blocks_list s) p now) = Some b ->
  0 < blk_size b < 2^63 ->
  let s1 := hinata_memory_reset_stats s in
  let s2 := hinata_free s1 p now in
  hinata_get_allocated_memory s1 = 0
  /\ hinata_get_allocated_memory s2 = 2^64 - blk_size b
  /\ (0 <= size < blk_size b -> max_total_size (limits s) < 2^63 ->
      fst (hinata_malloc s2 size env) = NULL).
Proof.
  intros Hinit Htr Hp Hfind Hb. cbv zeta.
  unfold hinata_memory_reset_stats. rewrite Hinit. simpl.
  split; [unfold hinata_get_allocated_memory; simpl; by rewrite ?Hinit|].
  unfold hinata_free. simpl. rewrite ?Hinit. simpl.
  rewrite bool_decide_eq_false_2 by done. rewrite Htr.
  destruct (hinata_memory_block_find (blocks_list s) p now) as [found bs].
  simpl in Hfind. subst found.
  assert (Hu : wrap_u64 (0 - wrap_s64 (0 + blk_size b)) = 2^64 - blk_size b).
  { rewrite wrap_s64_small by lia. unfold wrap_u64.
    replace (0 - (0 + blk_size b)) with (- blk_size b) by lia.
    rewrite Z_mod_nz_opp_full; rewrite Z.mod_small; lia. }
  split.
  - unfold hinata_get_allocated_memory.
    destruct (enable_pooling (config s)); simpl; rewrite ?Hinit; simpl; exact Hu.
  - intros Hsz Hmax. unfold hinata_malloc.
    assert (Hcur : forall x, x = wrap_u64 (0 - wrap_s64 (0 + blk_size b)) ->
                     wrap_u64 (x + size) > max_total_size (limits s)).
    { intros x ->. rewrite Hu. unfold wrap_u64. rewrite Z.mod_small by lia. lia. }
    destruct (enable_pooling (config s)); simpl; rewrite ?Hinit; simpl;
      (case_bool_decide; [done|]); (case_decide; [done|]);
      (rewrite decide_True; [done|]); by apply Hcur.
Qed.

Lemma reset_stats_then_free_wraps_witness :
  let env := mk_env 4096 0 0 true [] 5 in
  let s := snd (hinata_malloc initial_context 100 env) in
  let s1 := hinata_memory_reset_stats s in
  let s2 := hinata_free s1 4096 6 in
  hinata_get_allocated_memory s1 = 0
  /\ hinata_get_allocated_memory s2 = 2^64 - 100
  /\ fst (hinata_malloc s2 10 env) = NULL.
Proof.
  intros env s s1 s2.
  destruct (reset_stats_then_free_wraps s 4096 6
              (mk_block 4096 100 HINATA_MEMORY_FLAG_TRACKED 5 6 2) 10 env)
    as (H1 & H2 & H3).
  - reflexivity.
  - reflexivity.
  - discriminate.
  - vm_compute. reflexivity.
  - simpl. lia.
  - split; [exact H1|]. split; [exact H2|].
    apply H3; [simpl; lia|vm_compute; reflexivity].
Defined.

(** X13.  hinata_memory_pool_alloc serves a request from the first pool
    whose block size is at least the request: with a delivering slab cache
    exactly that pool's counters move (allocated_count, total_count,
    allocations by one, bytes_allocated by the pool's block size, not by
    the request), every other pool is untouched; when no pool is large
    enough it returns NULL and touches nothing, which for the eight pools
    of hinata_memory_init is the case for every request above 4096
    bytes. *)
Theorem pool_alloc_first_fit :
  (forall ps size obj (i : nat) p,
      obj <> NULL ->
      ps !! i = Some p -> pool_size p >= size ->
      (forall (j : nat) q, (j < i)%nat -> ps !! j = Some q -> pool_size q < size) ->
      hinata_memory_pool_alloc ps size obj
      = (obj,
         <[i := mk_mpool (pool_size p)
                         (wrap_s32 (pool_allocated_count p + 1))
                         (wrap_s32 (pool_total_count p + 1))
                         (wrap_u64 (pool_allocations p + 1))
                         (wrap_u64 (pool_bytes_allocated p + pool_size p))
                         (pool_frees p) (pool_bytes_freed p)]> ps))
  /\ (forall ps size obj,
        (forall q, q ∈ ps -> pool_size q < size) ->
        hinata_memory_pool_alloc ps size obj = (NULL, ps))
  /\ (forall size obj,
        size > 4096 ->
        hinata_memory_pool_alloc (pools initial_context) size obj
        = (NULL, pools initial_context)).
Proof.
  assert (Hnone : forall ps size obj,
             (forall q, q ∈ ps -> pool_size q < size) ->
             hinata_memory_pool_alloc ps size obj = (NULL, ps)).
  { intros ps size obj. induction ps as [|p ps IH]; intros Hall; simpl; [done|].
    rewrite decide_False by (pose proof (Hall p ltac:(apply elem_of_cons; by left)); lia).
    rewrite IH; [done|]. intros q Hq. apply Hall, elem_of_cons. by right. }
  split; [|split; [exact Hnone|]].
  - intros ps size obj i p Hobj. revert i.
    induction ps as [|p0 ps IH]; intros i Hi Hfit Hlow; [done|].
    destruct i as [|i]; simpl in *.
    + injection Hi as ->. rewrite decide_True by done. by rewrite decide_False.
    + pose proof (Hlow 0%nat p0 ltac:(lia) eq_refl) as H0.
      rewrite decide_False by lia.
      rewrite (IH i Hi Hfit); [done|].
      intros j q Hj Hq. apply (Hlow (S j) q); [lia|done].
  - intros size obj Hbig. apply Hnone.
    intros q Hq. simpl in Hq.
    repeat (apply elem_of_cons in Hq as [->|Hq]; [simpl; lia|]).
    by apply elem_of_nil in Hq.
Qed.

Lemma pool_alloc_first_fit_witness :
  fst (hinata_memory_pool_alloc (pools initial_context) 100 4096) = 4096
  /\ snd (hinata_memory_pool_alloc (pools initial_context) 100 4096) !! 2%nat
     = Some (mk_mpool 128 1 1 1 128 0 0)
  /\ hinata_memory_pool_alloc (pools initial_context) 5000 4096
     = (NULL, pools initial_context).
Proof.
  destruct pool_alloc_first_fit as (H1 & _ & H3).
  rewrite (H1 (pools initial_context) 100 4096 2%nat (mk_mpool 128 0 0 0 0 0 0)).
  - split; [reflexivity|]. split; [reflexivity|]. apply H3. lia.
  - discriminate.
  - reflexivity.
  - simpl. lia.
  - intros j q Hj Hq. destruct j as [|[|j]]; [| |lia]; injection Hq as <-; simpl; lia.
Defined.

Lemma find_destroy_sum bs p now b bs' :
  Forall (fun b => 0 < blk_size b) bs ->
  hinata_memory_block_find bs p now = (Some b, bs') ->
  0 < blk_size b
  /\ foldr Z.add 0 (map blk_size (hinata_memory_block_destroy bs' p))
     = foldr Z.add 0 (map blk_size bs) - blk_size b
  /\ Forall (fun b => 0 < blk_size b) (hinata_memory_block_destroy bs' p).
Proof.
  revert b bs'. induction bs as [|b0 bs IH]; intros b bs' Hpos; simpl; [done|].
  apply Forall_cons in Hpos as [Hp0 Hpos].
  case_decide as Hp.
  - intros [= <- <-]. simpl. rewrite decide_True by done.
    split; [done|]. split; [lia|done].
  - destruct (hinata_memory_block_find bs p now) as [r rest] eqn:E.
    intros [= -> <-]. destruct (IH b rest Hpos eq_refl) as (H1 & H2 & H3).
    simpl. rewrite decide_False by done. simpl.
    split; [done|]. split; [lia|]. by apply Forall_cons.
Qed.

Lemma sizes_sum_nonneg (bs : list hinata_memory_block) :
  Forall (fun b => 0 < blk_size b) bs -> 0 <= foldr Z.add 0 (map blk_size bs).
Proof.
  induction bs as [|b bs IH]; simpl; [done|].
  intros [Hb Hbs]%Forall_cons. specialize (IH Hbs). lia.
Qed.

Lemma tracked_bytes_nonneg s :
  Forall (fun b => 0 < blk_size b) (blocks_list s) -> 0 <= tracked_bytes s.
Proof. apply sizes_sum_nonneg. Qed.

(** One allocation or release keeps the books of an allocator that runs
    with the limits and the configuration of hinata_memory_init. *)
Lemma apply_mem_op_books s op n :
  mem_op_sized op -> 0 <= n < 2^31 ->
  memory_initialized s = true /\ config s = config initial_context
  /\ limits s = limits initial_context
  /\ 0 <= total_freed s /\ total_allocated s <= n * 2^24
  /\ total_allocated s - total_freed s = tracked_bytes s
  /\ Forall (fun b => 0 < blk_size b) (blocks_list s)
  /\ tracked_bytes s <= HINATA_MEMORY_MAX_TOTAL ->
  let s' := apply_mem_op s op in
  memory_initialized s' = true /\ config s' = config initial_context
  /\ limits s' = limits initial_context
  /\ 0 <= total_freed s' /\ total_allocated s' <= (n + 1) * 2^24
  /\ total_allocated s' - total_freed s' = tracked_bytes s'
  /\ Forall (fun b => 0 < blk_size b) (blocks_list s')
  /\ tracked_bytes s' <= HINATA_MEMORY_MAX_TOTAL.
Proof.
  intros Hsized Hn (Hinit & Hcfg & Hlim & Htf & Hta & Hsum & Hpos & Hcap).
  pose proof (tracked_bytes_nonneg s Hpos) as Hnn.
  unfold HINATA_MEMORY_MAX_TOTAL in *.
  destruct op as [size env|p now]; cbn [apply_mem_op]; cbv zeta.
  - destruct (hinata_malloc s size env) as [p s1] eqn:Em. simpl.
    destruct (decide (p = NULL)) as [->|Hp].
    + destruct (malloc_failure _ _ _ _ Em)
        as (Hb & _ & Hta1 & Htf1 & _ & _ & Hl1 & Hc1 & Hi1).
      unfold tracked_bytes in *. rewrite Hb, Hta1, Htf1, Hl1, Hc1, Hi1.
      repeat split; try done; lia.
    + destruct (malloc_success _ _ _ _ _ Em Hp)
        as (_ & Hnz & Hsingle & Htotal & ps & peak & -> & _).
      simpl in Hsized. rewrite Hlim in Hsingle, Htotal. simpl in Hsingle, Htotal.
      unfold HINATA_MEMORY_MAX_SINGLE, HINATA_MEMORY_MAX_TOTAL in *.
      unfold current_usage in Htotal. rewrite Hsum in Htotal.
      rewrite wrap_u64_idem_add in Htotal.
      unfold wrap_u64 in Htotal. rewrite Z.mod_small in Htotal by lia.
      rewrite Hcfg. unfold tracked_bytes in *. simpl.
      rewrite wrap_s64_small by lia.
      split; [done|]. split; [done|]. split; [done|]. split; [done|].
      split; [lia|]. split; [lia|]. split; [|lia].
      apply Forall_cons. split; [simpl; lia|done].
  - unfold hinata_free. rewrite Hinit. simpl.
    case_bool_decide.
    { repeat split; try done; lia. }
    rewrite Hcfg. simpl.
    destruct (hinata_memory_block_find (blocks_list s) p now) as [[b|] bs] eqn:Ef.
    + destruct (find_destroy_sum _ _ _ _ _ Hpos Ef) as (Hb & Hs' & Hp').
      pose proof (sizes_sum_nonneg _ Hp') as Hnn'.
      unfold tracked_bytes in *. simpl.
      rewrite wrap_s64_small by lia.
      split; [done|]. split; [done|]. split; [done|]. split; [lia|].
      split; [lia|]. split; [lia|]. split; [done|]. lia.
    + simpl. unfold tracked_bytes in *. simpl. repeat split; try done; lia.
Qed.

Lemma run_mem_ops_books ops :
  Forall mem_op_sized ops -> Z.of_nat (length ops) < 2^31 ->
  let s := run_mem_ops initial_context ops in
  memory_initialized s = true /\ config s = config initial_context
  /\ limits s = limits initial_context
  /\ 0 <= total_freed s /\ total_allocated s <= Z.of_nat (length ops) * 2^24
  /\ total_allocated s - total_freed s = tracked_bytes s
  /\ Forall (fun b => 0 < blk_size b) (blocks_list s)
  /\ tracked_bytes s <= HINATA_MEMORY_MAX_TOTAL.
Proof.
  induction ops as [|op ops IH] using rev_ind; intros Hsized Hlen.
  - simpl. repeat split; try done; try (by vm_compute).
  - apply Forall_app in Hsized as [Hsized Hop].
    apply Forall_cons in Hop as [Hop _].
    rewrite length_app in Hlen |- *. cbn [length] in Hlen |- *.
    unfold run_mem_ops in *. rewrite foldl_app. cbn [foldl].
    pose proof (apply_mem_op_books (foldl apply_mem_op initial_context ops) op
                  (Z.of_nat (length ops)) Hop ltac:(lia) (IH Hsized ltac:(lia))) as H.
    cbv zeta in H.
    replace (Z.of_nat (length ops + 1)) with (Z.of_nat (length ops) + 1) by lia.
    exact H.
Qed.

(** X14.  After any sequence of hinata_malloc and hinata_free calls on
    a freshly initialised allocator (sizes of type size_t, fewer than 2^31
    calls), total_allocated - total_freed equals the sum of the sizes of
    the blocks on the tracking list, hinata_get_allocated_memory reports
    that sum, and the sum never exceeds the total-memory cap of 1 GB. *)
Theorem usage_equals_tracked_bytes ops :
  Forall mem_op_sized ops -> Z.of_nat (length ops) < 2^31 ->
  let s := run_mem_ops initial_context ops in
  total_allocated s - total_freed s = tracked_bytes s
  /\ hinata_get_allocated_memory s = tracked_bytes s
  /\ 0 <= tracked_bytes s <= HINATA_MEMORY_MAX_TOTAL.
Proof.
  intros Hsized Hlen s.
  destruct (run_mem_ops_books ops Hsized Hlen)
    as (Hinit & _ & _ & _ & _ & Hsum & Hpos & Hcap).
  fold s in Hinit, Hsum, Hpos, Hcap.
  pose proof (tracked_bytes_nonneg s Hpos) as Hnn.
  split; [done|]. split; [|lia].
  unfold hinata_get_allocated_memory. rewrite Hinit. simpl.
  rewrite Hsum. apply wrap_u64_small.
  unfold HINATA_MEMORY_MAX_TOTAL in Hcap. lia.
Qed.

Lemma usage_equals_tracked_bytes_witness :
  let env (a : Z) := mk_env a a a true [] 5 in
  let ops := [MAlloc 100 (env 4096); MAlloc (2^30) (env 8192); MAlloc 5000 (env 12288);
              MFree 4096 6; MFree 4096 7; MAlloc 0 (env 16384); MFree 99 8] in
  let s := run_mem_ops initial_context ops in
  total_allocated s - total_freed s = tracked_bytes s
  /\ hinata_get_allocated_memory s = tracked_bytes s
  /\ 0 <= tracked_bytes s <= HINATA_MEMORY_MAX_TOTAL.
Proof.
  intros env ops. apply (usage_equals_tracked_bytes ops).
  - repeat (apply Forall_cons; split; [simpl; lia|]). apply Forall_nil_2.
  - vm_compute. reflexivity.
Defined.

End MemoryAccounting.

(** ** Packets: creation, validation, lookup, cloning *)

Section PacketLifecycle.
Import Packet Validation PacketClone.

(** The struct and the buffers a successful hinata_packet_create leaves
    behind, field by field. *)
Lemma create_fields w type content csz metadata msz source tags tcount env p w1 :
  hinata_packet_create w type content csz metadata msz source tags tcount env = (p, w1) ->
  p <> NULL ->
  exists cbytes src,
    content = Some cbytes /\ source = Some src
    /\ csz <> 0 /\ csz <= Packet.HINATA_MAX_CONTENT_SIZE
    /\ (is_Some metadata -> msz <= Packet.HINATA_MAX_METADATA_SIZE)
    /\ strlen src <> 0 /\ tcount <= HINATA_MAX_TAGS
    /\ p = ce_packet env /\ ce_content env <> NULL
    /\ let want := bool_decide (is_Some metadata) && bool_decide (msz > 0) in
       (want = true -> ce_metadata env <> NULL)
       /\ packets w1
          = <[p := mk_packet HINATA_PACKET_MAGIC HINATA_PACKET_VERSION
                    (ce_uuid env) type 0 0
                    (SIZEOF_PACKET + csz
                     + (if bool_decide (is_Some metadata) then msz else 0))
                    csz msz
                    (crc32 0 (take (Z.to_nat csz) cbytes))
                    (ce_now env) (ce_now env)
                    (strncpy (HINATA_MAX_SOURCE_LENGTH - 1) src)
                    (copy_tags tags tcount) tcount
                    (ce_content env)
                    (if want then ce_metadata env else NULL)
                    1 0]> (packets w)
       /\ kheap w1
          = (if want
             then <[ce_metadata env :=
                      take (Z.to_nat msz) (default [] metadata)]>
                    (<[ce_content env := take (Z.to_nat csz) cbytes]> (kheap w))
             else <[ce_content env := take (Z.to_nat csz) cbytes]> (kheap w))
       /\ packet_hash_table w1
          = (if ce_node_ok env
                && bool_decide (hinata_packet_find_node
                                  (<[p := mk_packet HINATA_PACKET_MAGIC HINATA_PACKET_VERSION
                                          (ce_uuid env) type 0 0
                                          (SIZEOF_PACKET + csz
                                           + (if bool_decide (is_Some metadata)
                                              then msz else 0))
                                          csz msz
                                          (crc32 0 (take (Z.to_nat csz) cbytes))
                                          (ce_now env) (ce_now env)
                                          (strncpy (HINATA_MAX_SOURCE_LENGTH - 1) src)
                                          (copy_tags tags tcount) tcount
                                          (ce_content env)
                                          (if want then ce_metadata env else NULL)
                                          1 0]> (packets w))
                                  (packet_hash_table w) (ce_uuid env) = None)
             then mk_node p 1 (ce_jiffies env) (ce_jiffies env) :: packet_hash_table w
             else packet_hash_table w)
       /\ packet_create_count w1 = wrap_s64 (packet_create_count w + 1)
       /\ kfree_log w1 = kfree_log w
       /\ packet_cache_free_log w1 = packet_cache_free_log w.
Proof.
  unfold hinata_packet_create.
  destruct content as [cbytes|]; [|by intros [= <- <-]].
  destruct source as [src|]; [|by intros [= <- <-]].
  case_decide as H1; [by intros [= <- <-]|].
  destruct (bool_decide (is_Some metadata) && bool_decide (msz > Packet.HINATA_MAX_METADATA_SIZE)) eqn:H2;
    [by intros [= <- <-]|].
  destruct (decide (strlen src = 0)) as [H3|H3]; [by intros [= <- <-]|].
  destruct (decide (tcount > HINATA_MAX_TAGS)) as [H4|H4]; [by intros [= <- <-]|].
  destruct (decide (_ > HINATA_MAX_PACKET_SIZE)) as [H5|H5]; [by intros [= <- <-]|].
  destruct (decide (ce_packet env = NULL)) as [H6|H6]; [by intros [= <- <-]|].
  destruct (decide (ce_uuid_ret env < 0)) as [H7|H7]; [by intros [= <- <-]|].
  destruct (decide (ce_content env = NULL)) as [H8|H8]; [by intros [= <- <-]|].
  set (want := bool_decide (is_Some metadata) && bool_decide (msz > 0)).
  destruct (want && bool_decide (ce_metadata env = NULL)) eqn:H9;
    [by intros [= <- <-]|].
  intros Hres Hp. exists cbytes, src.
  split; [done|]. split; [done|]. split; [lia|]. split; [lia|].
  split.
  { intros Hm. apply andb_false_iff in H2 as [H2|H2].
    - by apply bool_decide_eq_false in H2.
    - apply bool_decide_eq_false in H2. lia. }
  split; [done|]. split; [lia|].
  assert (Hwant : want = true -> ce_metadata env <> NULL).
  { intros Hw. rewrite Hw in H9. simpl in H9. by apply bool_decide_eq_false in H9. }
  revert Hres.
  set (w2 := match metadata with Some _ => _ | None => _ end).
  assert (Hw2 : packets w2 = packets w /\ packet_hash_table w2 = packet_hash_table w
                /\ kfree_log w2 = kfree_log w
                /\ packet_cache_free_log w2 = packet_cache_free_log w
                /\ packet_create_count w2 = packet_create_count w
                /\ kheap w2
                   = (if want
                      then <[ce_metadata env :=
                               take (Z.to_nat msz) (default [] metadata)]>
                             (<[ce_content env := take (Z.to_nat csz) cbytes]> (kheap w))
                      else <[ce_content env := take (Z.to_nat csz) cbytes]> (kheap w))).
  { subst w2. destruct metadata as [mbytes|]; [destruct want|]; simpl; by repeat split. }
  destruct Hw2 as (Hp2 & Ht2 & Hk2 & Hf2 & Hc2 & Hh2).
  destruct (hinata_packet_add_to_hash _ _ _ _ _) as [r w4] eqn:Eadd.
  intros [= <- <-].
  split; [done|]. split; [done|]. cbv zeta. split; [done|].
  revert Eadd. unfold hinata_packet_add_to_hash.
  cbn [set_packets packets packet_hash_table]. rewrite Hp2, Ht2.
  destruct (ce_node_ok env); simpl.
  - destruct (hinata_packet_find_node _ _ _) eqn:Efind; intros [= <- <-]; simpl;
      rewrite ?Hp2, ?Ht2, ?Hk2, ?Hf2, ?Hc2, ?Hh2; done.
  - intros [= <- <-]; simpl. rewrite ?Hp2, ?Ht2, ?Hk2, ?Hf2, ?Hc2, ?Hh2. done.
Qed.

(** X15.  hinata_packet_create either succeeds or leaves no trace.
    Invalid arguments (NULL or empty content, content above 512 KB,
    metadata above 64 KB, NULL or empty source, more than 16 tags) are
    refused before anything is allocated; and whenever the call returns
    NULL, the packet table, the hash table and the counters are as before,
    the struct taken from the slab cache (if any) has been given back,
    and no buffer stays behind on the heap. *)
Theorem create_failure_leaves_no_trace :
  (forall w type content csz metadata msz source tags tcount env,
      content = None \/ source = None
      \/ csz = 0 \/ csz > Packet.HINATA_MAX_CONTENT_SIZE
      \/ (is_Some metadata /\ msz > Packet.HINATA_MAX_METADATA_SIZE)
      \/ source = Some EmptyString \/ tcount > HINATA_MAX_TAGS ->
      hinata_packet_create w type content csz metadata msz source tags tcount env
      = (NULL, w))
  /\ (forall w type content csz metadata msz source tags tcount env w1,
        hinata_packet_create w type content csz metadata msz source tags tcount env
        = (NULL, w1) ->
        packets w1 = packets w /\ packet_hash_table w1 = packet_hash_table w
        /\ packet_create_count w1 = packet_create_count w
        /\ hinata_packet_count w1 = hinata_packet_count w
        /\ (packet_cache_free_log w1 = packet_cache_free_log w
            \/ packet_cache_free_log w1 = packet_cache_free_log w ++ [ce_packet env])
        /\ (kheap w !! ce_content env = None -> kheap w1 = kheap w)).
Proof.
  split.
  - intros w type content csz metadata msz source tags tcount env Hbad.
    unfold hinata_packet_create.
    destruct content as [cbytes|]; [|done].
    destruct source as [src|]; [|done].
    case_decide as H1; [done|].
    destruct (bool_decide (is_Some metadata)
              && bool_decide (msz > Packet.HINATA_MAX_METADATA_SIZE)) eqn:H2; [done|].
    destruct (decide (strlen src = 0)) as [H3|H3]; [done|].
    destruct (decide (tcount > HINATA_MAX_TAGS)) as [H4|H4]; [done|].
    exfalso.
    destruct Hbad as [?|[?|[?|[?|[[Hm Hs]|[Hsrc|?]]]]]]; try done; try lia.
    + rewrite bool_decide_eq_true_2 in H2 by done.
      rewrite bool_decide_eq_true_2 in H2 by done. done.
    + injection Hsrc as ->. by apply H3.
  - intros w type content csz metadata msz source tags tcount env w1.
    unfold hinata_packet_create.
    destruct content as [cbytes|]; [|by intros [= <-]; auto 10].
    destruct source as [src|]; [|by intros [= <-]; auto 10].
    case_decide as H1; [by intros [= <-]; auto 10|].
    destruct (bool_decide (is_Some metadata)
              && bool_decide (msz > Packet.HINATA_MAX_METADATA_SIZE)) eqn:H2;
      [by intros [= <-]; auto 10|].
    destruct (decide (strlen src = 0)) as [H3|H3]; [by intros [= <-]; auto 10|].
    destruct (decide (tcount > HINATA_MAX_TAGS)) as [H4|H4]; [by intros [= <-]; auto 10|].
    destruct (decide (_ > HINATA_MAX_PACKET_SIZE)) as [H5|H5]; [by intros [= <-]; auto 10|].
    destruct (decide (ce_packet env = NULL)) as [H6|H6]; [by intros [= <-]; auto 10|].
    destruct (decide (ce_uuid_ret env < 0)) as [H7|H7]; [by intros [= <-]; simpl; auto 10|].
    destruct (decide (ce_content env = NULL)) as [H8|H8];
      [by intros [= <-]; simpl; auto 10|].
    destruct (_ && bool_decide (ce_metadata env = NULL)).
    + intros [= <-]. unfold kfree. rewrite decide_False by done. simpl.
      split; [done|]. split; [done|]. split; [done|]. split; [done|].
      split; [by right|]. intros Hfresh. by apply delete_insert_id.
    + destruct (hinata_packet_add_to_hash _ _ _ _ _) as [r w4].
      intros [= Hp _]. done.
Qed.

Lemma create_failure_leaves_no_trace_witness :
  let w := mk_world gmap_empty gmap_empty [] [] [] 0 0 0 0 0 in
  let env := mk_create_env 4096 0 "123e4567-e89b-12d3-a456-426614174000" 1000
                           8192 0 true 5 in
  hinata_packet_create w HINATA_PACKET_TEXT (Some [104; 105]) 2 None 0
                       (Some EmptyString) None 0 env = (NULL, w)
  /\ packets (snd (hinata_packet_create w HINATA_PACKET_TEXT (Some [104; 105]) 2
                     (Some [1; 2; 3]) 3 (Some "src"%string) None 0 env))
     = packets w.
Proof.
  intros w env. split.
  - apply (proj1 create_failure_leaves_no_trace). right. right. right. right. right.
    left. reflexivity.
  - apply (proj2 create_failure_leaves_no_trace w HINATA_PACKET_TEXT (Some [104; 105]) 2
             (Some [1; 2; 3]) 3 (Some "src"%string) None 0 env).
    vm_compute. reflexivity.
Defined.

Lemma strncpy_nonempty (n : Z) (s : string) :
  0 < n -> strlen s <> 0 -> strlen (strncpy n s) <> 0.
Proof.
  intros Hn. unfold strlen, strncpy.
  destruct s as [|c s]; [done|]. intros _.
  destruct (Z.to_nat n) as [|k] eqn:E; [lia|]. simpl. lia.
Qed.

(** X16.  A packet that hinata_packet_create has just returned passes
    hinata_packet_validate, provided the generated id is a well-formed
    UUID, the type is below HINATA_PACKET_TYPE_MAX, the clock is not zero,
    a metadata size is given only together with a metadata buffer, and
    the allocator returned two different buffers: in particular the
    stored content hash is the CRC-32 of the stored content. *)
Theorem created_packet_validates
    w type content csz metadata msz source tags tcount env p w1 vst :
  hinata_packet_create w type content csz metadata msz source tags tcount env = (p, w1) ->
  p <> NULL ->
  hinata_validate_uuid_format (ce_uuid env) = true ->
  type < HINATA_PACKET_TYPE_MAX ->
  ce_now env <> 0 ->
  (metadata = None -> msz = 0) ->
  ce_content env <> ce_metadata env ->
  exists pkt,
    packets w1 !! p = Some pkt
    /\ pkt_content_hash pkt
       = crc32 0 (take (Z.to_nat (pkt_content_size pkt)) (deref (kheap w1) (pkt_content pkt)))
    /\ fst (fst (hinata_packet_validate w1 vst (Some pkt))) = 0.
Proof.
  intros Hc Hp Huuid Htype Hnow Hmeta Hdist.
  destruct (create_fields _ _ _ _ _ _ _ _ _ _ _ _ Hc Hp)
    as (cbytes & src & -> & -> & Hcsz & Hcmax & Hmmax & Hsrc & Htags & Hpe & Hcont & Hrest).
  cbv zeta in Hrest. destruct Hrest as (Hwant & Hps & Hheap & _).
  set (want := bool_decide (is_Some metadata) && bool_decide (msz > 0)) in *.
  eexists. split; [rewrite Hps; apply lookup_insert_eq|].
  assert (Hbuf : deref (kheap w1) (ce_content env) = take (Z.to_nat csz) cbytes).
  { unfold deref. rewrite Hheap. destruct want.
    - rewrite lookup_insert_ne by done. by rewrite lookup_insert_eq.
    - by rewrite lookup_insert_eq. }
  assert (Hcrc : crc32 0 (take (Z.to_nat csz) cbytes)
                 = crc32 0 (take (Z.to_nat csz) (deref (kheap w1) (ce_content env)))).
  { rewrite Hbuf. by rewrite take_take, Nat.min_id. }
  split; [exact Hcrc|].
  unfold hinata_packet_validate, hinata_packet_validate_internal, hinata_validate_uuid.
  simpl. rewrite Huuid. simpl.
  rewrite decide_False by lia.
  rewrite decide_False by (intros [?|?]; done).
  rewrite decide_False by (unfold Packet.HINATA_MAX_CONTENT_SIZE in *; lia).
  rewrite decide_False.
  2:{ intros [Hm Hn]. destruct metadata as [mbytes|].
      - unfold want in Hn, Hwant. rewrite bool_decide_eq_true_2 in Hn, Hwant by done.
        rewrite bool_decide_eq_true_2 in Hn, Hwant by done. simpl in *. by apply Hwant.
      - specialize (Hmeta eq_refl). lia. }
  rewrite decide_False.
  2:{ destruct metadata as [mbytes|].
      - specialize (Hmmax ltac:(done)). lia.
      - specialize (Hmeta eq_refl). unfold Packet.HINATA_MAX_METADATA_SIZE. lia. }
  rewrite decide_False by (apply strncpy_nonempty; [done|done]).
  rewrite decide_False by lia.
  rewrite decide_False by (intros Hne; apply Hne; by rewrite <- Hcrc).
  rewrite decide_False by (intros [?|?]; done).
  rewrite decide_False by lia.
  reflexivity.
Qed.

Lemma created_packet_validates_witness :
  let w := mk_world gmap_empty gmap_empty [] [] [] 0 0 0 0 0 in
  let env := mk_create_env 4096 0 "123e4567-e89b-12d3-a456-426614174000" 1000
                           8192 12288 true 5 in
  let w1 := snd (hinata_packet_create w HINATA_PACKET_TEXT
                   (Some (bytes_of_string "hello")) 5 (Some [123; 125]) 2
                   (Some "test"%string) None 0 env) in
  exists pkt,
    packets w1 !! 4096 = Some pkt
    /\ pkt_content_hash pkt
       = crc32 0 (take (Z.to_nat (pkt_content_size pkt)) (deref (kheap w1) (pkt_content pkt)))
    /\ fst (fst (hinata_packet_validate w1 hinata_validation_init (Some pkt))) = 0.
Proof.
  intros w env w1.
  apply (created_packet_validates w HINATA_PACKET_TEXT
           (Some (bytes_of_string "hello")) 5 (Some [123; 125]) 2
           (Some "test"%string) None 0 env 4096 w1 hinata_validation_init).
  - vm_compute. reflexivity.
  - discriminate.
  - vm_compute. reflexivity.
  - vm_compute. reflexivity.
  - discriminate.
  - discriminate.
  - discriminate.
Defined.

(** Writing the struct at an address no node refers to does not change
    what a lookup by id finds. *)
Lemma find_node_insert_fresh ps nodes id p x :
  (forall n, n ∈ nodes -> node_packet n <> p) ->
  hinata_packet_find_node (<[p := x]> ps) nodes id
  = hinata_packet_find_node ps nodes id.
Proof.
  induction nodes as [|n nodes IH]; intros Hfresh; simpl; [done|].
  assert (Hid : node_id (<[p := x]> ps) n = node_id ps n).
  { unfold node_id. rewrite lookup_insert_ne; [done|].
    intros Heq. apply (Hfresh n); [apply elem_of_cons; by left|done]. }
  rewrite Hid. case_decide; [done|].
  apply IH. intros m Hm. apply Hfresh, elem_of_cons. by right.
Qed.

Lemma find_uuid_counted vst id :
  hinata_validate_uuid vst id = (hinata_validate_uuid_format id, inc_uuid_count vst).
Proof. reflexivity. Qed.

(** X17.  Lookup by id after creation.  When hinata_packet_create
    succeeds with a well-formed id that no registered packet carries (and
    a hash node could be allocated for a fresh struct address),
    hinata_packet_find of that id returns the new packet and takes a
    reference: its reference count is 2.  An id that is not a well-formed
    UUID, or that no registered packet carries, yields NULL and leaves the
    packets and the hash table untouched. *)
Theorem find_after_create :
  (forall w type content csz metadata msz source tags tcount env p w1 vst j,
      hinata_packet_create w type content csz metadata msz source tags tcount env
      = (p, w1) ->
      p <> NULL ->
      hinata_validate_uuid_format (ce_uuid env) = true ->
      ce_node_ok env = true ->
      hinata_packet_find_node (packets w) (packet_hash_table w) (ce_uuid env) = None ->
      (forall n, n ∈ packet_hash_table w -> node_packet n <> ce_packet env) ->
      let r := hinata_packet_find w1 vst (Some (ce_uuid env)) j in
      fst (fst r) = p
      /\ exists pkt, packets (snd (fst r)) !! p = Some pkt
                     /\ pkt_id pkt = ce_uuid env /\ pkt_ref_count pkt = 2)
  /\ (forall w vst id j,
        hinata_validate_uuid_format id = false
        \/ hinata_packet_find_node (packets w) (packet_hash_table w) id = None ->
        hinata_packet_find w vst (Some id) j = (NULL, w, inc_uuid_count vst)).
Proof.
  split.
  - intros w type content csz metadata msz source tags tcount env p w1 vst j
           Hc Hp Huuid Hnode Hnone Hfresh.
    destruct (create_fields _ _ _ _ _ _ _ _ _ _ _ _ Hc Hp)
      as (cbytes & src & -> & -> & _ & _ & _ & _ & _ & Hpe & _ & Hrest).
    cbv zeta in Hrest. destruct Hrest as (_ & Hps & _ & Htab & _).
    rewrite Hnode in Htab. rewrite <- Hpe in Hfresh.
    rewrite find_node_insert_fresh in Htab by done.
    rewrite Hnone in Htab. simpl in Htab.
    assert (Hfind : hinata_packet_find_node (packets w1) (packet_hash_table w1)
                                            (ce_uuid env)
                    = Some (mk_node p 1 (ce_jiffies env) (ce_jiffies env))).
    { rewrite Htab, Hps. cbn [hinata_packet_find_node].
      rewrite decide_True; [done|].
      unfold node_id. cbn [node_packet]. by rewrite lookup_insert_eq. }
    cbv zeta. unfold hinata_packet_find. rewrite find_uuid_counted, Huuid.
    cbn [negb]. rewrite Hfind. cbn [node_packet].
    unfold hinata_packet_get. rewrite decide_False by done.
    cbn [fst snd set_hash_table packets set_packets].
    split; [done|]. rewrite Hps. rewrite alter_insert_eq, lookup_insert_eq.
    eexists. split; [reflexivity|]. simpl. done.
  - intros w vst id j Hbad. unfold hinata_packet_find.
    rewrite find_uuid_counted.
    destruct (hinata_validate_uuid_format id); simpl; [|done].
    destruct Hbad as [?|Hnone]; [done|]. by rewrite Hnone.
Qed.

Lemma find_after_create_witness :
  let w := mk_world gmap_empty gmap_empty [] [] [] 0 0 0 0 0 in
  let env := mk_create_env 4096 0 "123e4567-e89b-12d3-a456-426614174000" 1000
                           8192 0 true 5 in
  let w1 := snd (hinata_packet_create w HINATA_PACKET_TEXT
                   (Some (bytes_of_string "hello")) 5 None 0
                   (Some "test"%string) None 0 env) in
  let r := hinata_packet_find w1 hinata_validation_init (Some (ce_uuid env)) 9 in
  (fst (fst r) = 4096
   /\ exists pkt, packets (snd (fst r)) !! 4096 = Some pkt
                  /\ pkt_id pkt = ce_uuid env /\ pkt_ref_count pkt = 2)
  /\ hinata_packet_find w1 hinata_validation_init (Some "not-a-uuid"%string) 9
     = (NULL, w1, inc_uuid_count hinata_validation_init).
Proof.
  intros w env w1. split.
  - apply (proj1 find_after_create w HINATA_PACKET_TEXT
             (Some (bytes_of_string "hello")) 5 None 0
             (Some "test"%string) None 0 env 4096 w1 hinata_validation_init 9).
    + vm_compute. reflexivity.
    + discriminate.
    + vm_compute. reflexivity.
    + reflexivity.
    + reflexivity.
    + intros n Hn. simpl in Hn. by apply elem_of_nil in Hn.
  - apply (proj2 find_after_create). left. vm_compute. reflexivity.
Defined.

(** The put that finds a reference count of one runs
    hinata_packet_destroy on the struct with its count at zero. *)
Lemma put_last_is_destroy w p pkt :
  p <> NULL -> packets w !! p = Some pkt -> pkt_ref_count pkt = 1 ->
  hinata_packet_put w p
  = hinata_packet_destroy (set_packets w (<[p := set_ref_count pkt 0]> (packets w))) p.
Proof.
  intros Hp Hl Hrc. unfold hinata_packet_put.
  rewrite decide_False by done. rewrite Hl, Hrc.
  change (wrap_s32 (1 - 1)) with 0. by rewrite decide_True.
Qed.

(** hinata_packet_destroy unregisters the id of the struct, keeps the
    struct memory readable and counts one destruction. *)
Lemma destroy_tables w p pkt :
  p <> NULL -> packets w !! p = Some pkt ->
  packet_hash_table (hinata_packet_destroy w p)
  = hash_del_first (packets w) (packet_hash_table w) (pkt_id pkt)
  /\ packets (hinata_packet_destroy w p) = packets w
  /\ packet_destroy_count (hinata_packet_destroy w p)
     = wrap_s64 (packet_destroy_count w + 1).
Proof.
  intros Hp Hl. unfold hinata_packet_destroy.
  rewrite decide_False by done. rewrite Hl.
  cbn [packet_hash_table packets packet_destroy_count packet_cache_free].
  rewrite !kfree_table, !kfree_packets.
  split; [done|]. split; [done|].
  unfold kfree. by repeat case_decide.
Qed.

(** X18.  Lookup by id after release.  Under the conditions of the
    previous property, the hinata_packet_put that drops the only
    reference removes the registration again: the hash table is as it was
    before the packet was created, and hinata_packet_find of the id
    returns NULL. *)
Theorem find_after_last_put
    w type content csz metadata msz source tags tcount env p w1 vst j :
  hinata_packet_create w type content csz metadata msz source tags tcount env = (p, w1) ->
  p <> NULL ->
  hinata_validate_uuid_format (ce_uuid env) = true ->
  ce_node_ok env = true ->
  hinata_packet_find_node (packets w) (packet_hash_table w) (ce_uuid env) = None ->
  (forall n, n ∈ packet_hash_table w -> node_packet n <> ce_packet env) ->
  let w2 := hinata_packet_put w1 p in
  packet_hash_table w2 = packet_hash_table w
  /\ fst (fst (hinata_packet_find w2 vst (Some (ce_uuid env)) j)) = NULL
  /\ packet_destroy_count w2 = wrap_s64 (packet_destroy_count w1 + 1).
Proof.
  intros Hc Hp Huuid Hnode Hnone Hfresh.
  destruct (create_fields _ _ _ _ _ _ _ _ _ _ _ _ Hc Hp)
    as (cbytes & src & -> & -> & _ & _ & _ & _ & _ & Hpe & _ & Hrest).
  cbv zeta in Hrest. destruct Hrest as (_ & Hps & _ & Htab & _).
  rewrite Hnode in Htab. rewrite <- Hpe in Hfresh.
  rewrite find_node_insert_fresh in Htab by done.
  rewrite Hnone in Htab. simpl in Htab.
  match type of Hps with _ = <[_ := ?x]> _ => set (pkt := x) in * end.
  assert (Hlook : packets w1 !! p = Some pkt) by (rewrite Hps; apply lookup_insert_eq).
  cbv zeta. rewrite (put_last_is_destroy w1 p pkt Hp Hlook eq_refl).
  set (w1' := set_packets w1 (<[p := set_ref_count pkt 0]> (packets w1))).
  assert (Hlook' : packets w1' !! p = Some (set_ref_count pkt 0))
    by apply lookup_insert_eq.
  destruct (destroy_tables w1' p _ Hp Hlook') as (Ht & Hpk & Hd).
  assert (Hdel : packet_hash_table (hinata_packet_destroy w1' p) = packet_hash_table w).
  { rewrite Ht. subst w1'. cbn [packet_hash_table packets set_packets].
    rewrite Htab. cbn [hash_del_first]. rewrite decide_True; [done|].
    unfold node_id. cbn [node_packet]. by rewrite lookup_insert_eq. }
  split; [done|]. split; [|by rewrite Hd].
  unfold hinata_packet_find. rewrite find_uuid_counted, Huuid. cbn [negb].
  rewrite Hdel, Hpk. subst w1'. cbn [packets set_packets]. rewrite Hps.
  rewrite !find_node_insert_fresh by done. by rewrite Hnone.
Qed.

Lemma find_after_last_put_witness :
  let w := mk_world gmap_empty gmap_empty [] [] [] 0 0 0 0 0 in
  let env := mk_create_env 4096 0 "123e4567-e89b-12d3-a456-426614174000" 1000
                           8192 0 true 5 in
  let w1 := snd (hinata_packet_create w HINATA_PACKET_TEXT
                   (Some (bytes_of_string "hello")) 5 None 0
                   (Some "test"%string) None 0 env) in
  let w2 := hinata_packet_put w1 4096 in
  packet_hash_table w2 = packet_hash_table w
  /\ fst (fst (hinata_packet_find w2 hinata_validation_init (Some (ce_uuid env)) 9)) = NULL
  /\ packet_destroy_count w2 = wrap_s64 (packet_destroy_count w1 + 1).
Proof.
  intros w env w1.
  apply (find_after_last_put w HINATA_PACKET_TEXT
           (Some (bytes_of_string "hello")) 5 None 0
           (Some "test"%string) None 0 env 4096 w1 hinata_validation_init 9).
  - vm_compute. reflexivity.
  - discriminate.
  - vm_compute. reflexivity.
  - reflexivity.
  - reflexivity.
  - intros n Hn. simpl in Hn. by apply elem_of_nil in Hn.
Defined.

(** What hinata_packet_validate_internal has checked when it returns 0;
    its only other result is -EINVAL. *)
Lemma validate_internal_ok vst kh p :
  (fst (hinata_packet_validate_internal vst kh p) = 0
   \/ fst (hinata_packet_validate_internal vst kh p) = - EINVAL)
  /\ (fst (hinata_packet_validate_internal vst kh p) = 0 ->
      pkt_magic p = HINATA_PACKET_MAGIC /\ pkt_version p = HINATA_PACKET_VERSION
      /\ pkt_type p < HINATA_PACKET_TYPE_MAX
      /\ hinata_validate_uuid_format (pkt_id p) = true
      /\ pkt_content p <> NULL /\ pkt_content_size p <> 0
      /\ pkt_content_size p <= Packet.HINATA_MAX_CONTENT_SIZE
      /\ ~ (pkt_metadata_size p > 0 /\ pkt_metadata p = NULL)
      /\ pkt_metadata_size p <= Packet.HINATA_MAX_METADATA_SIZE
      /\ strlen (pkt_source p) <> 0
      /\ pkt_tag_count p <= HINATA_MAX_TAGS
      /\ crc32 0 (take (Z.to_nat (pkt_content_size p)) (deref kh (pkt_content p)))
         = pkt_content_hash p
      /\ pkt_created_at p <> 0 /\ pkt_updated_at p <> 0
      /\ pkt_created_at p <= pkt_updated_at p).
Proof.
  unfold hinata_packet_validate_internal, hinata_validate_uuid.
  destruct (decide (pkt_magic p <> HINATA_PACKET_MAGIC)) as [?|H1]; [by split; [right|]|].
  destruct (decide (pkt_version p <> HINATA_PACKET_VERSION)) as [?|H2]; [by split; [right|]|].
  destruct (decide (pkt_type p >= HINATA_PACKET_TYPE_MAX)) as [?|H3]; [by split; [right|]|].
  destruct (hinata_validate_uuid_format (pkt_id p)) eqn:H4; cbn [negb];
    [|by split; [right|]].
  destruct (decide (pkt_content p = NULL \/ pkt_content_size p = 0)) as [?|H5];
    [by split; [right|]|].
  destruct (decide (pkt_content_size p > Packet.HINATA_MAX_CONTENT_SIZE)) as [?|H6];
    [by split; [right|]|].
  destruct (decide (pkt_metadata_size p > 0 /\ pkt_metadata p = NULL)) as [?|H7];
    [by split; [right|]|].
  destruct (decide (pkt_metadata_size p > Packet.HINATA_MAX_METADATA_SIZE)) as [?|H8];
    [by split; [right|]|].
  destruct (decide (strlen (pkt_source p) = 0)) as [?|H9]; [by split; [right|]|].
  destruct (decide (pkt_tag_count p > HINATA_MAX_TAGS)) as [?|H10]; [by split; [right|]|].
  destruct (decide (crc32 0 _ <> pkt_content_hash p)) as [?|H11]; [by split; [right|]|].
  destruct (decide (pkt_created_at p = 0 \/ pkt_updated_at p = 0)) as [?|H12];
    [by split; [right|]|].
  destruct (decide (pkt_updated_at p < pkt_created_at p)) as [?|H13];
    [by split; [right|]|].
  split; [by left|]. intros _.
  split; [by apply dec_stable|]. split; [by apply dec_stable|].
  split; [lia|]. split; [done|].
  split; [intros ?; apply H5; by left|]. split; [intros ?; apply H5; by right|].
  split; [lia|]. split; [done|]. split; [lia|]. split; [done|]. split; [lia|].
  split; [by apply dec_stable|].
  split; [intros ?; apply H12; by left|]. split; [intros ?; apply H12; by right|]. lia.
Qed.

(** X19.  hinata_packet_clone of a packet that passes
    hinata_packet_validate creates a second, independent packet: it has a
    buffer of its own holding the same content bytes, the same type,
    content size and content hash, reference count 1 and the id the UUID
    generator produced; priority, status and flags are not inherited but
    start from zero, and both timestamps are the time of cloning.  A NULL
    or invalid original yields NULL and creates nothing. *)
Theorem clone_copies_content :
  (forall w vst o env c w2 vst2,
      hinata_packet_clone w vst (Some o) env = (c, w2, vst2) -> c <> NULL ->
      ce_content env <> ce_metadata env ->
      exists pkt,
        packets w2 !! c = Some pkt
        /\ pkt_id pkt = ce_uuid env
        /\ pkt_type pkt = pkt_type o
        /\ pkt_content_size pkt = pkt_content_size o
        /\ pkt_content_hash pkt = pkt_content_hash o
        /\ pkt_content pkt = ce_content env
        /\ kheap w2 !! ce_content env
           = Some (take (Z.to_nat (pkt_content_size o)) (deref (kheap w) (pkt_content o)))
        /\ pkt_ref_count pkt = 1
        /\ pkt_priority pkt = 0 /\ pkt_status pkt = 0 /\ pkt_flags pkt = 0
        /\ pkt_created_at pkt = ce_now env /\ pkt_updated_at pkt = ce_now env)
  /\ (forall w vst env,
        hinata_packet_clone w vst None env = (NULL, w, vst))
  /\ (forall w vst o env,
        fst (hinata_packet_validate_internal vst (kheap w) o) <> 0 ->
        fst (fst (hinata_packet_clone w vst (Some o) env)) = NULL
        /\ packets (snd (fst (hinata_packet_clone w vst (Some o) env))) = packets w
        /\ kheap (snd (fst (hinata_packet_clone w vst (Some o) env))) = kheap w).
Proof.
  split; [|split; [done|]].
  - intros w vst o env c w2 vst2. unfold hinata_packet_clone, hinata_packet_validate.
    destruct (validate_internal_ok vst (kheap w) o) as [Hres Hok].
    destruct (hinata_packet_validate_internal vst (kheap w) o) as [r vst1].
    simpl in Hres, Hok.
    destruct (decide (r < 0)) as [Hneg|Hpos]; [by intros [= <- _ _]|].
    destruct Hres as [-> | ->]; [|unfold EINVAL in Hpos; lia].
    destruct (Hok eq_refl)
      as (_ & _ & _ & _ & Hcont & _ & _ & _ & _ & _ & _ & Hcrc & _).
    cbn [kheap]. rewrite (decide_False (P := pkt_content o = NULL)) by done.
    destruct (hinata_packet_create _ _ _ _ _ _ _ _ _ _) as [c0 w3] eqn:Ecreate.
    intros [= -> -> <-] Hc Hdist.
    destruct (create_fields _ _ _ _ _ _ _ _ _ _ _ _ Ecreate Hc)
      as (cbytes & src & [= <-] & _ & _ & _ & _ & _ & _ & Hpe & _ & Hrest).
    cbv zeta in Hrest. destruct Hrest as (_ & Hps & Hheap & _).
    eexists. split; [rewrite Hps; apply lookup_insert_eq|].
    cbn [pkt_id pkt_type pkt_content_size pkt_content_hash pkt_content pkt_ref_count
         pkt_priority pkt_status pkt_flags pkt_created_at pkt_updated_at].
    split; [done|]. split; [done|]. split; [done|]. split; [exact Hcrc|].
    split; [done|]. split; [|done].
    rewrite Hheap.
    destruct (bool_decide _ && bool_decide _).
    + rewrite lookup_insert_ne by done. by rewrite lookup_insert_eq.
    + by rewrite lookup_insert_eq.
  - intros w vst o env Hbad. unfold hinata_packet_clone, hinata_packet_validate.
    destruct (validate_internal_ok vst (kheap w) o) as [Hres _].
    destruct (hinata_packet_validate_internal vst (kheap w) o) as [r vst1].
    simpl in *. destruct Hres as [-> | ->]; [done|].
    rewrite decide_True by (unfold EINVAL; lia). done.
Qed.

Lemma clone_copies_content_witness :
  let w := mk_world gmap_empty gmap_empty [] [] [] 0 0 0 0 0 in
  let env := mk_create_env 4096 0 "123e4567-e89b-12d3-a456-426614174000" 1000
                           8192 0 true 5 in
  let w1 := snd (hinata_packet_create w HINATA_PACKET_TEXT
                   (Some (bytes_of_string "hello")) 5 None 0
                   (Some "test"%string) None 0 env) in
  let o := default zero_packet (packets w1 !! 4096) in
  let env' := mk_create_env 16384 0 "00000000-0000-4000-8000-000000000001" 2000
                            20480 0 true 6 in
  let r := hinata_packet_clone w1 hinata_validation_init (Some o) env' in
  (exists pkt,
      packets (snd (fst r)) !! 16384 = Some pkt
      /\ pkt_id pkt = ce_uuid env'
      /\ pkt_type pkt = pkt_type o
      /\ pkt_content_size pkt = pkt_content_size o
      /\ pkt_content_hash pkt = pkt_content_hash o
      /\ pkt_content pkt = ce_content env'
      /\ kheap (snd (fst r)) !! ce_content env'
         = Some (take (Z.to_nat (pkt_content_size o)) (deref (kheap w1) (pkt_content o)))
      /\ pkt_ref_count pkt = 1
      /\ pkt_priority pkt = 0 /\ pkt_status pkt = 0 /\ pkt_flags pkt = 0
      /\ pkt_created_at pkt = ce_now env' /\ pkt_updated_at pkt = ce_now env')
  /\ fst (fst (hinata_packet_clone w1 hinata_validation_init (Some zero_packet) env'))
     = NULL.
Proof.
  intros w env w1 o env' r. split.
  - apply (proj1 clone_copies_content w1 hinata_validation_init o env'
             16384 (snd (fst r)) (snd r)).
    + vm_compute. reflexivity.
    + discriminate.
    + discriminate.
  - apply (proj2 (proj2 clone_copies_content) w1 hinata_validation_init zero_packet env').
    vm_compute. discriminate.
Defined.

End PacketLifecycle.

(** ** Validation: stage flags, statistics, agreement of the two validators *)

Section ValidationStages.
Import Packet Validation PacketClone.
Context {helpers : PacketHelpers}.

(** The content and metadata stages answer 0 or -EINVAL, and the answer
    does not depend on the validator's counters. *)
Lemma content_stage_result st kh p :
  (fst (hinata_validate_packet_content st kh p) = 0
   \/ fst (hinata_validate_packet_content st kh p) = - EINVAL)
  /\ (forall st', fst (hinata_validate_packet_content st' kh p)
                  = fst (hinata_validate_packet_content st kh p)).
Proof.
  unfold hinata_validate_packet_content, content_type_check.
  split.
  - repeat first [case_decide | destruct (negb _)
                 | destruct (hinata_is_printable_string _ _)]; simpl; auto.
  - intros st'. case_decide; [done|]. by destruct (negb _).
Qed.

Lemma metadata_stage_result st kh p :
  (fst (hinata_validate_packet_metadata st kh p) = 0
   \/ fst (hinata_validate_packet_metadata st kh p) = - EINVAL)
  /\ (forall st', fst (hinata_validate_packet_metadata st' kh p)
                  = fst (hinata_validate_packet_metadata st kh p)).
Proof.
  unfold hinata_validate_packet_metadata. split.
  - repeat first [case_decide | destruct (hinata_validate_metadata_format _ _ _)];
      simpl; auto.
  - intros st'. repeat case_decide; try done.
    by destruct (hinata_validate_metadata_format _ _ _).
Qed.

Lemma security_stage_result kh p :
  hinata_validate_packet_security kh p = 0
  \/ hinata_validate_packet_security kh p = - EINVAL.
Proof.
  unfold hinata_validate_packet_security.
  repeat match goal with |- context [if ?b then _ else _] => destruct b end; auto.
Qed.

Lemma integrity_stage_result kh p :
  hinata_validate_packet_integrity kh p = 0
  \/ hinata_validate_packet_integrity kh p = - EINVAL.
Proof. unfold hinata_validate_packet_integrity. repeat case_decide; auto. Qed.

(** The verdict of the staged checks, stage by stage: the first
    negative stage result is returned. *)
Lemma run_checks_fst st kh now p flags :
  fst (run_checks st kh now p flags)
  = let r0 := hinata_validate_packet_structure p now in
    let r1 := if has_flag flags HINATA_VALIDATE_CONTENT
              then fst (hinata_validate_packet_content st kh p) else 0 in
    let r2 := if has_flag flags HINATA_VALIDATE_METADATA
                 && bool_decide (pkt_metadata p <> NULL)
              then fst (hinata_validate_packet_metadata st kh p) else 0 in
    let r3 := if has_flag flags HINATA_VALIDATE_SECURITY
              then hinata_validate_packet_security kh p else 0 in
    let r4 := if has_flag flags HINATA_VALIDATE_INTEGRITY
              then hinata_validate_packet_integrity kh p else 0 in
    if decide (r0 < 0) then r0
    else if decide (r1 < 0) then r1
    else if decide (r2 < 0) then r2
    else if decide (r3 < 0) then r3
    else r4.
Proof.
  unfold run_checks. cbv zeta.
  destruct (decide (hinata_validate_packet_structure p now < 0)); [done|].
  set (c := if has_flag flags HINATA_VALIDATE_CONTENT
            then hinata_validate_packet_content st kh p else (0, st)).
  assert (Hc : fst c = if has_flag flags HINATA_VALIDATE_CONTENT
                       then fst (hinata_validate_packet_content st kh p) else 0).
  { subst c. by destruct (has_flag flags HINATA_VALIDATE_CONTENT). }
  rewrite <- Hc. destruct c as [r1 st1]. cbn [fst].
  destruct (decide (r1 < 0)); [done|].
  set (m := if has_flag flags HINATA_VALIDATE_METADATA
               && bool_decide (pkt_metadata p <> NULL)
            then hinata_validate_packet_metadata st1 kh p else (0, st1)).
  assert (Hm : fst m = if has_flag flags HINATA_VALIDATE_METADATA
                          && bool_decide (pkt_metadata p <> NULL)
                       then fst (hinata_validate_packet_metadata st kh p) else 0).
  { subst m. destruct (has_flag flags HINATA_VALIDATE_METADATA && _); [|done].
    apply (proj2 (metadata_stage_result st kh p)). }
  rewrite <- Hm. destruct m as [r2 st2]. cbn [fst].
  destruct (decide (r2 < 0)); [done|].
  destruct (decide (_ < 0)); done.
Qed.

Lemma stage_chain (r0 r1 r2 r3 r4 : Z) :
  r0 = 0 \/ r0 = - EINVAL -> r1 = 0 \/ r1 = - EINVAL -> r2 = 0 \/ r2 = - EINVAL ->
  r3 = 0 \/ r3 = - EINVAL -> r4 = 0 \/ r4 = - EINVAL ->
  (if decide (r0 < 0) then r0
   else if decide (r1 < 0) then r1
   else if decide (r2 < 0) then r2
   else if decide (r3 < 0) then r3
   else r4) = 0
  <-> r0 = 0 /\ r1 = 0 /\ r2 = 0 /\ r3 = 0 /\ r4 = 0.
Proof.
  unfold EINVAL.
  intros [-> | ->] [-> | ->] [-> | ->] [-> | ->] [-> | ->];
    repeat case_decide; try lia;
    (split; [intros ?; repeat split; lia|intros (? & ? & ? & ? & ?); lia]).
Qed.

Lemma optional_stage (b : bool) (r : Z) :
  r = 0 \/ r = - EINVAL ->
  ((if b then r else 0) = 0 \/ (if b then r else 0) = - EINVAL)
  /\ ((if b then r else 0) = 0 <-> (b = true -> r = 0)).
Proof.
  intros Hr. destruct b.
  - split; [done|]. split; [done|]. intros H. by apply H.
  - split; [by left|]. split; done.
Qed.

(** The staged checks pass exactly when the structure stage and every
    stage the flags ask for pass. *)
Lemma run_checks_pass st kh now p flags :
  fst (run_checks st kh now p flags) = 0 <->
  hinata_validate_packet_structure p now = 0
  /\ (has_flag flags HINATA_VALIDATE_CONTENT = true ->
      fst (hinata_validate_packet_content st kh p) = 0)
  /\ (has_flag flags HINATA_VALIDATE_METADATA && bool_decide (pkt_metadata p <> NULL)
      = true ->
      fst (hinata_validate_packet_metadata st kh p) = 0)
  /\ (has_flag flags HINATA_VALIDATE_SECURITY = true ->
      hinata_validate_packet_security kh p = 0)
  /\ (has_flag flags HINATA_VALIDATE_INTEGRITY = true ->
      hinata_validate_packet_integrity kh p = 0).
Proof.
  rewrite run_checks_fst. cbv zeta.
  destruct (optional_stage (has_flag flags HINATA_VALIDATE_CONTENT) _
              (proj1 (content_stage_result st kh p))) as [H1 H1'].
  destruct (optional_stage (has_flag flags HINATA_VALIDATE_METADATA
                            && bool_decide (pkt_metadata p <> NULL)) _
              (proj1 (metadata_stage_result st kh p))) as [H2 H2'].
  destruct (optional_stage (has_flag flags HINATA_VALIDATE_SECURITY) _
              (security_stage_result kh p)) as [H3 H3'].
  destruct (optional_stage (has_flag flags HINATA_VALIDATE_INTEGRITY) _
              (integrity_stage_result kh p)) as [H4 H4'].
  rewrite (stage_chain _ _ _ _ _ (structure_result p now) H1 H2 H3 H4).
  rewrite H1', H2', H3', H4'. done.
Qed.

(** With FORCE_RECHECK the verdict of hinata_validate_packet_full is
    that of the staged checks. *)
Lemma validate_full_forced st kh now j p flags :
  has_flag flags HINATA_VALIDATE_FORCE_RECHECK = true ->
  fst (hinata_validate_packet_full st kh now j (Some p) flags)
  = fst (run_checks st kh now p flags).
Proof.
  intros Hf. unfold hinata_validate_packet_full. rewrite Hf. cbn [negb andb].
  set (st1 := set_cache (inc_validation_count st) _).
  assert (Hind : fst (run_checks st1 kh now p flags) = fst (run_checks st kh now p flags)).
  { rewrite !run_checks_fst. cbv zeta.
    rewrite (proj2 (content_stage_result st kh p) st1).
    by rewrite (proj2 (metadata_stage_result st kh p) st1). }
  destruct (run_checks_result st1 kh now p flags) as (Hr & _).
  rewrite <- Hind.
  destruct (run_checks st1 kh now p flags) as [r st2]. simpl in *.
  destruct Hr as [-> | ->]; [by rewrite decide_False by lia|].
  by rewrite decide_True by (unfold EINVAL; lia).
Qed.

(** X20.  Which flags matter to hinata_validate_packet_full.  With the
    cache bypassed (FORCE_RECHECK), the verdict depends only on the four
    stage flags CONTENT, METADATA, SECURITY and INTEGRITY: BASIC, DEEP and
    STRICT change nothing, and the structure stage runs whether or not
    BASIC is set.  The verdict is monotone in the stage flags: a packet
    accepted under a set of stages is accepted under every subset of
    them. *)
Theorem validation_flags_monotone st st' kh now j j' p f g :
  has_flag f HINATA_VALIDATE_FORCE_RECHECK = true ->
  has_flag g HINATA_VALIDATE_FORCE_RECHECK = true ->
  (forall x, x ∈ [HINATA_VALIDATE_CONTENT; HINATA_VALIDATE_METADATA;
                  HINATA_VALIDATE_SECURITY; HINATA_VALIDATE_INTEGRITY] ->
             has_flag f x = true -> has_flag g x = true) ->
  (fst (hinata_validate_packet_full st kh now j (Some p) g) = 0 ->
   fst (hinata_validate_packet_full st' kh now j' (Some p) f) = 0)
  /\ (hinata_validate_packet_structure p now <> 0 ->
      fst (hinata_validate_packet_full st kh now j (Some p) f) = - EINVAL)
  /\ ((forall x, x ∈ [HINATA_VALIDATE_CONTENT; HINATA_VALIDATE_METADATA;
                      HINATA_VALIDATE_SECURITY; HINATA_VALIDATE_INTEGRITY] ->
                 has_flag g x = true -> has_flag f x = true) ->
      fst (hinata_validate_packet_full st kh now j (Some p) f)
      = fst (hinata_validate_packet_full st' kh now j' (Some p) g)).
Proof.
  intros Hf Hg Hsub.
  assert (Hc := Hsub HINATA_VALIDATE_CONTENT ltac:(set_solver)).
  assert (Hm := Hsub HINATA_VALIDATE_METADATA ltac:(set_solver)).
  assert (Hs := Hsub HINATA_VALIDATE_SECURITY ltac:(set_solver)).
  assert (Hi := Hsub HINATA_VALIDATE_INTEGRITY ltac:(set_solver)).
  rewrite !validate_full_forced by done.
  split; [|split].
  - rewrite !run_checks_pass.
    rewrite (proj2 (content_stage_result st kh p) st').
    rewrite (proj2 (metadata_stage_result st kh p) st').
    intros (H0 & H1 & H2 & H3 & H4).
    split; [done|]. split; [by auto|]. split; [|by auto].
    intros [Ha Hb]%andb_true_iff. apply H2. rewrite Hm by done. by rewrite Hb.
  - intros Hbad. rewrite run_checks_fst. cbv zeta.
    destruct (structure_result p now) as [H0 | H0]; [done|].
    rewrite H0. by rewrite decide_True by (unfold EINVAL; lia).
  - intros Hsup.
    assert (Hc' := Hsup HINATA_VALIDATE_CONTENT ltac:(set_solver)).
    assert (Hm' := Hsup HINATA_VALIDATE_METADATA ltac:(set_solver)).
    assert (Hs' := Hsup HINATA_VALIDATE_SECURITY ltac:(set_solver)).
    assert (Hi' := Hsup HINATA_VALIDATE_INTEGRITY ltac:(set_solver)).
    rewrite !run_checks_fst. cbv zeta.
    rewrite (proj2 (content_stage_result st kh p) st').
    rewrite (proj2 (metadata_stage_result st kh p) st').
    assert (E : forall x, (has_flag f x = true -> has_flag g x = true) ->
                          (has_flag g x = true -> has_flag f x = true) ->
                          has_flag f x = has_flag g x).
    { intros x H1 H2. destruct (has_flag f x), (has_flag g x); auto.
      symmetry. by apply H1. }
    rewrite (E _ Hc Hc'), (E _ Hm Hm'), (E _ Hs Hs'), (E _ Hi Hi'). done.
Qed.


(** What the structure stage has checked when it returns 0. *)
Lemma structure_ok p now :
  hinata_validate_packet_structure p now = 0 ->
  pkt_magic p = HINATA_PACKET_MAGIC /\ pkt_version p = HINATA_PACKET_VERSION
  /\ hinata_validate_uuid_format (pkt_id p) = true
  /\ hinata_packet_is_valid_type (pkt_type p) = true
  /\ pkt_content_size p <> 0
  /\ pkt_metadata_size p <= Validation.HINATA_MAX_METADATA_SIZE
  /\ pkt_content p <> NULL
  /\ ~ (pkt_metadata_size p > 0 /\ pkt_metadata p = NULL)
  /\ hinata_validate_source_format (pkt_source p) = true
  /\ hinata_validate_timestamps (pkt_created_at p) (pkt_updated_at p) now = true
  /\ hinata_validate_tags_format (pkt_tags p) (pkt_tag_count p) = true
  /\ 0 < pkt_ref_count p.
Proof.
  unfold hinata_validate_packet_structure.
  assert (Hne : - EINVAL <> 0) by (unfold EINVAL; lia).
  destruct (decide (pkt_magic p <> HINATA_PACKET_MAGIC)) as [?|H1]; [done|].
  destruct (decide (pkt_version p <> HINATA_PACKET_VERSION)) as [?|H2]; [done|].
  destruct (hinata_validate_uuid_format (pkt_id p)); cbn [negb]; [|done].
  destruct (hinata_packet_is_valid_type (pkt_type p)); cbn [negb]; [|done].
  destruct (hinata_packet_is_valid_priority (pkt_priority p)); cbn [negb]; [|done].
  destruct (hinata_packet_is_valid_status (pkt_status p)); cbn [negb]; [|done].
  destruct (decide (pkt_content_size p = 0 \/ _)) as [?|H3]; [done|].
  destruct (decide (pkt_metadata_size p > _)) as [?|H4]; [done|].
  destruct (decide (pkt_content p = NULL)) as [?|H5]; [done|].
  destruct (decide (pkt_metadata_size p > 0 /\ pkt_metadata p = NULL)) as [?|H6]; [done|].
  destruct (hinata_validate_source_format (pkt_source p)); cbn [negb]; [|done].
  destruct (hinata_validate_timestamps _ _ _); cbn [negb]; [|done].
  destruct (hinata_validate_tags_format _ _); cbn [negb]; [|done].
  destruct (decide (pkt_ref_count p <= 0)) as [?|H7]; [done|].
  intros _.
  split; [by apply dec_stable|]. split; [by apply dec_stable|].
  split; [done|]. split; [done|]. split; [intros ?; apply H3; by left|].
  split; [lia|]. split; [done|]. split; [done|]. split; [done|].
  split; [done|]. split; [done|]. lia.
Qed.

(** X21.  The two validators agree in one direction.  A packet that
    hinata_validate_packet_full accepts with the cache bypassed and the
    INTEGRITY stage on is also accepted by hinata_packet_validate (the
    check hinata_packet_clone relies on), provided its content is at most
    512 KB, the limit of hinata_packet.c (the validator itself allows
    1 MB), and the type check of the validator implies a type below
    HINATA_PACKET_TYPE_MAX. *)
Theorem full_validation_implies_packet_validate w st vst now j p flags :
  (forall t, hinata_packet_is_valid_type t = true -> t < HINATA_PACKET_TYPE_MAX) ->
  has_flag flags HINATA_VALIDATE_FORCE_RECHECK = true ->
  has_flag flags HINATA_VALIDATE_INTEGRITY = true ->
  fst (hinata_validate_packet_full st (kheap w) now j (Some p) flags) = 0 ->
  pkt_content_size p <= Packet.HINATA_MAX_CONTENT_SIZE ->
  fst (fst (hinata_packet_validate w vst (Some p))) = 0.
Proof.
  intros Htype Hforce Hint Hfull Hsize.
  rewrite validate_full_forced in Hfull by done.
  apply run_checks_pass in Hfull as (Hs & _ & _ & _ & Hi).
  specialize (Hi Hint).
  apply structure_ok in Hs
    as (H1 & H2 & H3 & H4 & H5 & H6 & H7 & H8 & H9 & H10 & H11 & _).
  apply Htype in H4.
  (* the CRC comparison of the integrity stage *)
  assert (Hcrc : crc32 0 (take (Z.to_nat (pkt_content_size p))
                               (deref (kheap w) (pkt_content p)))
                 = pkt_content_hash p).
  { revert Hi. unfold hinata_validate_packet_integrity.
    rewrite decide_False by done.
    destruct (decide (crc32 0 _ <> pkt_content_hash p)) as [?|Hc];
      [by unfold EINVAL|].
    intros _. by apply dec_stable. }
  (* source, timestamps, tags *)
  assert (Hsrc : strlen (pkt_source p) <> 0).
  { revert H9. unfold hinata_validate_source_format.
    case_decide as Hd; [done|]. intros _ ?. apply Hd. by left. }
  assert (Htime : pkt_created_at p <> 0 /\ pkt_updated_at p <> 0
                  /\ ~ pkt_updated_at p < pkt_created_at p).
  { revert H10. unfold hinata_validate_timestamps.
    case_decide as Hd1; [done|]. case_decide as Hd2; [done|]. intros _.
    split; [intros ?; apply Hd1; by left|]. split; [intros ?; apply Hd1; by right|done]. }
  assert (Htags : ~ pkt_tag_count p > HINATA_MAX_TAGS).
  { revert H11. unfold hinata_validate_tags_format. by case_decide. }
  destruct Htime as (Ht1 & Ht2 & Ht3).
  unfold hinata_packet_validate, hinata_packet_validate_internal, hinata_validate_uuid.
  rewrite decide_False by (intros Hx; by apply Hx).
  rewrite decide_False by (intros Hx; by apply Hx).
  rewrite decide_False by lia.
  rewrite H3. cbn [negb].
  rewrite decide_False by (intros [?|?]; done).
  rewrite decide_False by lia.
  rewrite decide_False by done.
  rewrite decide_False by (unfold Validation.HINATA_MAX_METADATA_SIZE,
                                  Packet.HINATA_MAX_METADATA_SIZE in *; lia).
  rewrite decide_False by done.
  rewrite decide_False by done.
  rewrite decide_False by (intros Hx; by apply Hx).
  rewrite decide_False by (intros [?|?]; done).
  rewrite decide_False by done.
  reflexivity.
Qed.

Lemma run_checks_counters st kh now p flags :
  validation_count (snd (run_checks st kh now p flags)) = validation_count st
  /\ validation_success_count (snd (run_checks st kh now p flags))
     = validation_success_count st
  /\ validation_failure_count (snd (run_checks st kh now p flags))
     = validation_failure_count st.
Proof.
  unfold run_checks.
  destruct (decide (_ < 0)); [done|].
  set (c := if has_flag flags HINATA_VALIDATE_CONTENT then _ else _).
  assert (Hc : validation_count (snd c) = validation_count st
               /\ validation_success_count (snd c) = validation_success_count st
               /\ validation_failure_count (snd c) = validation_failure_count st).
  { subst c. destruct (has_flag flags HINATA_VALIDATE_CONTENT); [|done].
    unfold hinata_validate_packet_content.
    case_decide; [done|]. by destruct (negb _). }
  destruct c as [r1 st1]. simpl in Hc. destruct Hc as (Hc1 & Hc2 & Hc3).
  destruct (decide (r1 < 0)); [done|].
  set (m := if has_flag flags HINATA_VALIDATE_METADATA && _ then _ else _).
  assert (Hm : validation_count (snd m) = validation_count st
               /\ validation_success_count (snd m) = validation_success_count st
               /\ validation_failure_count (snd m) = validation_failure_count st).
  { subst m. destruct (has_flag flags HINATA_VALIDATE_METADATA && _); [|done].
    unfold hinata_validate_packet_metadata.
    repeat case_decide; try done.
    by destruct (hinata_validate_metadata_format _ _ _). }
  destruct m as [r2 st2]. simpl in Hm.
  destruct (decide (r2 < 0)); [done|].
  destruct (decide (_ < 0)); done.
Qed.

(** One call of hinata_validate_packet_full moves the three verdict
    counters like this: a NULL packet counts one failure and no
    validation; a packet counts one validation and either one success
    (result 0) or one failure. *)
Lemma validate_full_counters st kh now j packet flags :
  let r := hinata_validate_packet_full st kh now j packet flags in
  match packet with
  | None =>
      validation_count (snd r) = validation_count st
      /\ validation_success_count (snd r) = validation_success_count st
      /\ validation_failure_count (snd r) = wrap_s64 (validation_failure_count st + 1)
  | Some _ =>
      validation_count (snd r) = wrap_s64 (validation_count st + 1)
      /\ ((validation_success_count (snd r) = wrap_s64 (validation_success_count st + 1)
           /\ validation_failure_count (snd r) = validation_failure_count st)
          \/ (validation_success_count (snd r) = validation_success_count st
              /\ validation_failure_count (snd r)
                 = wrap_s64 (validation_failure_count st + 1)))
  end.
Proof.
  cbv zeta. unfold hinata_validate_packet_full.
  destruct packet as [p|]; [|done].
  set (st0 := inc_validation_count st).
  set (l := if has_flag flags HINATA_VALIDATE_FORCE_RECHECK then _ else _).
  destruct l as [hit cache'].
  set (st1 := set_cache st0 cache').
  destruct (negb _ && bool_decide (hit > 0)); [simpl; by auto|].
  destruct (negb _ && bool_decide (hit = 0)); [simpl; by auto|].
  destruct (run_checks_counters st1 kh now p flags) as (H1 & H2 & H3).
  destruct (run_checks st1 kh now p flags) as [r st2]. simpl in *.
  destruct (decide (r < 0)); simpl; rewrite ?H1, ?H2, ?H3; auto.
Qed.

Lemma run_validations_counters calls :
  Z.of_nat (length calls) < 2^56 ->
  let st := run_validations hinata_validation_init calls in
  0 <= validation_success_count st
  /\ validation_success_count st <= validation_count st
  /\ validation_count st <= Z.of_nat (length calls)
  /\ 0 <= validation_failure_count st
  /\ validation_success_count st + validation_failure_count st
     = Z.of_nat (length calls).
Proof.
  induction calls as [|c calls IH] using rev_ind; intros Hlen; [done|].
  rewrite length_app in Hlen |- *. cbn [length] in Hlen |- *.
  destruct (IH ltac:(lia)) as (H1 & H2 & H3 & H4 & H5).
  unfold run_validations in *. rewrite foldl_app. cbn [foldl].
  set (st := foldl apply_validate_call hinata_validation_init calls) in *.
  unfold apply_validate_call.
  pose proof (validate_full_counters st (vc_kheap c) (vc_now_ns c) (vc_jiffies c)
                (vc_packet c) (vc_flags c)) as Hstep.
  cbv zeta in Hstep.
  destruct (vc_packet c) as [p|].
  - destruct Hstep as (Hc & [[Hs Hf]|[Hs Hf]]); rewrite Hc, Hs, Hf;
      rewrite !wrap_s64_small by lia; lia.
  - destruct Hstep as (Hc & Hs & Hf). rewrite Hc, Hs, Hf.
    rewrite !wrap_s64_small by lia. lia.
Qed.

(** X22.  The verdict counters after any sequence of fewer than 2^56
    hinata_validate_packet_full calls on a freshly initialised validator:
    every call is counted as exactly one success or one failure, so the
    two add up to the number of calls; validation_count counts the calls
    with a non-NULL packet only; successes never exceed validation_count,
    so the success_rate reported by hinata_get_validation_statistics is
    at most 100. *)
Theorem validation_statistics_consistent calls :
  Z.of_nat (length calls) < 2^56 ->
  let st := run_validations hinata_validation_init calls in
  let stats := snd (hinata_get_validation_statistics st) in
  successful_validations stats + failed_validations stats = Z.of_nat (length calls)
  /\ successful_validations stats <= total_validations stats
  /\ total_validations stats <= Z.of_nat (length calls)
  /\ 0 <= success_rate stats <= 100.
Proof.
  intros Hlen st stats.
  destruct (run_validations_counters calls Hlen) as (H1 & H2 & H3 & H4 & H5).
  fold st in H1, H2, H3, H4, H5.
  subst stats. unfold hinata_get_validation_statistics. simpl.
  rewrite !wrap_u64_small by lia.
  split; [done|]. split; [done|]. split; [done|].
  case_decide as Hpos; [|lia].
  assert (0 <= validation_success_count st * 100 / validation_count st <= 100) as Hr.
  { split.
    - apply Z.div_pos; lia.
    - apply Z.div_le_upper_bound; lia. }
  unfold wrap_u32. rewrite Z.mod_small by lia. done.
Qed.

End ValidationStages.

(** ** Storage: regions, cache, records in the region file *)

Section StorageExtras.
Import Packet Validation PacketClone Storage.
Context {helpers : PacketHelpers} {layout : Layout}.







Lemma find_free_slot_le rs k (i : nat) r :
  rs !! i = Some r -> region_file r = None ->
  find_free_slot rs k <= k + Z.of_nat i.
Proof.
  revert k i. induction rs as [|r0 rs IH]; intros k i Hi Hfree; [done|].
  simpl. case_decide; [lia|].
  destruct i as [|i]; simpl in Hi.
  - injection Hi as ->. done.
  - specialize (IH (k + 1) i Hi Hfree). lia.
Qed.

(** X24.  hinata_storage_destroy_region on an open region returns 0
    and clears the whole slot (name, sizes, statistics and the id field
    are zero, the file pointer NULL), so that the slot is free for the
    next hinata_storage_create_region; a second destroy and any store into
    the slot answer -ENOENT.  The cache is not touched: a packet of the
    destroyed region that is still cached is loaded exactly as before. *)
Theorem destroy_region_frees_slot s rid r :
  storage_initialized (sys_storage s) = true ->
  0 <= rid < HINATA_STORAGE_MAX_REGIONS ->
  regions (sys_storage s) !! Z.to_nat rid = Some r -> is_Some (region_file r) ->
  let res := hinata_storage_destroy_region (sys_storage s) rid in
  let s' := mk_system (sys_packets s) (sys_validation s) (sys_memory s) (snd res) in
  fst res = 0
  /\ regions (snd res) = <[Z.to_nat rid := zero_region 0]> (regions (sys_storage s))
  /\ region_count (snd res) = wrap_u32 (region_count (sys_storage s) - 1)
  /\ cache (snd res) = cache (sys_storage s)
  /\ hinata_storage_destroy_region (snd res) rid = (- ENOENT, snd res)
  /\ (forall p env, hinata_storage_store_packet s' (Some p) rid env = (- ENOENT, s'))
  /\ (forall id now cenv,
        is_Some (fst (hinata_storage_cache_get (sys_storage s) id now)) ->
        fst (hinata_storage_load_packet s' (Some id) rid now cenv)
        = fst (hinata_storage_load_packet s (Some id) rid now cenv))
  /\ find_free_slot (regions (snd res)) 0 <= rid.
Proof.
  intros Hinit Hrid Hreg [file Hfile]. cbv zeta.
  assert (Hlt : (Z.to_nat rid < length (regions (sys_storage s)))%nat)
    by (by eapply lookup_lt_Some).
  assert (Hres : hinata_storage_destroy_region (sys_storage s) rid
                 = (0, mk_sctx true
                         (<[Z.to_nat rid := zero_region 0]> (regions (sys_storage s)))
                         (wrap_u32 (region_count (sys_storage s) - 1))
                         (cache (sys_storage s)) (cache_size (sys_storage s))
                         (cache_lru (sys_storage s)) (stats (sys_storage s)))).
  { unfold hinata_storage_destroy_region.
    rewrite Hinit. cbn [negb]. rewrite decide_False by lia.
    by rewrite Hreg, Hfile. }
  rewrite Hres. cbn [fst snd regions region_count cache].
  set (c' := mk_sctx _ _ _ _ _ _ _).
  assert (Hreg' : regions c' !! Z.to_nat rid = Some (zero_region 0))
    by (apply list_lookup_insert_eq; done).
  split; [done|]. split; [done|]. split; [done|]. split; [done|].
  split; [|split; [|split]].
  - unfold hinata_storage_destroy_region.
    change (storage_initialized c') with true. cbn [negb]. rewrite decide_False by lia. by rewrite Hreg'.
  - intros p env. unfold hinata_storage_store_packet. cbn [sys_storage].
    change (storage_initialized c') with true. cbn [negb]. rewrite decide_False by lia. by rewrite Hreg'.
  - intros id now cenv Hhit. unfold hinata_storage_load_packet. cbn [sys_storage].
    rewrite Hinit.
    change (storage_initialized c') with true. cbn [negb]. rewrite !decide_False by lia.
    unfold hinata_storage_cache_get in *.
    change (cache c') with (cache (sys_storage s)).
    destruct (cache_get_scan (cache (sys_storage s)) id now) as [[e|] es];
      [|by destruct Hhit].
    cbn [sys_packets sys_validation sys_memory].
    destruct (hinata_packet_clone _ _ _ _) as [[clone w] vst]. done.
  - subst c'. cbn [regions] in Hreg'.
    apply (find_free_slot_le _ 0 (Z.to_nat rid) (zero_region 0)) in Hreg'; [lia|done].
Qed.

(** What a successful hinata_storage_cache_put has done. *)
Lemma cache_put_success c m key data size e1 e2 tail now c1 m1 :
  hinata_storage_cache_put c m key data size e1 e2 tail now = (0, c1, m1) ->
  exists entry dcopy,
    size <> 0 /\ entry <> NULL /\ dcopy <> NULL
    /\ cache c1
       = mk_centry entry (stored_key key (Memory.env_garbage e1) tail) dcopy size
                   HINATA_STORAGE_FLAG_CACHED 1 now
                   (wrap_u64 (now + HINATA_CACHE_DEFAULT_TTL)) 1 :: cache c
    /\ cache_size c1 = wrap_s32 (cache_size c + 1)
    /\ cache_lru c1 = entry :: cache_lru c
    /\ Memory.heap m1 !! dcopy = Some (take (Z.to_nat size) data).
Proof.
  unfold hinata_storage_cache_put.
  case_decide as Hsz; [by intros [= ? _ _]|].
  destruct (Memory.hinata_malloc m SIZEOF_CACHE_ENTRY e1) as [entry m2].
  case_decide as He; [by intros [= ? _ _]|].
  destruct (Memory.hinata_malloc m2 size e2) as [dcopy m3].
  case_decide as Hd; [by intros [= ? _ _]|].
  intros [= <- <-]. exists entry, dcopy.
  split; [done|]. split; [done|]. split; [done|]. split; [done|].
  split; [done|]. split; [done|]. simpl. apply lookup_insert_eq.
Qed.

Lemma stored_key_short key garbage tail :
  strlen key < 36 -> stored_key key garbage tail = key.
Proof. intros H. unfold stored_key. by rewrite decide_True. Qed.

Lemma cache_get_head c e now :
  cache c = e :: tl (cache c) ->
  fst (hinata_storage_cache_get c (centry_key e) now)
  = Some (centry_data e, centry_size e).
Proof.
  intros Hc. unfold hinata_storage_cache_get. rewrite Hc. simpl.
  by rewrite decide_True.
Qed.

Lemma cache_remove_none c m key now :
  (forall e, e ∈ cache c -> centry_key e <> key) ->
  hinata_storage_cache_remove c m key now = (- ENOENT, c, m).
Proof.
  intros Hno. unfold hinata_storage_cache_remove.
  assert (H : cache_remove_scan (cache c) key = (None, cache c)).
  { induction (cache c) as [|e es IH]; simpl; [done|].
    rewrite decide_False by (apply Hno, elem_of_cons; by left).
    rewrite IH; [done|]. intros e' He'. apply Hno, elem_of_cons. by right. }
  by rewrite H.
Qed.

(** X25.  The storage cache keeps, per key, a stack of entries.
    hinata_storage_cache_put never replaces: a successful put (for a key
    of fewer than 36 characters) makes hinata_storage_cache_get return a
    private copy of the first [size] bytes of the data; a second put under
    the same key makes the lookup return the newer copy; and
    hinata_storage_cache_remove removes only that newest entry, after
    which the lookup returns the older copy again.  Removing a key that
    is not cached answers -ENOENT and changes nothing. *)
Theorem cache_put_get_remove :
  (forall c m key data size e1 e2 tail now now' c1 m1,
      hinata_storage_cache_put c m key data size e1 e2 tail now = (0, c1, m1) ->
      strlen key < 36 ->
      exists dp,
        fst (hinata_storage_cache_get c1 key now') = Some (dp, size)
        /\ Memory.heap m1 !! dp = Some (take (Z.to_nat size) data))
  /\ (forall c m key d1 s1 ea1 eb1 t1 n1 c1 m1 d2 s2 ea2 eb2 t2 n2 c2 m2 n3 n4 n5,
        hinata_storage_cache_put c m key d1 s1 ea1 eb1 t1 n1 = (0, c1, m1) ->
        hinata_storage_cache_put c1 m1 key d2 s2 ea2 eb2 t2 n2 = (0, c2, m2) ->
        strlen key < 36 ->
        exists dp1 dp2,
          fst (hinata_storage_cache_get c1 key n3) = Some (dp1, s1)
          /\ fst (hinata_storage_cache_get c2 key n3) = Some (dp2, s2)
          /\ fst (fst (hinata_storage_cache_remove c2 m2 key n4)) = 0
          /\ fst (hinata_storage_cache_get
                    (snd (fst (hinata_storage_cache_remove c2 m2 key n4))) key n5)
             = Some (dp1, s1)
          /\ cache_size (snd (fst (hinata_storage_cache_remove c2 m2 key n4)))
             = wrap_s32 (wrap_s32 (cache_size c1 + 1) - 1))
  /\ (forall c m key now,
        (forall e, e ∈ cache c -> centry_key e <> key) ->
        hinata_storage_cache_remove c m key now = (- ENOENT, c, m)
        /\ fst (hinata_storage_cache_get c key now) = None).
Proof.
  split; [|split].
  - intros c m key data size e1 e2 tail now now' c1 m1 Hput Hkey.
    destruct (cache_put_success _ _ _ _ _ _ _ _ _ _ _ Hput)
      as (entry & dcopy & _ & _ & _ & Hc & _ & _ & Hheap).
    rewrite stored_key_short in Hc by done.
    exists dcopy. split; [|done].
    unfold hinata_storage_cache_get. rewrite Hc. simpl. by rewrite decide_True.
  - intros c m key d1 s1 ea1 eb1 t1 n1 c1 m1 d2 s2 ea2 eb2 t2 n2 c2 m2 n3 n4 n5
           Hput1 Hput2 Hkey.
    destruct (cache_put_success _ _ _ _ _ _ _ _ _ _ _ Hput1)
      as (entry1 & dcopy1 & _ & _ & _ & Hc1 & _ & _ & _).
    destruct (cache_put_success _ _ _ _ _ _ _ _ _ _ _ Hput2)
      as (entry2 & dcopy2 & _ & _ & _ & Hc2 & _ & _ & _).
    rewrite stored_key_short in Hc1, Hc2 by done.
    exists dcopy1, dcopy2.
    destruct (cache_put_success _ _ _ _ _ _ _ _ _ _ _ Hput2)
      as (_ & _ & _ & _ & _ & _ & Hsz2 & _).
    unfold hinata_storage_cache_remove, hinata_storage_cache_get.
    rewrite Hc2, Hc1. simpl. rewrite !decide_True by done. simpl.
    rewrite decide_True by done. by rewrite Hsz2.
  - intros c m key now Hno. split; [by apply cache_remove_none|].
    unfold hinata_storage_cache_get.
    assert (H : cache_get_scan (cache c) key now = (None, cache c)).
    { induction (cache c) as [|e es IH]; simpl; [done|].
      rewrite decide_False by (apply Hno, elem_of_cons; by left).
      rewrite IH; [done|]. intros e' He'. apply Hno, elem_of_cons. by right. }
    by rewrite H.
Qed.

(** The success path of hinata_storage_store_packet: the buffer it
    serialises into, the write, and the region it leaves behind. *)
Lemma store_success_effect s p rid env s1 region file :
  hinata_storage_store_packet s (Some p) rid env = (0, s1) ->
  regions (sys_storage s) !! Z.to_nat rid = Some region ->
  region_file region = Some file ->
  let data_size := wrap_u64 (SIZEOF_PACKET + pkt_content_size p + pkt_metadata_size p) in
  exists data m1,
    Memory.hinata_malloc (sys_memory s) data_size (se_data_alloc env) = (data, m1)
    /\ data <> NULL /\ se_written env = data_size
    /\ regions (sys_storage s1)
       = <[Z.to_nat rid :=
             mk_region (region_id region) (region_name region) (region_path region)
                       (region_type region) (region_flags region) (region_size region)
                       (wrap_u64 (used_size region + data_size))
                       (wrap_u64 (block_count region + 1))
                       (Some (kernel_write file
                                (serialize (kheap (sys_packets s)) p
                                           (default [] (Memory.heap m1 !! data)))
                                (used_size region) (se_written env)))
                       (free_list region) (block_tree region)
                       (mk_sstats (wrap_s64 (packets_stored (region_stats region) + 1))
                                  (packets_deleted (region_stats region))
                                  (wrap_s64 (bytes_written (region_stats region) + data_size))
                                  (cache_hits (region_stats region))
                                  (cache_misses (region_stats region)))]>
           (write_through (regions (sys_storage s)) (region_path region)
                          (serialize (kheap (sys_packets s)) p
                                     (default [] (Memory.heap m1 !! data)))
                          (used_size region) (se_written env)).
Proof.
  intros Hst Hreg Hfile. cbv zeta. revert Hst.
  unfold hinata_storage_store_packet.
  destruct (storage_initialized (sys_storage s)); cbn [negb]; [|by intros [= ?]].
  case_decide; [by intros [= ?]|].
  rewrite Hreg, Hfile.
  destruct (hinata_validate_packet _ _ _ _ _ _) as [ret vst].
  case_decide; [by intros [= ?]|].
  destruct (Memory.hinata_malloc _ _ _) as [data m1] eqn:Em.
  destruct (decide (data = NULL)) as [Hd|Hd]; [by intros [= ?]|].
  destruct (decide (se_written env <> _)) as [Hw|Hw]; [by intros [= ?]|].
  match goal with
  | |- context [hinata_storage_cache_put ?c ?m ?k ?d ?sz ?e1 ?e2 ?t ?n] =>
      pose proof (cache_put_regions c m k d sz e1 e2 t n) as [Hput _];
      destruct (hinata_storage_cache_put c m k d sz e1 e2 t n) as [[rc c2] m2]
  end.
  simpl in Hput. intros [= <-]. exists data, m1.
  split; [done|]. split; [done|]. split; [by apply dec_stable|].
  simpl. by rewrite Hput.
Qed.

Lemma write_at_parts (file : list Z) (pos : nat) (data : list Z) :
  take pos (write_at file (Z.of_nat pos) data) = resize pos 0 file
  /\ take (length data) (drop pos (write_at file (Z.of_nat pos) data)) = data.
Proof.
  unfold write_at. rewrite Nat2Z.id.
  assert (Hl : length (resize pos 0 file) = pos) by apply length_resize.
  split.
  - rewrite take_app_le by lia. rewrite take_ge by lia. done.
  - rewrite drop_app_ge by lia. rewrite Hl, Nat.sub_diag, drop_0.
    rewrite take_app_le by lia. by rewrite take_ge by lia.
Qed.

Lemma serialize_length kh p (buf : list Z) :
  length buf
  = Z.to_nat (wrap_u64 (SIZEOF_PACKET + pkt_content_size p + pkt_metadata_size p)) ->
  length (serialize kh p buf)
  = Z.to_nat (wrap_u64 (SIZEOF_PACKET + pkt_content_size p + pkt_metadata_size p)).
Proof.
  intros Hl. unfold serialize. cbv zeta.
  rewrite length_take, length_app, length_drop. lia.
Qed.

(** X26.  A successful hinata_storage_store_packet appends one record
    to the region file: with n = sizeof(struct hinata_packet) +
    content_size + metadata_size, the n serialised bytes sit in the file
    at the old used_size, everything below that offset is as it was
    (zero-filled where the file was shorter), and used_size has advanced
    by n, so that the next record does not overlap this one. *)
Theorem store_appends_record s p rid env s1 region file :
  hinata_storage_store_packet s (Some p) rid env = (0, s1) ->
  regions (sys_storage s) !! Z.to_nat rid = Some region ->
  region_file region = Some file ->
  0 <= used_size region ->
  let n := wrap_u64 (SIZEOF_PACKET + pkt_content_size p + pkt_metadata_size p) in
  let bytes := serialize (kheap (sys_packets s)) p
                 (resize (Z.to_nat n) 0 (Memory.env_garbage (se_data_alloc env))) in
  exists region' file',
    regions (sys_storage s1) !! Z.to_nat rid = Some region'
    /\ region_file region' = Some file'
    /\ 0 < n /\ length bytes = Z.to_nat n
    /\ used_size region' = wrap_u64 (used_size region + n)
    /\ take (Z.to_nat n) (drop (Z.to_nat (used_size region)) file') = bytes
    /\ take (Z.to_nat (used_size region)) file'
       = resize (Z.to_nat (used_size region)) 0 file.
Proof.
  intros Hst Hreg Hfile Hused. cbv zeta.
  destruct (store_success_effect _ _ _ _ _ _ _ Hst Hreg Hfile)
    as (data & m1 & Hm & Hd & Hw & Hregs).
  set (n := wrap_u64 (SIZEOF_PACKET + pkt_content_size p + pkt_metadata_size p)) in *.
  assert (Hlt : (Z.to_nat rid < length (regions (sys_storage s)))%nat)
    by (by eapply lookup_lt_Some).
  pose proof (malloc_success_buffer _ _ _ _ _ Hm Hd) as Hbuf.
  assert (Hn : 0 < n).
  { assert (0 <= n) by (subst n; unfold wrap_u64; apply Z.mod_pos_bound; lia).
    assert (n <> 0); [|lia].
    intros Hz. revert Hm. rewrite Hz. unfold Memory.hinata_malloc.
    rewrite bool_decide_eq_true_2 by done. rewrite orb_true_r.
    intros [= <- _]. done. }
  rewrite Hbuf in Hregs. simpl in Hregs.
  set (bytes := serialize (kheap (sys_packets s)) p
                  (resize (Z.to_nat n) 0 (Memory.env_garbage (se_data_alloc env)))) in *.
  assert (Hlen : length bytes = Z.to_nat n).
  { subst bytes. apply serialize_length. by rewrite length_resize. }
  eexists _, _.
  split; [rewrite Hregs; apply list_lookup_insert_eq;
          by rewrite length_write_through|].
  cbn [region_file used_size]. split; [reflexivity|].
  split; [done|]. split; [done|]. split; [done|].
  rewrite Hw. unfold kernel_write. rewrite decide_False by lia.
  rewrite <- Hlen, firstn_all.
  destruct (write_at_parts file (Z.to_nat (used_size region)) bytes) as [H1 H2].
  rewrite Z2Nat.id in H1, H2 by done. done.
Qed.

(** X27.  A failed write leaks nothing.  When
    hinata_storage_store_packet returns -EIO (kernel_write did not report
    the record length as written) and the allocator tracks its blocks, the
    serialisation buffer has been released again: the tracking list and
    the accounted memory usage are as before the call; the region's
    used_size and block_count, the cache and the statistics have not
    moved, so the next store writes at the same offset. *)
Theorem store_write_error_leaks_nothing s p rid env s1 :
  hinata_storage_store_packet s (Some p) rid env = (- EIO, s1) ->
  Memory.enable_tracking (Memory.config (sys_memory s)) = true ->
  Memory.blocks_list (sys_memory s1) = Memory.blocks_list (sys_memory s)
  /\ Memory.hinata_get_allocated_memory (sys_memory s1)
     = Memory.hinata_get_allocated_memory (sys_memory s)
  /\ map used_size (regions (sys_storage s1)) = map used_size (regions (sys_storage s))
  /\ map block_count (regions (sys_storage s1))
     = map block_count (regions (sys_storage s))
  /\ cache (sys_storage s1) = cache (sys_storage s)
  /\ stats (sys_storage s1) = stats (sys_storage s).
Proof.
  unfold hinata_storage_store_packet.
  destruct (storage_initialized (sys_storage s)); cbn [negb];
    [|by intros [= Hx _]; vm_compute in Hx].
  case_decide; [by intros [= Hx _]; vm_compute in Hx|].
  destruct (regions (sys_storage s) !! Z.to_nat rid) as [region|] eqn:Hreg;
    [|by intros [= Hx _]; vm_compute in Hx].
  destruct (region_file region) as [file|] eqn:Hfile;
    [|by intros [= Hx _]; vm_compute in Hx].
  destruct (hinata_validate_packet _ _ _ _ _ _) as [ret vst].
  case_decide; [by intros [= Hx _]; vm_compute in Hx|].
  destruct (Memory.hinata_malloc _ _ _) as [data m1] eqn:Em.
  destruct (decide (data = NULL)) as [Hd|Hd]; [by intros [= Hx _]; vm_compute in Hx|].
  destruct (decide (se_written env <> _)) as [Hw|Hw].
  - intros [= <-] Htr. cbn [sys_memory sys_storage regions cache stats set_regions].
    destruct (malloc_then_free _ _ _ _ _ (se_timestamp env) Htr Em Hd)
      as (Hb & Hu & _).
    split; [done|]. split; [done|].
    assert (Hlt : (Z.to_nat rid < length (regions (sys_storage s)))%nat)
      by (by eapply lookup_lt_Some).
    rewrite !list_fmap_insert. cbn [used_size block_count].
    rewrite !write_through_fields by done.
    rewrite !list_insert_id by (by rewrite list_lookup_fmap, Hreg).
    done.
  - match goal with
    | |- context [hinata_storage_cache_put ?c ?m ?k ?d ?sz ?e1 ?e2 ?t ?n] =>
        destruct (hinata_storage_cache_put c m k d sz e1 e2 t n) as [[rc c2] m2]
    end.
    by intros [= Hx _]; vm_compute in Hx.
Qed.

Lemma cache_get_scan_length es key now :
  length (snd (cache_get_scan es key now)) = length es.
Proof.
  induction es as [|e es IH]; simpl; [done|].
  case_decide; [done|].
  destruct (cache_get_scan es key now) as [r rest]. simpl in *. by rewrite IH.
Qed.

Lemma cache_put_ref_scan_length es key :
  length (cache_put_ref_scan es key) = length es.
Proof.
  induction es as [|e es IH]; simpl; [done|].
  case_decide; simpl; [done|]. by rewrite IH.
Qed.

Lemma cache_remove_scan_length es key :
  match cache_remove_scan es key with
  | (Some _, rest) => S (length rest) = length es
  | (None, rest) => rest = es
  end.
Proof.
  induction es as [|e es IH]; simpl; [done|].
  case_decide; [done|].
  destruct (cache_remove_scan es key) as [[r|] rest]; simpl in *.
  - by rewrite IH.
  - by rewrite IH.
Qed.

Lemma apply_cache_op_size cm op :
  cache_size (fst cm) = Z.of_nat (length (cache (fst cm))) ->
  cache_size (fst cm) < INT_MAX ->
  cache_size (fst (apply_cache_op cm op))
  = Z.of_nat (length (cache (fst (apply_cache_op cm op))))
  /\ cache_size (fst (apply_cache_op cm op)) <= cache_size (fst cm) + 1.
Proof.
  destruct cm as [c m]. cbn [fst]. intros Hinv Hb. unfold INT_MAX in Hb.
  destruct op as [key data size e1 e2 tail now|key now|key now|key]; cbn [apply_cache_op].
  - destruct (hinata_storage_cache_put c m key data size e1 e2 tail now)
      as [[rc c1] m1] eqn:Eput. cbn [fst].
    revert Eput. unfold hinata_storage_cache_put.
    case_decide; [intros [= _ <- _]; lia|].
    destruct (Memory.hinata_malloc m SIZEOF_CACHE_ENTRY e1) as [entry m2].
    case_decide; [intros [= _ <- _]; lia|].
    destruct (Memory.hinata_malloc m2 size e2) as [dcopy m3].
    case_decide; [intros [= _ <- _]; lia|].
    intros [= _ <- _]. simpl. rewrite wrap_s32_small by lia. lia.
  - unfold hinata_storage_cache_get.
    pose proof (cache_get_scan_length (cache c) key now) as Hl.
    destruct (cache_get_scan (cache c) key now) as [[e|] es]; simpl in *; [|lia].
    rewrite Hl. lia.
  - unfold hinata_storage_cache_remove.
    pose proof (cache_remove_scan_length (cache c) key) as Hl.
    destruct (cache_remove_scan (cache c) key) as [[e|] es]; simpl in *; [|lia].
    rewrite wrap_s32_small by lia. lia.
  - unfold hinata_storage_cache_put_ref. simpl.
    rewrite cache_put_ref_scan_length. lia.
Qed.

(** X28.  The counter cache_size equals the number of cache entries
    after any sequence of fewer than INT_MAX hinata_storage_cache_put,
    _get, _remove and _put_ref calls on the cache of a freshly initialised
    storage context, whatever the allocator answers: failed puts and
    lookups or removals of unknown keys leave it alone. *)
Theorem cache_size_counts_entries ops m :
  Z.of_nat (length ops) < INT_MAX ->
  let c := fst (foldl apply_cache_op (initial_storage, m) ops) in
  cache_size c = Z.of_nat (length (cache c)).
Proof.
  intros Hlen. cbv zeta.
  assert (H : cache_size (fst (foldl apply_cache_op (initial_storage, m) ops))
              = Z.of_nat (length (cache (fst (foldl apply_cache_op
                                                   (initial_storage, m) ops))))
              /\ cache_size (fst (foldl apply_cache_op (initial_storage, m) ops))
                 <= Z.of_nat (length ops)); [|by destruct H].
  induction ops as [|op ops IH] using rev_ind; [done|].
  rewrite length_app in Hlen |- *. cbn [length] in Hlen |- *.
  destruct (IH ltac:(lia)) as [Hinv Hle].
  rewrite foldl_app. cbn [foldl].
  destruct (apply_cache_op_size _ op Hinv ltac:(lia)) as [H1 H2].
  split; [done|lia].
Qed.

Lemma cache_size_counts_entries_witness :
  let a (x : Z) := Memory.mk_env x x x true [] 5 in
  let ops := [CPut "k" [1; 2; 3] 3 (a 4096) (a 8192) EmptyString 5;
              CGet "k" 6; CPut "k" [4] 1 (a 12288) (a 0) EmptyString 7;
              CPutRef "k"; CRemove "x" 8; CRemove "k" 9; CRemove "k" 10] in
  let c := fst (foldl apply_cache_op (initial_storage, Memory.initial_context) ops) in
  cache_size c = Z.of_nat (length (cache c)).
Proof.
  intros a ops. apply (cache_size_counts_entries ops Memory.initial_context).
  vm_compute. reflexivity.
Defined.

End StorageExtras.

(** *** The validator and the storage on the scenario packet *)

Section ExtrasScenario.
Import Packet Validation PacketClone Storage.

Lemma validation_flags_monotone_witness :
  let f := Z.lor HINATA_VALIDATE_FORCE_RECHECK HINATA_VALIDATE_CONTENT in
  fst (hinata_validate_packet_full (helpers := enum_helpers)
         hinata_validation_init (kheap (sys_packets Scenario.start)) 2000 50000
         (Some Scenario.packet) f) = 0.
Proof.
  intros f.
  pose (g := Z.lor f (Z.lor HINATA_VALIDATE_INTEGRITY HINATA_VALIDATE_STRICT)).
  apply (proj1 (@validation_flags_monotone enum_helpers
                  hinata_validation_init hinata_validation_init
                  (kheap (sys_packets Scenario.start)) 2000 50000 50000
                  Scenario.packet f g
                  ltac:(vm_compute; reflexivity) ltac:(vm_compute; reflexivity)
                  ltac:(intros x Hx;
                        repeat (apply elem_of_cons in Hx as [->|Hx]);
                        [vm_compute; done..|by apply elem_of_nil in Hx]))).
  vm_compute. reflexivity.
Defined.

Lemma full_validation_implies_packet_validate_witness :
  fst (fst (hinata_packet_validate (sys_packets Scenario.start)
              hinata_validation_init (Some Scenario.packet))) = 0.
Proof.
  apply (@full_validation_implies_packet_validate enum_helpers
           (sys_packets Scenario.start) hinata_validation_init hinata_validation_init
           2000 50000 Scenario.packet
           (Z.lor HINATA_VALIDATE_FORCE_RECHECK HINATA_VALIDATE_INTEGRITY)).
  - intros t Ht. apply bool_decide_eq_true in Ht. lia.
  - vm_compute. reflexivity.
  - vm_compute. reflexivity.
  - vm_compute. reflexivity.
  - vm_compute. discriminate.
Defined.

Lemma validation_statistics_consistent_witness :
  let kh := kheap (sys_packets Scenario.start) in
  let calls := [mk_vcall kh 2000 50000 (Some Scenario.packet) HINATA_VALIDATE_STANDARD;
                mk_vcall kh 2001 50001 None HINATA_VALIDATE_STANDARD;
                mk_vcall kh 2002 50002 (Some zero_packet) HINATA_VALIDATE_BASIC;
                mk_vcall kh 2003 50003 (Some Scenario.packet) HINATA_VALIDATE_STANDARD] in
  let st := run_validations (helpers := enum_helpers) hinata_validation_init calls in
  let stats := snd (hinata_get_validation_statistics st) in
  successful_validations stats + failed_validations stats = 4
  /\ successful_validations stats <= total_validations stats
  /\ total_validations stats <= 4
  /\ 0 <= success_rate stats <= 100.
Proof.
  intros kh calls.
  apply (@validation_statistics_consistent enum_helpers calls).
  vm_compute. reflexivity.
Defined.


Lemma destroy_region_frees_slot_witness :
  let s := snd (hinata_storage_store_packet (helpers := enum_helpers)
                  (layout := flat_layout)
                  Scenario.start (Some Scenario.packet) 0 Scenario.env) in
  let res := hinata_storage_destroy_region (sys_storage s) 0 in
  let s' := mk_system (sys_packets s) (sys_validation s) (sys_memory s) (snd res) in
  let cenv := mk_create_env 12288 0 Scenario.uuid 1000 16384 0 true 6 in
  fst res = 0
  /\ hinata_storage_destroy_region (snd res) 0
     = (- ENOENT, snd res)
  /\ fst (hinata_storage_load_packet (layout := flat_layout) s' (Some Scenario.uuid) 0 11 cenv)
     = fst (hinata_storage_load_packet (layout := flat_layout) s (Some Scenario.uuid) 0 11 cenv).
Proof.
  intros s res s' cenv.
  destruct (@destroy_region_frees_slot enum_helpers flat_layout s 0
              (default (zero_region 0) (regions (sys_storage s) !! 0%nat))
              ltac:(vm_compute; reflexivity) ltac:(vm_compute; done)
              ltac:(vm_compute; reflexivity)
              ltac:(vm_compute; eexists; reflexivity))
    as (H1 & _ & _ & _ & H5 & _ & H7 & _).
  split; [exact H1|]. split; [exact H5|].
  apply H7. vm_compute. eexists. reflexivity.
Defined.

Lemma cache_put_get_remove_witness :
  let put1 := hinata_storage_cache_put
                initial_storage Memory.initial_context "k" [1; 2; 3] 3
                (Scenario.answers 4096) (Scenario.answers 8192) EmptyString 5 in
  let c1 := snd (fst put1) in
  let m1 := snd put1 in
  (exists dp, fst (hinata_storage_cache_get c1 "k" 6) = Some (dp, 3)
              /\ Memory.heap m1 !! dp = Some (take (Z.to_nat 3) [1; 2; 3]))
  /\ hinata_storage_cache_remove initial_storage Memory.initial_context "k" 7
     = (- ENOENT, initial_storage, Memory.initial_context).
Proof.
  intros put1 c1 m1. split.
  - apply (proj1 cache_put_get_remove
             initial_storage Memory.initial_context "k"%string [1; 2; 3] 3
             (Scenario.answers 4096) (Scenario.answers 8192) EmptyString 5 6 c1 m1).
    + vm_compute. reflexivity.
    + vm_compute. reflexivity.
  - apply (proj2 (proj2 cache_put_get_remove)
             initial_storage Memory.initial_context "k"%string 7).
    intros e He. vm_compute in He. by apply elem_of_nil in He.
Defined.

Lemma store_appends_record_witness :
  let s1 := snd (hinata_storage_store_packet (helpers := enum_helpers)
                   (layout := flat_layout)
                   Scenario.start (Some Scenario.packet) 0 Scenario.env) in
  let region := default (zero_region 0) (regions (sys_storage Scenario.start) !! 0%nat) in
  let file := default [] (region_file region) in
  let n := wrap_u64 (SIZEOF_PACKET + pkt_content_size Scenario.packet
                     + pkt_metadata_size Scenario.packet) in
  let bytes := serialize (layout := flat_layout) (kheap (sys_packets Scenario.start))
                 Scenario.packet
                 (resize (Z.to_nat n) 0
                         (Memory.env_garbage (se_data_alloc Scenario.env))) in
  exists region' file',
    regions (sys_storage s1) !! Z.to_nat 0 = Some region'
    /\ region_file region' = Some file'
    /\ 0 < n /\ length bytes = Z.to_nat n
    /\ used_size region' = wrap_u64 (used_size region + n)
    /\ take (Z.to_nat n) (drop (Z.to_nat (used_size region)) file') = bytes
    /\ take (Z.to_nat (used_size region)) file'
       = resize (Z.to_nat (used_size region)) 0 file.
Proof.
  intros s1 region file.
  apply (@store_appends_record enum_helpers flat_layout
           Scenario.start Scenario.packet 0 Scenario.env s1 region file).
  - vm_compute. reflexivity.
  - vm_compute. reflexivity.
  - vm_compute. reflexivity.
  - vm_compute. discriminate.
Defined.

Lemma store_write_error_leaks_nothing_witness :
  let env := mk_store_env 2000 50000 (Scenario.answers 100000) 100 9
                          (Scenario.answers 200000) (Scenario.answers 300000)
                          EmptyString in
  let r := hinata_storage_store_packet (helpers := enum_helpers) (layout := flat_layout)
             Scenario.start (Some Scenario.packet) 0 env in
  fst r = - EIO
  /\ Memory.blocks_list (sys_memory (snd r)) = Memory.blocks_list (sys_memory Scenario.start)
  /\ Memory.hinata_get_allocated_memory (sys_memory (snd r))
     = Memory.hinata_get_allocated_memory (sys_memory Scenario.start)
  /\ map used_size (regions (sys_storage (snd r)))
     = map used_size (regions (sys_storage Scenario.start))
  /\ map block_count (regions (sys_storage (snd r)))
     = map block_count (regions (sys_storage Scenario.start))
  /\ cache (sys_storage (snd r)) = cache (sys_storage Scenario.start)
  /\ stats (sys_storage (snd r)) = stats (sys_storage Scenario.start).
Proof.
  intros env r. split; [vm_compute; reflexivity|].
  apply (@store_write_error_leaks_nothing enum_helpers flat_layout
           Scenario.start Scenario.packet 0 env (snd r)).
  - vm_compute. reflexivity.
  - reflexivity.
Defined.

End ExtrasScenario.
